(** * QuickPackage: build / install / uninstall orchestration

    A shallow embedding of the orchestrator ([main], [doBuild],
    [doInstall], [doUninstall], [copyPreserveRelBase], [findTempBuildDir],
    [installSystemdUnit]) and of the unit description ([SystemdUnit] and
    its methods), together with the properties of the install lifecycle
    that the design document states.

    The program is a sequence of calls to the operating system.  The
    embedding keeps that shape: every stage is a function from a [World]
    (file system, external state, working directory, trace of performed
    operations) to an [Outcome], and [log.Fatal] is the [Fatal] outcome. *)

From stdpp Require Import base strings list gmap fin_maps sorting pretty.
From Stdlib Require Import Ascii.

(** ** Lexical paths: Go's [path/filepath] on a Unix host *)

Module Path.

(** Splitting a string at every ['/'], as the element scans of
    [filepath.Clean], [Base], [Dir] and [Rel] do. *)
Fixpoint split_slash (s : string) : list string :=
  match s with
  | EmptyString => [""]
  | String c s' =>
      if Ascii.eqb c "/"%char then "" :: split_slash s'
      else match split_slash s' with
           | [] => [String c ""]
           | x :: xs => String c x :: xs
           end
  end.

Fixpoint join_slash (l : list string) : string :=
  match l with
  | [] => ""
  | x :: xs =>
      match xs with
      | [] => x
      | _ => x +:+ "/" +:+ join_slash xs
      end
  end.

Definition is_rooted (s : string) : bool :=
  match s with
  | String c _ => Ascii.eqb c "/"%char
  | EmptyString => false
  end.

(** One element of [Clean]'s scan.  The output is kept as a stack (last
    element first).  An empty element and ["."] are skipped; [".."] removes
    the last real element, is dropped at the root, and is kept at the front
    of a relative path. *)
Definition clean_push (rooted : bool) (stk : list string) (c : string)
  : list string :=
  if bool_decide (c = "" ∨ c = ".") then stk
  else if bool_decide (c = "..") then
    match stk with
    | [] => if rooted then [] else [".."]
    | top :: rest => if bool_decide (top = "..") then ".." :: stk else rest
    end
  else c :: stk.

Definition clean_comps (rooted : bool) (cs : list string) : list string :=
  rev (fold_left (clean_push rooted) cs []).

(** A cleaned path: whether it is rooted, and its elements. *)
Record cpath := CPath { rooted : bool; comps : list string }.

Definition clean_path (s : string) : cpath :=
  CPath (is_rooted s) (clean_comps (is_rooted s) (split_slash s)).

Definition render (p : cpath) : string :=
  if rooted p then "/" +:+ join_slash (comps p)
  else match comps p with
       | [] => "."
       | _ => join_slash (comps p)
       end.

(** [filepath.Clean] *)
Definition Clean (s : string) : string := render (clean_path s).

(** [filepath.Join]: leading empty elements are dropped, the rest is joined
    with ['/'] and cleaned; all empty gives the empty string. *)
Fixpoint Join (elem : list string) : string :=
  match elem with
  | [] => ""
  | e :: rest => if bool_decide (e = "") then Join rest
                 else Clean (join_slash elem)
  end.

(** [filepath.Base]: the last element, after trailing slashes are
    stripped; ["."] for the empty path and ["/"] for a path of slashes. *)
Definition Base (s : string) : string :=
  if bool_decide (s = "") then "."
  else match filter (λ c, c ≠ "") (rev (split_slash s)) with
       | [] => "/"
       | c :: _ => c
       end.

(** [filepath.Dir]: everything up to the last slash, cleaned. *)
Definition Dir (s : string) : string :=
  match rev (split_slash s) with
  | [] => "."
  | _ :: before =>
      match before with
      | [] => "."
      | _ => Clean (join_slash (rev before) +:+ "/")
      end
  end.

(** The elements [filepath.Rel] walks over: a rooted path starts with the
    empty element before its first slash; ["."] has no element. *)
Definition elements (p : cpath) : list string :=
  if rooted p then "" :: comps p else comps p.

Fixpoint rel_elems (base targ : list string) : option (list string) :=
  match base, targ with
  | [], _ => Some targ
  | _ :: _, [] => Some (replicate (length base) "..")
  | b :: base', t :: targ' =>
      if bool_decide (b = t) then rel_elems base' targ'
      else if bool_decide (b = "..") then None
      else Some (replicate (length base) ".." ++ targ)
  end.

(** [filepath.Rel]; [None] is its error result. *)
Definition Rel (basepath targpath : string) : option string :=
  let base := clean_path basepath in
  let targ := clean_path targpath in
  if bool_decide (render targ = render base) then Some "."
  else if bool_decide (rooted base = rooted targ) then
    join_slash <$> rel_elems (elements base) (elements targ)
  else None.

(** [strings.HasPrefix] *)
Definition HasPrefix (s pre : string) : bool := String.prefix pre s.

End Path.

(** ** The file system *)

Module FS.

Inductive node := File (data : string) | Dir.

#[global] Instance node_eq_dec : EqDecision node.
Proof. solve_decision. Defined.

(** A file system maps the elements of a clean absolute path to what is
    there; the root (no element) is always a directory.  There are no
    symbolic links, and modes and owners are not kept. *)
Abbreviation t := (gmap (list string) node).

Definition stat (fs : t) (p : list string) : option node :=
  match p with
  | [] => Some Dir
  | _ => fs !! p
  end.

Definition is_dir (fs : t) (p : list string) : bool :=
  bool_decide (stat fs p = Some Dir).

Definition parent (p : list string) : list string := removelast p.

(** A path string names a place lexically: relative to the working
    directory unless rooted, with [".."] cancelling the element before it.
    The empty string names nothing. *)
Definition resolve (cwd : list string) (s : string) : option (list string) :=
  if bool_decide (s = "") then None
  else
    let p := Path.clean_path s in
    Some (if Path.rooted p then Path.comps p
          else Path.clean_comps true (cwd ++ Path.comps p)).

Fixpoint strip_prefix (pre k : list string) : option (list string) :=
  match pre, k with
  | [], _ => Some k
  | _ :: _, [] => None
  | a :: pre', b :: k' => if bool_decide (a = b) then strip_prefix pre' k' else None
  end.

Definition under (d k : list string) : bool :=
  bool_decide (is_Some (strip_prefix d k)).

(** [os.MkdirAll]: every missing directory on the way is made; a file on
    the way is an error. *)
Fixpoint mkdir_all_from (fs : t) (pre rest : list string) : option t :=
  match rest with
  | [] => Some fs
  | c :: rest' =>
      let q := pre ++ [c] in
      match fs !! q with
      | Some (File _) => None
      | Some Dir => mkdir_all_from fs q rest'
      | None => mkdir_all_from (<[q := Dir]> fs) q rest'
      end
  end.

Definition mkdir_all (fs : t) (p : list string) : option t :=
  mkdir_all_from fs [] p.

(** [os.Mkdir] as [os.MkdirTemp] uses it. *)
Inductive mkdir_result := MkdirOk (fs : t) | MkdirExists | MkdirError.

Definition mkdir (fs : t) (p : list string) : mkdir_result :=
  match stat fs p with
  | Some _ => MkdirExists
  | None => if is_dir fs (parent p) then MkdirOk (<[p := Dir]> fs)
            else MkdirError
  end.

(** [os.WriteFile] *)
Definition write_file (fs : t) (p : list string) (data : string) : option t :=
  match stat fs p with
  | Some Dir => None
  | _ => if is_dir fs (parent p) then Some (<[p := File data]> fs) else None
  end.

(** [os.ReadFile] *)
Definition read_file (fs : t) (p : list string) : option string :=
  match stat fs p with
  | Some (File data) => Some data
  | _ => None
  end.

(** [os.RemoveAll]: the path and everything below it. *)
Definition remove_all (fs : t) (p : list string) : t :=
  filter (λ kv, under p kv.1 = false) fs.

Definition has_children (fs : t) (p : list string) : bool :=
  bool_decide (Exists (λ k, under p k = true ∧ k ≠ p) (map_to_list fs).*1).

(** [os.Remove]: a file or an empty directory. *)
Definition remove (fs : t) (p : list string) : t :=
  match stat fs p with
  | Some (File _) => delete p fs
  | Some Dir => if has_children fs p then fs else delete p fs
  | None => fs
  end.

Definition child_name (d k : list string) : option string :=
  match strip_prefix d k with
  | Some [name] => Some name
  | _ => None
  end.

(** [os.ReadDir]: the names in a directory, sorted by name. *)
Definition read_dir (fs : t) (d : list string) : option (list string) :=
  if is_dir fs d
  then Some (merge_sort String.le (omap (child_name d) (map_to_list fs).*1))
  else None.

(** What lies at and below [src], by path relative to [src]. *)
Definition subtree (fs : t) (src : list string) : list (list string * node) :=
  omap (λ kv, (λ r, (r, kv.2)) <$> strip_prefix src kv.1) (map_to_list fs).

Definition reroot (dst : list string) (l : list (list string * node))
  : list (list string * node) :=
  (λ rv, (dst ++ rv.1, rv.2)) <$> l.

Definition clash (fs : t) (kv : list string * node) : bool :=
  match kv.2, fs !! kv.1 with
  | File _, Some Dir => true
  | Dir, Some (File _) => true
  | _, _ => false
  end.

(** The copy of the library [github.com/otiai10/copy]: a file is written
    over the destination, after its directory has been made; a directory
    is merged into the destination, entry by entry.  A file copied onto
    itself is truncated by the open for writing.  A directory copied into
    a place that overlaps it never settles, and is reported as an error
    here. *)
Definition copy (fs : t) (src dst : list string) : option t :=
  match stat fs src with
  | None => None
  | Some (File data) =>
      match mkdir_all fs (parent dst) with
      | None => None
      | Some fs1 =>
          match stat fs1 dst with
          | Some Dir => None
          | _ => Some (<[dst := File (if bool_decide (src = dst) then "" else data)]> fs1)
          end
      end
  | Some Dir =>
      if under src dst || under dst src then None
      else
        match mkdir_all fs dst with
        | None => None
        | Some fs1 =>
            let new := reroot dst (subtree fs src) in
            if bool_decide (Exists (λ kv, clash fs1 kv = true) new) then None
            else Some (list_to_map new ∪ fs1)
        end
  end.

(** Entry names are single path elements. *)
Definition valid_name (c : string) : Prop :=
  c ≠ "" ∧ c ≠ "." ∧ c ≠ ".." ∧ "/"%char ∉ String.list_ascii_of_string c.

#[global] Instance valid_name_dec (c : string) : Decision (valid_name c).
Proof. unfold valid_name. apply _. Defined.

(** A well-formed file system: names are path elements, and whatever
    exists lies in a directory. *)
Definition wf (fs : t) : Prop :=
  ∀ k, is_Some (fs !! k) →
       k ≠ [] ∧ Forall valid_name k ∧ stat fs (parent k) = Some Dir.

End FS.

(** ** Configuration and unit description ([type.go]) *)

Record FileEntry := { File : string; From : string }.

Record Config := {
  AppName : string;
  BuildFiles : list string;
  InstallFiles : list FileEntry;
  BuildScript : string;
  InstallScript : string;
  UninstallScript : string;
  Systemd : bool;
  SystemdRunAsUser : bool;
  Exec : string
}.

Record SystemdUnit := { Name : string; RunAsUser : bool; ExecPath : string }.

(** [var InstallPath string = "/opt/"] *)
Definition InstallPath : string := "/opt/".

Definition newline : string := String "010"%char "".

Definition GenerateDescription (s : SystemdUnit) : string :=
  if RunAsUser s then Name s +:+ " service running as user %i"
  else Name s +:+ " service".

Definition GetUser (s : SystemdUnit) : string :=
  if RunAsUser s then "%i" else "root".

Definition GenerateFile (s : SystemdUnit) : string :=
  let description := GenerateDescription s in
  let user := GetUser s in
  let workingDirectory := Path.Join [InstallPath; Name s] in
  "[Unit]" +:+ newline +:+
  "Description=" +:+ description +:+ newline +:+
  "After=network.target" +:+ newline +:+
  newline +:+
  "[Service]" +:+ newline +:+
  "Type=simple" +:+ newline +:+
  "ExecStart=" +:+ ExecPath s +:+ newline +:+
  "WorkingDirectory=" +:+ workingDirectory +:+ newline +:+
  "Restart=always" +:+ newline +:+
  "User=" +:+ user +:+ newline +:+
  newline +:+
  "[Install]" +:+ newline +:+
  "WantedBy=multi-user.target" +:+ newline.

Definition UnitName (s : SystemdUnit) : string :=
  if RunAsUser s then Name s +:+ "@" else Name s.

Definition UnitPath (s : SystemdUnit) : string :=
  "/usr/lib/systemd/system/" +:+ UnitName s +:+ ".service".

Definition UnitNameWildcard (s : SystemdUnit) : string :=
  if RunAsUser s then UnitName s +:+ "*" else UnitName s.

Definition UnitFromConfig (c : Config) : SystemdUnit :=
  {| Name := AppName c; ExecPath := Exec c; RunAsUser := SystemdRunAsUser c |}.

Definition GetBuildScript (c : Config) : string := ".qp/" +:+ BuildScript c.
Definition GetInstallScript (c : Config) : string := ".qp/" +:+ InstallScript c.
Definition GetUninstallScript (c : Config) : string := ".qp/" +:+ UninstallScript c.

(** ** The world the program runs in *)

(** What the program does to its surroundings, in the order it does it. *)
Inductive Event :=
  | EvExec (argv : list string) (dir : string) (ok : bool)
  | EvMkdirAll (path : string)
  | EvMkdirTemp (path : string)
  | EvCopy (src dst : string)
  | EvWriteFile (path : string) (data : string)
  | EvRemove (path : string)
  | EvRemoveAll (path : string).

(** The error values [copyPreserveRelBase] returns. *)
Inductive CopyError :=
  | ErrRel (src : string)
  | ErrMkdir (dst : string)
  | ErrCopy (src dst : string).

(** The calls of [log.Fatal] and [log.Fatalf], one constructor for each. *)
Inductive Failure :=
  | FUsage
  | FUnknownAction (action : string)
  | FLoadConfig
  | FAppNameRequired
  | FInstallFilesRequired
  | FExecRequired
  | FMkdirTemp
  | FBadGlob (pattern : string)
  | FCopy (err : CopyError)
  | FCopyBuildScript (script : string)
  | FBuildScript
  | FStopService (unit : string)
  | FCreateInstallDir
  | FBuildDirUnknown (file : string)
  | FUnknownFrom (from file : string)
  | FSourceMissing (src : string)
  | FCopyInstallScript (script : string)
  | FScript (script : string)
  | FInstallUnit
  | FStartService (unit : string)
  | FCopyUninstallScript (script : string).

Section Program.

(** The state of everything outside the file system (service manager,
    random source), and the programs and library calls the orchestrator
    relies on: [systemctl], [/bin/bash] on a script, [filepath.Glob], the
    random number of [os.MkdirTemp], [json.Unmarshal] into [Config]. *)
Context {Env : Type}.
Variable systemctl : list string → Env → bool * Env.
Variable bash : string → string → FS.t → Env → bool * FS.t * Env.
Variable glob : string → list string → FS.t → option (list string).
Variable random : Env → N * Env.
Variable unmarshal : string → option Config.

Record World := {
  fs : FS.t;
  env : Env;
  cwd : list string;
  TMPDIR : string;
  trace : list Event
}.

Inductive Outcome (A : Type) :=
  | Ok (a : A) (w : World)
  | Fatal (f : Failure) (w : World)
  | Diverge.
Arguments Ok {A}.
Arguments Fatal {A}.
Arguments Diverge {A}.

Definition M (A : Type) : Type := World → Outcome A.

Definition ret {A} (a : A) : M A := λ w, Ok a w.

Definition bind {A B} (m : M A) (k : A → M B) : M B :=
  λ w, match m w with
       | Ok a w' => k a w'
       | Fatal f w' => Fatal f w'
       | Diverge => Diverge
       end.

Definition fatal {A} (f : Failure) : M A := λ w, Fatal f w.

Notation "'let*' x ':=' m 'in' k" := (bind m (λ x, k))
  (at level 10, x binder, k at level 200, only parsing).

Definition set_fs (fs' : FS.t) (w : World) : World :=
  {| fs := fs'; env := env w; cwd := cwd w; TMPDIR := TMPDIR w; trace := trace w |}.

Definition set_env (e : Env) (w : World) : World :=
  {| fs := fs w; env := e; cwd := cwd w; TMPDIR := TMPDIR w; trace := trace w |}.

Definition emit (ev : Event) (w : World) : World :=
  {| fs := fs w; env := env w; cwd := cwd w; TMPDIR := TMPDIR w;
     trace := trace w ++ [ev] |}.

Fixpoint for_each {A} (l : list A) (body : A → M unit) : M unit :=
  match l with
  | [] => ret tt
  | x :: l' => let* _ := body x in for_each l' body
  end.

(** *** Calls to the operating system *)

Definition run_systemctl (args : list string) : M bool :=
  λ w, let '(ok, e) := systemctl args (env w) in
       Ok ok (emit (EvExec ("systemctl" :: args) "" ok) (set_env e w)).

Definition run_bash (script dir : string) : M bool :=
  λ w, let '(ok, fs', e) := bash script dir (fs w) (env w) in
       Ok ok (emit (EvExec ["/bin/bash"; script] dir ok) (set_env e (set_fs fs' w))).

(** [os.TempDir()]: [$TMPDIR], or [/tmp]. *)
Definition tempDir (w : World) : string :=
  if bool_decide (TMPDIR w = "") then "/tmp" else TMPDIR w.

Definition os_TempDir : M string :=
  λ w, Ok (tempDir w) w.

Definition exists_ (path : string) : M bool :=
  λ w, Ok (match FS.resolve (cwd w) path with
           | Some p => bool_decide (is_Some (FS.stat (fs w) p))
           | None => false
           end) w.

Definition os_MkdirAll (path : string) : M bool :=
  λ w, match FS.resolve (cwd w) path ≫= FS.mkdir_all (fs w) with
       | Some fs' => Ok true (emit (EvMkdirAll path) (set_fs fs' w))
       | None => Ok false (emit (EvMkdirAll path) w)
       end.

Definition cp_Copy (src dst : string) : M bool :=
  λ w, match FS.resolve (cwd w) src, FS.resolve (cwd w) dst with
       | Some s, Some d =>
           match FS.copy (fs w) s d with
           | Some fs' => Ok true (emit (EvCopy src dst) (set_fs fs' w))
           | None => Ok false (emit (EvCopy src dst) w)
           end
       | _, _ => Ok false (emit (EvCopy src dst) w)
       end.

Definition os_WriteFile (path data : string) : M bool :=
  λ w, match FS.resolve (cwd w) path ≫= λ p, FS.write_file (fs w) p data with
       | Some fs' => Ok true (emit (EvWriteFile path data) (set_fs fs' w))
       | None => Ok false (emit (EvWriteFile path data) w)
       end.

Definition os_ReadFile (path : string) : M (option string) :=
  λ w, Ok (FS.resolve (cwd w) path ≫= FS.read_file (fs w)) w.

Definition os_ReadDir (path : string) : M (option (list string)) :=
  λ w, Ok (FS.resolve (cwd w) path ≫= FS.read_dir (fs w)) w.

Definition os_Remove (path : string) : M unit :=
  λ w, match FS.resolve (cwd w) path with
       | Some p => Ok tt (emit (EvRemove path) (set_fs (FS.remove (fs w) p) w))
       | None => Ok tt (emit (EvRemove path) w)
       end.

Definition os_RemoveAll (path : string) : M unit :=
  λ w, match FS.resolve (cwd w) path with
       | Some p => Ok tt (emit (EvRemoveAll path) (set_fs (FS.remove_all (fs w) p) w))
       | None => Ok tt (emit (EvRemoveAll path) w)
       end.

Definition filepath_Glob (pattern : string) : M (option (list string)) :=
  λ w, Ok (glob pattern (cwd w) (fs w)) w.

(** [os.MkdirTemp]: the last ['*'] of the pattern, or else its end, takes
    a random number; a pattern with a path separator is refused; a name
    that is taken is tried again, up to 10000 times. *)
Fixpoint split_last_star (s : string) : option (string * string) :=
  match s with
  | EmptyString => None
  | String c s' =>
      match split_last_star s' with
      | Some (p, q) => Some (String c p, q)
      | None => if Ascii.eqb c "*"%char then Some ("", s') else None
      end
  end.

Definition prefixAndSuffix (pattern : string) : option (string * string) :=
  if bool_decide ("/"%char ∈ String.list_ascii_of_string pattern) then None
  else Some (default (pattern, "") (split_last_star pattern)).

Fixpoint last_char (s : string) : option ascii :=
  match s with
  | EmptyString => None
  | String c s' => match s' with
                   | EmptyString => Some c
                   | _ => last_char s'
                   end
  end.

Definition joinPath (dir name : string) : string :=
  if bool_decide (last_char dir = Some "/"%char) then dir +:+ name
  else dir +:+ "/" +:+ name.

Fixpoint mkdir_temp_try (tries : nat) (prefix suffix : string) (w : World)
  : Outcome (option string) :=
  match tries with
  | O => Ok None w
  | S n =>
      let '(r, e) := random (env w) in
      let w1 := set_env e w in
      let name := prefix +:+ pretty r +:+ suffix in
      match FS.resolve (cwd w1) name with
      | None => Ok None w1
      | Some p =>
          match FS.mkdir (fs w1) p with
          | FS.MkdirOk fs' => Ok (Some name) (emit (EvMkdirTemp name) (set_fs fs' w1))
          | FS.MkdirExists => mkdir_temp_try n prefix suffix w1
          | FS.MkdirError => Ok None w1
          end
      end
  end.

Definition os_MkdirTemp (dir pattern : string) : M (option string) :=
  match prefixAndSuffix pattern with
  | None => ret None
  | Some (prefix, suffix) => mkdir_temp_try 10000 (joinPath dir prefix) suffix
  end.

(** *** The orchestrator *)

Definition loadConfig (path : string) : M (option Config) :=
  let* data := os_ReadFile path in
  ret (data ≫= unmarshal).

Definition validateConfig (cfg : Config) : M unit :=
  if bool_decide (AppName cfg = "") then fatal FAppNameRequired
  else if bool_decide (length (InstallFiles cfg) = 0) then fatal FInstallFilesRequired
  else if Systemd cfg && bool_decide (Exec cfg = "") then fatal FExecRequired
  else ret tt.

(** The destination [copyPreserveRelBase] computes: the path of [src]
    relative to [baseDir], or the base name of [src] when that is ["."],
    under [dstRoot]. *)
Definition relDest (src baseDir dstRoot : string) : option string :=
  match Path.Rel baseDir src with
  | None => None
  | Some relPath =>
      let relPath := if bool_decide (relPath = ".") then Path.Base src else relPath in
      Some (Path.Join [dstRoot; relPath])
  end.

Definition copyPreserveRelBase (src baseDir dstRoot : string) : M (option CopyError) :=
  match relDest src baseDir dstRoot with
  | None => ret (Some (ErrRel src))
  | Some dst =>
      let* made := os_MkdirAll (Path.Dir dst) in
      if negb made then ret (Some (ErrMkdir dst))
      else
        let* copied := cp_Copy src dst in
        if negb copied then ret (Some (ErrCopy src dst))
        else ret None
  end.

Definition doBuild (cfg : Config) : M unit :=
  let* made := os_MkdirTemp "/tmp" ("qp_build_" +:+ AppName cfg +:+ "_") in
  match made with
  | None => fatal FMkdirTemp
  | Some buildDir =>
      let* _ :=
        for_each (BuildFiles cfg) (λ pattern,
          let* matches := filepath_Glob pattern in
          match matches with
          | None => fatal (FBadGlob pattern)
          | Some matches =>
              for_each matches (λ src,
                let* err := copyPreserveRelBase src "." buildDir in
                match err with
                | Some e => fatal (FCopy e)
                | None => ret tt
                end)
          end) in
      if bool_decide (BuildScript cfg ≠ "") then
        let scriptPath := Path.Join [buildDir; Path.Base (BuildScript cfg)] in
        let* present := exists_ scriptPath in
        let* _ :=
          if negb present then
            let* copied := cp_Copy (GetBuildScript cfg) scriptPath in
            if negb copied then fatal (FCopyBuildScript (BuildScript cfg)) else ret tt
          else ret tt in
        let* ran := run_bash scriptPath buildDir in
        if negb ran then fatal FBuildScript else ret tt
      else ret tt
  end.

Definition runScript (scriptPath workDir : string) : M unit :=
  let* ran := run_bash scriptPath workDir in
  if negb ran then fatal (FScript scriptPath) else ret tt.

Definition installSystemdUnit (cfg : Config) : M bool :=
  let unit_ := UnitFromConfig cfg in
  let* written := os_WriteFile (UnitPath unit_) (GenerateFile unit_) in
  if negb written then ret false
  else
    let* reloaded := run_systemctl ["daemon-reload"] in
    if negb reloaded then ret false
    else run_systemctl ["enable"; "--now"; UnitNameWildcard unit_].

Definition findTempBuildDir (appName : string) : M (string * bool) :=
  let* tmp := os_TempDir in
  let* entries := os_ReadDir tmp in
  match entries with
  | None => ret ("", false)
  | Some entries =>
      match list_find (λ name, Path.HasPrefix name ("qp_build_" +:+ appName +:+ "_") = true)
                      entries with
      | Some (_, name) => ret (Path.Join [tmp; name], true)
      | None => ret ("", false)
      end
  end.

(** The wait for the service to stop asks [is-active] once a second for as
    long as the answer is yes; [fuel] bounds the number of questions, and
    [Diverge] stands for a wait that is still going on. *)
Fixpoint waitStopped (fuel : nat) (name : string) : M unit :=
  match fuel with
  | O => λ _, Diverge
  | S n =>
      let* active := run_systemctl ["is-active"; "--quiet"; name] in
      if active then waitStopped n name else ret tt
  end.

Definition stopIfActive (fuel : nat) (cfg : Config) : M unit :=
  let unit_ := UnitFromConfig cfg in
  if Systemd cfg then
    let* active := run_systemctl ["is-active"; "--quiet"; UnitNameWildcard unit_] in
    if active then
      let* stopped := run_systemctl ["stop"; UnitNameWildcard unit_] in
      if negb stopped then fatal (FStopService (UnitNameWildcard unit_))
      else waitStopped fuel (UnitNameWildcard unit_)
    else ret tt
  else ret tt.

Definition installEntry (buildDir installDir : string) (entry : FileEntry) : M unit :=
  let* src_base :=
    if bool_decide (From entry = "cwd") then ret (File entry, ".")
    else if bool_decide (From entry = "build") then
      if bool_decide (buildDir = "") then fatal (FBuildDirUnknown (File entry))
      else ret (Path.Join [buildDir; File entry], buildDir)
    else fatal (FUnknownFrom (From entry) (File entry)) in
  let '(srcPath, baseDir) := src_base in
  let* present := exists_ srcPath in
  if negb present then fatal (FSourceMissing srcPath)
  else
    let* err := copyPreserveRelBase srcPath baseDir installDir in
    match err with
    | Some e => fatal (FCopy e)
    | None => ret tt
    end.

Definition installScriptStep (cfg : Config) (installDir : string) : M unit :=
  if bool_decide (InstallScript cfg ≠ "") then
    let scriptPath := Path.Join [installDir; Path.Base (InstallScript cfg)] in
    let* present := exists_ scriptPath in
    let* _ :=
      if negb present then
        let* copied := cp_Copy (GetInstallScript cfg) scriptPath in
        if negb copied then fatal (FCopyInstallScript (InstallScript cfg)) else ret tt
      else ret tt in
    runScript scriptPath installDir
  else ret tt.

Definition startService (cfg : Config) : M unit :=
  let unit_ := UnitFromConfig cfg in
  if Systemd cfg then
    let* installed := installSystemdUnit cfg in
    if negb installed then fatal FInstallUnit
    else
      let* started := run_systemctl ["start"; UnitNameWildcard unit_] in
      if negb started then fatal (FStartService (UnitNameWildcard unit_)) else ret tt
  else ret tt.

Definition removeBuildDirs (cfg : Config) : M unit :=
  let* tmp := os_TempDir in
  let* entries := os_ReadDir tmp in
  match entries with
  | None => ret tt
  | Some entries =>
      let prefix := "qp_build_" +:+ AppName cfg +:+ "_" in
      for_each entries (λ name,
        let path := Path.Join [tmp; name] in
        if Path.HasPrefix name prefix then os_RemoveAll path else ret tt)
  end.

Definition doInstall (fuel : nat) (cfg : Config) : M unit :=
  let installDir := Path.Join [InstallPath; AppName cfg] in
  let* _ := stopIfActive fuel cfg in
  let* made := os_MkdirAll installDir in
  if negb made then fatal FCreateInstallDir
  else
    let* found := findTempBuildDir (AppName cfg) in
    let buildDir := found.1 in
    let* _ := for_each (InstallFiles cfg) (installEntry buildDir installDir) in
    let* _ := installScriptStep cfg installDir in
    let* _ := startService cfg in
    removeBuildDirs cfg.

Definition doUninstall (cfg : Config) : M unit :=
  let installDir := Path.Join [InstallPath; AppName cfg] in
  let* _ :=
    if Systemd cfg then
      let unit_ := UnitFromConfig cfg in
      let* _ := run_systemctl ["stop"; UnitNameWildcard unit_] in
      let* _ := run_systemctl ["disable"; UnitNameWildcard unit_] in
      let* _ := os_Remove (UnitPath unit_) in
      let* _ := run_systemctl ["daemon-reload"] in
      ret tt
    else ret tt in
  let* _ :=
    if bool_decide (UninstallScript cfg ≠ "") then
      let scriptPath := Path.Join [installDir; Path.Base (UninstallScript cfg)] in
      let* present := exists_ scriptPath in
      let* _ :=
        if negb present then
          let* copied := cp_Copy (GetUninstallScript cfg) scriptPath in
          if negb copied then fatal (FCopyUninstallScript (UninstallScript cfg)) else ret tt
        else ret tt in
      runScript scriptPath installDir
    else ret tt in
  os_RemoveAll installDir.

(** The action ["install"] of [main]: the build stage, then the install
    stage. *)
Definition installAction (fuel : nat) (cfg : Config) : M unit :=
  let* _ := doBuild cfg in doInstall fuel cfg.

(** The [--config] scan of [main]. *)
Fixpoint configFlag (args : list string) (configPath : string) : string :=
  match args with
  | [] => configPath
  | a :: rest =>
      match rest with
      | v :: rest' =>
          if bool_decide (a = "--config") then configFlag rest' v
          else configFlag rest configPath
      | [] => configPath
      end
  end.

(** [main], on [os.Args]. *)
Definition main (fuel : nat) (osArgs : list string) : M unit :=
  match osArgs with
  | _ :: action :: args =>
      let configPath := configFlag args ".qp/config.json" in
      if bool_decide (action ≠ "build" ∧ action ≠ "install" ∧ action ≠ "uninstall")
      then fatal (FUnknownAction action)
      else
        let* loaded := loadConfig configPath in
        match loaded with
        | None => fatal FLoadConfig
        | Some cfg =>
            let* _ := validateConfig cfg in
            if bool_decide (action = "build") then doBuild cfg
            else if bool_decide (action = "install") then installAction fuel cfg
            else doUninstall cfg
        end
  | _ => fatal FUsage
  end.

(** The exit status of the process: [log.Fatal] exits with 1. *)
Definition exitStatus {A} (o : Outcome A) : option nat :=
  match o with
  | Ok _ _ => Some 0
  | Fatal _ _ => Some 1
  | Diverge => None
  end.

Definition finalWorld {A} (o : Outcome A) : option World :=
  match o with
  | Ok _ w => Some w
  | Fatal _ w => Some w
  | Diverge => None
  end.

End Program.

Arguments Ok {Env A} a w.
Arguments Fatal {Env A} f w.
Arguments Diverge {Env A}.
Arguments World : clear implicits.
Arguments Outcome : clear implicits.
Arguments M : clear implicits.

(** ** Vocabulary of the statements *)

(** The install root of an application, [installPath/appName]. *)
Definition installRoot (cfg : Config) : string :=
  Path.Join [InstallPath; AppName cfg].

(** The prefix that ties a staging directory to an application. *)
Definition stagingPrefix (appName : string) : string :=
  "qp_build_" +:+ appName +:+ "_".

Definition contains (s sub : string) : Prop :=
  ∃ pre post, s = pre +:+ sub +:+ post.

(** [text] has [line] as one of its lines (up to a line break inside
    [line] itself). *)
Definition has_line (text line : string) : Prop :=
  contains (newline +:+ text) (newline +:+ line +:+ newline).

(** The phases of an install, as sets of events. *)
Definition stopPhase (target : string) (ev : Event) : Prop :=
  ∃ ok, ev = EvExec ["systemctl"; "is-active"; "--quiet"; target] "" ok
        ∨ ev = EvExec ["systemctl"; "stop"; target] "" ok.

Definition replacePhase (ev : Event) : Prop :=
  match ev with
  | EvMkdirAll _ | EvCopy _ _ => True
  | EvExec argv _ _ => head argv = Some "/bin/bash"
  | _ => False
  end.

Definition startPhase (cfg : Config) (ev : Event) : Prop :=
  let unit_ := UnitFromConfig cfg in
  ev = EvWriteFile (UnitPath unit_) (GenerateFile unit_)
  ∨ ∃ ok, ev = EvExec ["systemctl"; "daemon-reload"] "" ok
          ∨ ev = EvExec ["systemctl"; "enable"; "--now"; UnitNameWildcard unit_] "" ok
          ∨ ev = EvExec ["systemctl"; "start"; UnitNameWildcard unit_] "" ok.

Definition cleanupPhase (ev : Event) : Prop :=
  match ev with
  | EvRemoveAll _ => True
  | _ => False
  end.

(** A trace that runs through the given phases in order (a phase may be
    empty). *)
Fixpoint phased (phases : list (Event → Prop)) (t : list Event) : Prop :=
  match phases with
  | [] => t = []
  | P :: rest => ∃ t1 t2, t = t1 ++ t2 ∧ Forall P t1 ∧ phased rest t2
  end.

(** The service-manager calls in a trace: sub-command and the rest. *)
Definition systemctlCall (ev : Event) : option (string * list string) :=
  match ev with
  | EvExec (cmd :: sub :: rest) _ _ =>
      if bool_decide (cmd = "systemctl") then Some (sub, rest) else None
  | _ => None
  end.

(** Every status, stop, start, enable or disable call in the trace names
    [target]. *)
Definition targets (target : string) (t : list Event) : Prop :=
  ∀ ev sub rest, ev ∈ t → systemctlCall ev = Some (sub, rest) →
    sub ∈ ["is-active"; "stop"; "disable"; "enable"; "start"] →
    last rest = Some target.

(** ** A concrete host, for scenarios *)

Module Scenario.

(** The service manager: whether the unit is up, how many more status
    questions a stop in progress answers with yes, which sub-commands
    fail; and the numbers the random source will give. *)
Record Host := {
  up : bool;
  lag : option nat;
  failing : list string;
  seeds : list N
}.

Definition systemctl (args : list string) (h : Host) : bool * Host :=
  match args with
  | [] => (false, h)
  | sub :: _ =>
      if bool_decide (sub = "is-active") then
        match lag h with
        | None => (up h, h)
        | Some 0 => (false, {| up := false; lag := None; failing := failing h; seeds := seeds h |})
        | Some (S n) => (true, {| up := true; lag := Some n; failing := failing h; seeds := seeds h |})
        end
      else if bool_decide (sub ∈ failing h) then (false, h)
      else if bool_decide (sub = "stop") then
        (true, {| up := up h; lag := if up h then Some 1 else None;
                  failing := failing h; seeds := seeds h |})
      else if bool_decide (sub = "start") then
        (true, {| up := true; lag := None; failing := failing h; seeds := seeds h |})
      else (true, h)
  end.

(** Scripts that succeed and change nothing. *)
Definition bash (script dir : string) (fs : FS.t) (h : Host) : bool * FS.t * Host :=
  (true, fs, h).

(** Patterns without wildcard: the path itself when it exists. *)
Definition glob (pattern : string) (cwd : list string) (fs : FS.t)
  : option (list string) :=
  match FS.resolve cwd pattern with
  | Some p => if bool_decide (is_Some (FS.stat fs p)) then Some [pattern] else Some []
  | None => Some []
  end.

Definition random (h : Host) : N * Host :=
  match seeds h with
  | [] => (0%N, h)
  | r :: rs => (r, {| up := up h; lag := lag h; failing := failing h; seeds := rs |})
  end.

(** A host directory tree: [/tmp], [/opt], the unit directory, and a
    project in [/home/dev] with one binary and one data file. *)
Definition disk : FS.t :=
  list_to_map
    [ (["tmp"], FS.Dir); (["opt"], FS.Dir);
      (["usr"], FS.Dir); (["usr"; "lib"], FS.Dir);
      (["usr"; "lib"; "systemd"], FS.Dir);
      (["usr"; "lib"; "systemd"; "system"], FS.Dir);
      (["home"], FS.Dir); (["home"; "dev"], FS.Dir);
      (["home"; "dev"; ".qp"], FS.Dir);
      (["home"; "dev"; ".qp"; "config.json"], FS.File "{}");
      (["home"; "dev"; "bin"], FS.Dir);
      (["home"; "dev"; "bin"; "demo"], FS.File "ELF");
      (["home"; "dev"; "data.txt"], FS.File "42") ].

Definition host (isUp : bool) (fails : list string) (rs : list N) : Host :=
  {| up := isUp; lag := None; failing := fails; seeds := rs |}.

Definition world (fs0 : FS.t) (h : Host) : World Host :=
  {| fs := fs0; env := h; cwd := ["home"; "dev"]; TMPDIR := ""; trace := [] |}.

Definition config (name : string) (files : list FileEntry) (service : bool) : Config :=
  {| AppName := name; BuildFiles := []; InstallFiles := files;
     BuildScript := ""; InstallScript := ""; UninstallScript := "";
     Systemd := service; SystemdRunAsUser := false;
     Exec := if service then "/opt/" +:+ name +:+ "/bin/demo" else "" |}.

(** The demo application of the scenarios: one binary, taken from the
    working directory. *)
Definition demoFiles : list FileEntry := [{| File := "bin/demo"; From := "cwd" |}].
Definition demoPlain : Config := config "demo" demoFiles false.
Definition demoService : Config := config "demo" demoFiles true.

(** A service without a command, which validation refuses. *)
Definition brokenService : Config :=
  {| AppName := "demo"; BuildFiles := []; InstallFiles := demoFiles;
     BuildScript := ""; InstallScript := ""; UninstallScript := "";
     Systemd := true; SystemdRunAsUser := false; Exec := "" |}.

(** The demo with an uninstall script that is in neither place. *)
Definition demoWithCleanup : Config :=
  {| AppName := "demo"; BuildFiles := []; InstallFiles := demoFiles;
     BuildScript := ""; InstallScript := ""; UninstallScript := "cleanup.sh";
     Systemd := false; SystemdRunAsUser := false; Exec := "" |}.

(** The host with the demo installed. *)
Definition installedDisk : FS.t :=
  <[ ["opt"; "demo"; "bin"; "demo"] := FS.File "ELF" ]>
    (<[ ["opt"; "demo"; "bin"] := FS.Dir ]> (<[ ["opt"; "demo"] := FS.Dir ]> disk)).

(** The host while another application, [app_extra], is staged. *)
Definition sharedTmpDisk : FS.t :=
  <[ ["tmp"; "qp_build_app_extra_7"; "payload"] := FS.File "extra" ]>
    (<[ ["tmp"; "qp_build_app_extra_7"] := FS.Dir ]> disk).

(** The demo with a data file that goes through the staging directory. *)
Definition stagedFiles : list FileEntry :=
  [{| File := "bin/demo"; From := "cwd" |}; {| File := "data.txt"; From := "build" |}].

Definition stagedDemo : Config :=
  {| AppName := "demo"; BuildFiles := ["data.txt"]; InstallFiles := stagedFiles;
     BuildScript := ""; InstallScript := ""; UninstallScript := "";
     Systemd := true; SystemdRunAsUser := false; Exec := "/opt/demo/bin/demo" |}.

(** The demo that installs the staging directory as a whole. *)
Definition wholeStage : Config :=
  {| AppName := "demo"; BuildFiles := ["data.txt"];
     InstallFiles := [{| File := "."; From := "build" |}];
     BuildScript := ""; InstallScript := ""; UninstallScript := "";
     Systemd := false; SystemdRunAsUser := false; Exec := "" |}.

Definition idle : World Host := world disk (host false [] []).
Definition running : World Host := world disk (host true [] []).
Definition stopFails : World Host := world disk (host true ["stop"] []).

(** The host with two numbers to draw for staging directories. *)
Definition fresh : World Host := world disk (host false [] [11%N; 12%N]).

(** The world a run ends in. *)
Definition after (o : Outcome Host unit) : World Host :=
  default fresh (finalWorld o).

Definition runMain (cfg : Config) (osArgs : list string) (w : World Host)
  : Outcome Host unit :=
  main systemctl bash glob random (λ _, Some cfg) 8 osArgs w.

Definition runInstallStage (cfg : Config) (w : World Host) : Outcome Host unit :=
  doInstall systemctl bash 8 cfg w.

Definition runUninstallStage (cfg : Config) (w : World Host) : Outcome Host unit :=
  doUninstall systemctl bash cfg w.

(** A service manager that answers yes to everything: the unit never
    stops. *)
Definition stubborn (args : list string) (h : Host) : bool * Host := (true, h).

(** The host with a second temp directory, [/var/tmp], and a session that
    has [TMPDIR] set to it. *)
Definition varTmpDisk : FS.t :=
  <[ ["var"; "tmp"] := FS.Dir ]> (<[ ["var"] := FS.Dir ]> disk).

Definition elsewhere : World Host :=
  {| fs := varTmpDisk; env := host false [] [11%N]; cwd := ["home"; "dev"];
     TMPDIR := "/var/tmp"; trace := [] |}.

(** The demo with a build script, in a project that has the script. *)
Definition scriptedDisk : FS.t :=
  <[ ["home"; "dev"; ".qp"; "build.sh"] := FS.File "make" ]> disk.

Definition scriptedDemo : Config :=
  {| AppName := "demo"; BuildFiles := ["data.txt"]; InstallFiles := demoFiles;
     BuildScript := "build.sh"; InstallScript := ""; UninstallScript := "";
     Systemd := false; SystemdRunAsUser := false; Exec := "" |}.

(** The demo service with an entry that the project does not have. *)
Definition missingEntry : Config :=
  config "demo" [{| File := "nothing"; From := "cwd" |}] true.

(** The host with a regular file in the place of the install root. *)
Definition blockedDisk : FS.t := <[ ["opt"; "demo"] := FS.File "" ]> disk.

(** The host with a file next to the project. *)
Definition notesDisk : FS.t := <[ ["home"; "notes"] := FS.File "n" ]> disk.

(** The demo service with a build pattern that is an absolute path. *)
Definition absoluteDemo : Config :=
  {| AppName := "demo"; BuildFiles := ["/home/dev/data.txt"]; InstallFiles := demoFiles;
     BuildScript := ""; InstallScript := ""; UninstallScript := "";
     Systemd := true; SystemdRunAsUser := false; Exec := "/opt/demo/bin/demo" |}.

End Scenario.

(** The events of a unit that was written, enabled and started. *)
Definition startEvents (cfg : Config) : list Event :=
  let unit_ := UnitFromConfig cfg in
  [ EvWriteFile (UnitPath unit_) (GenerateFile unit_);
    EvExec ["systemctl"; "daemon-reload"] "" true;
    EvExec ["systemctl"; "enable"; "--now"; UnitNameWildcard unit_] "" true;
    EvExec ["systemctl"; "start"; UnitNameWildcard unit_] "" true ].

Definition reportedInactive (target : string) : Event :=
  EvExec ["systemctl"; "is-active"; "--quiet"; target] "" false.

(** Path elements: without a slash; and proper names, neither empty nor a
    dot name. *)
Definition no_slash (c : string) : Prop :=
  "/"%char ∉ String.list_ascii_of_string c.

Definition okc (c : string) : Prop := c ≠ "" ∧ c ≠ ".".

Definition normal (c : string) : Prop := c ≠ "" ∧ c ≠ "." ∧ c ≠ "..".

(** A path that names something strictly below the directory it is taken
    from: cleaned, it is not ["."] and does not climb out with [".."]. *)
Definition strictlyInside (p : string) : Prop :=
  let cs := Path.clean_comps false (Path.split_slash p) in
  cs ≠ [] ∧ ".." ∉ cs.

(** The names in the temp directory that carry the staging prefix of an
    application, in the order [os.ReadDir] lists them. *)
Definition stagingDirs {Env} (appName : string) (w : World Env) : list string :=
  match FS.resolve (cwd w) (tempDir w) ≫= FS.read_dir (fs w) with
  | Some entries =>
      filter (λ name, Path.HasPrefix name (stagingPrefix appName) = true) entries
  | None => []
  end.

(** Every name in the file system is a path element. *)
Definition namesOk (fs : FS.t) : Prop :=
  map_Forall (λ k _, Forall FS.valid_name k) fs.

(** The fatal errors a computation can end with. *)
Definition fails {Env A} (Q : Failure → Prop) (m : M Env A) : Prop :=
  ∀ w f w', m w = Fatal f w' → Q f.

(** The entries loop is the only place where a missing staging directory
    is fatal, and only at an entry taken from the build. *)
Definition buildEntryOnly (cfg : Config) (f : Failure) : Prop :=
  ∀ file, f = FBuildDirUnknown file →
    ∃ entry, entry ∈ InstallFiles cfg ∧ From entry = "build" ∧ File entry = file.

(** Nothing is left at or below [path]. *)
Definition absent {Env} (w : World Env) (path : string) : Prop :=
  ∀ p k, FS.resolve (cwd w) path = Some p → FS.under p k = true → fs w !! k = None.

(** The order of a service-managed install, read off the trace it adds to
    [before]: the stop phase ends with the report that the unit is
    inactive, the file and script steps start with the install root, the
    unit is written, enabled and started after them, and only removals
    follow. *)
Definition installOrder {Env} (cfg : Config) (before : list Event)
    (o : Outcome Env unit) : Prop :=
  let target := UnitNameWildcard (UnitFromConfig cfg) in
  match o with
  | Ok _ w' =>
      ∃ t1 t2 t4,
        trace w' = before ++ t1 ++ t2 ++ startEvents cfg ++ t4
        ∧ Forall (stopPhase target) t1
        ∧ last t1 = Some (reportedInactive target)
        ∧ Forall replacePhase t2
        ∧ head t2 = Some (EvMkdirAll (installRoot cfg))
        ∧ Forall cleanupPhase t4
  | Fatal _ w' =>
      ∃ t, trace w' = before ++ t
           ∧ phased [stopPhase target; replacePhase; startPhase cfg; cleanupPhase] t
  | Diverge => True
  end.

(** What a computation adds to the trace, whenever it comes to an end. *)
Definition traces {Env A} (m : M Env A) (R : list Event → Prop) : Prop :=
  ∀ w, match m w with
       | Ok _ w' | Fatal _ w' => ∃ t, trace w' = trace w ++ t ∧ R t
       | Diverge => True
       end.

Definition emits {Env A} (P : Event → Prop) (m : M Env A) : Prop :=
  traces m (Forall P).

Definition targetsEv (target : string) (ev : Event) : Prop :=
  ∀ sub rest, systemctlCall ev = Some (sub, rest) →
    sub ∈ ["is-active"; "stop"; "disable"; "enable"; "start"] →
    last rest = Some target.

(** ** Vocabulary of the reinstall *)

(** The name [os.MkdirTemp] gives a staging directory. *)
Definition stagingName (appName : string) (r : N) : string :=
  stagingPrefix appName +:+ pretty r +:+ "".

(** A key in a staging directory of the application. *)
Definition staged (appName : string) (k : list string) : bool :=
  match k with
  | t :: name :: _ =>
      bool_decide (t = "tmp") && Path.HasPrefix name (stagingPrefix appName)
  | _ => false
  end.

(** Two places of which neither lies in the other. *)
Definition apart (a b : list string) : Prop :=
  FS.under a b = false ∧ FS.under b a = false.

(** The install root and the unit file, as keys of the file system. *)
Definition rootKey (cfg : Config) : list string := ["opt"; AppName cfg].

Definition unitKey (cfg : Config) : list string :=
  ["usr"; "lib"; "systemd"; "system"; UnitName (UnitFromConfig cfg) +:+ ".service"].

(** What a successful step writes, key by key: [os.MkdirAll] of [p], the
    copy of [s] to [d], and [os.WriteFile] at [p]. *)
Definition mkdirTable (p k : list string) : option FS.node :=
  if bool_decide (k ≠ [] ∧ k `prefix_of` p) then Some FS.Dir else None.

Definition copyTable (fs : FS.t) (s d k : list string) : option FS.node :=
  match FS.stat fs s with
  | Some (FS.File data) =>
      if bool_decide (k = d)
      then Some (FS.File (if bool_decide (s = d) then "" else data))
      else mkdirTable (FS.parent d) k
  | Some FS.Dir =>
      match FS.strip_prefix d k with
      | Some [] => Some FS.Dir
      | Some r => fs !! (s ++ r)
      | None => mkdirTable d k
      end
  | None => None
  end.

Definition writeTable (p : list string) (data : string) (k : list string)
    : option FS.node :=
  if bool_decide (k = p) then Some (FS.File data) else None.

(** [fs'] is [fs] with the table [T] written over it. *)
Definition override (T : list string → option FS.node) (fs fs' : FS.t) : Prop :=
  ∀ k, fs' !! k = match T k with Some v => Some v | None => fs !! k end.

(** The working tree is as it was in [fs0], and no staging directory but
    [S] holds anything. *)
Definition frame (appName : string) (cwd0 : list string) (fs0 : FS.t)
    (S : list string) (fs : FS.t) : Prop :=
  (∀ k, FS.under cwd0 k = true → fs !! k = fs0 !! k)
  ∧ (∀ k, staged appName k = true → FS.under S k = false → fs !! k = None).

(** Two runs side by side: outside the staging directories the second
    has what the first has, or still what the first left behind ([fs1]);
    and their staging directories [SA] and [SB] hold the same. *)
Definition sim (appName : string) (fs1 : FS.t) (SA SB : list string)
    (fsA fsB : FS.t) : Prop :=
  (∀ k, staged appName k = false → fsB !! k = fsA !! k ∨ fsB !! k = fs1 !! k)
  ∧ (∀ r, fsA !! (SA ++ r) = fsB !! (SB ++ r)).

(** The tables of one step in each of the two runs keep [frame] and
    [sim]. *)
Definition tablesOk (appName : string) (cwd0 : list string) (SA SB : list string)
    (TA TB : list string → option FS.node) : Prop :=
  (∀ k, staged appName k = false → TA k = TB k)
  ∧ (∀ r, TA (SA ++ r) = TB (SB ++ r))
  ∧ (∀ k, FS.under cwd0 k = true → TA k = None ∧ TB k = None)
  ∧ (∀ k, staged appName k = true → FS.under SA k = false → TA k = None)
  ∧ (∀ k, staged appName k = true → FS.under SB k = false → TB k = None)
  ∧ (∀ v, TA ["tmp"] = Some v → v = FS.Dir)
  ∧ (∀ v, TB ["tmp"] = Some v → v = FS.Dir).

Definition inv (appName : string) (cwd0 : list string) (fs0 fs1 : FS.t)
    (SA SB : list string) (fsA fsB : FS.t) : Prop :=
  frame appName cwd0 fs0 SA fsA ∧ frame appName cwd0 fs0 SB fsB
  ∧ sim appName fs1 SA SB fsA fsB
  ∧ fsA !! ["tmp"] = Some FS.Dir ∧ fsB !! ["tmp"] = Some FS.Dir
  ∧ is_Some (fsA !! SA) ∧ is_Some (fsB !! SB).

(** Two runs in the middle of an install, side by side. *)
Definition lockstep {Env : Type} (appName : string) (cwd0 : list string)
    (fs0 fs1 : FS.t) (SA SB : list string) (wA wB : World Env) : Prop :=
  cwd wA = cwd0 ∧ cwd wB = cwd0 ∧ TMPDIR wA = "" ∧ TMPDIR wB = ""
  ∧ inv appName cwd0 fs0 fs1 SA SB (fs wA) (fs wB).

(** Two worlds between installs. *)
Definition atRest {Env : Type} (appName : string) (cwd0 : list string)
    (fs0 fs1 : FS.t) (wA wB : World Env) : Prop :=
  cwd wA = cwd0 ∧ cwd wB = cwd0 ∧ TMPDIR wA = "" ∧ TMPDIR wB = ""
  ∧ (∀ k, FS.under cwd0 k = true → fs wA !! k = fs0 !! k)
  ∧ (∀ k, FS.under cwd0 k = true → fs wB !! k = fs0 !! k)
  ∧ (∀ k, staged appName k = true → fs wA !! k = None)
  ∧ (∀ k, staged appName k = true → fs wB !! k = None)
  ∧ (∀ k, staged appName k = false →
          fs wB !! k = fs wA !! k ∨ fs wB !! k = fs1 !! k).

(** A step that leaves the files, the working directory and the
    environment variables as they are. *)
Definition sameFiles {Env : Type} (w w' : World Env) : Prop :=
  fs w' = fs w ∧ cwd w' = cwd w ∧ TMPDIR w' = TMPDIR w.

(** The patterns of the build match inside the project only: what they
    match lies strictly below the working directory, by a relative path,
    and depends on nothing outside it. *)
Definition globInProject (glob : string → list string → FS.t → option (list string))
    (cwd0 : list string) (patterns : list string) : Prop :=
  ∀ pat, pat ∈ patterns →
    (∀ fs l, glob pat cwd0 fs = Some l →
       Forall (λ p, Path.is_rooted p = false ∧ strictlyInside p) l)
    ∧ (∀ fs fs', (∀ k, FS.under cwd0 k = true → fs !! k = fs' !! k) →
       glob pat cwd0 fs = glob pat cwd0 fs').

(** A name that is one path element, and that [os.MkdirTemp] completes
    at its end. *)
Definition plainName (appName : string) : Prop :=
  FS.valid_name appName ∧ "*"%char ∉ String.list_ascii_of_string appName.

(** The project lies apart from the places an install writes to. *)
Definition projectApart (cfg : Config) (cwd0 : list string) : Prop :=
  Forall FS.valid_name cwd0
  ∧ apart cwd0 ["tmp"] ∧ apart cwd0 (rootKey cfg)
  ∧ FS.under cwd0 (unitKey cfg) = false.

(** No staging directory of the application is around. *)
Definition noStaging (appName : string) (fs : FS.t) : Prop :=
  ∀ k, staged appName k = true → fs !! k = None.

#[global] Instance strictlyInside_dec (p : string) : Decision (strictlyInside p).
Proof. unfold strictlyInside. apply _. Defined.

(** ** Vocabulary of the footprints *)

(** Outside [zone] the files are as they are in [fs0]. *)
Definition unchangedOutside (zone : list string → bool) (fs0 fs : FS.t) : Prop :=
  ∀ k, zone k = false → fs !! k = fs0 !! k.

(** Outside [zone] the table [T] writes only what [fs0] has there
    already. *)
Definition quiet (zone : list string → bool) (fs0 : FS.t)
    (T : list string → option FS.node) : Prop :=
  ∀ k v, zone k = false → T k = Some v → fs0 !! k = Some v.

(** The places an install of [cfg] writes to: the staging directories of
    the application, the install root, and for a service the unit file. *)
Definition installZone (cfg : Config) (k : list string) : bool :=
  staged (AppName cfg) k || FS.under (rootKey cfg) k
  || (Systemd cfg && bool_decide (k = unitKey cfg)).

(** What the patterns of the build match lies strictly below the working
    directory, by a relative path. *)
Definition globInside (glob : string → list string → FS.t → option (list string))
    (cwd0 : list string) (patterns : list string) : Prop :=
  ∀ pat f l, pat ∈ patterns → glob pat cwd0 f = Some l →
    Forall (λ p, Path.is_rooted p = false ∧ strictlyInside p) l.

(** What is in the staging directory [S] is in the project, at the same
    relative path. *)
Definition mirror (cwd0 S : list string) (fs0 f : FS.t) : Prop :=
  ∀ rel v, rel ≠ [] → f !! (S ++ rel) = Some v → fs0 !! (cwd0 ++ rel) = Some v.

(** What [fs0] has at and below [src], [f] has at and below [dst]. *)
Definition copied (fs0 f : FS.t) (src dst : list string) : Prop :=
  ∀ rel v, fs0 !! (src ++ rel) = Some v → f !! (dst ++ rel) = Some v.

(** The copies of a stage, the directories made for them, and what is
    removed afterwards. *)
Definition copyWork (ev : Event) : Prop :=
  match ev with
  | EvMkdirAll _ | EvCopy _ _ => True
  | _ => False
  end.

Definition fileWork (ev : Event) : Prop :=
  replacePhase ev ∨ cleanupPhase ev.

(** The events of the build stage: the staging directory, copies and the
    directories made for them, and the build script. *)
Definition buildPhase (ev : Event) : Prop :=
  replacePhase ev ∨ ∃ path, ev = EvMkdirTemp path.

(** A computation that leaves every directory in its place. *)
Definition keepsDirs {Env A} (m : M Env A) : Prop :=
  ∀ w, match m w with
       | Ok _ w' | Fatal _ w' => ∀ k, fs w !! k = Some FS.Dir → fs w' !! k = Some FS.Dir
       | Diverge => True
       end.

(** The run of the build script, the last step of a build that has one. *)
Definition scriptRun (cfg : Config) (buildDir : string) : list Event :=
  if bool_decide (BuildScript cfg ≠ "")
  then [EvExec ["/bin/bash"; Path.Join [buildDir; Path.Base (BuildScript cfg)]] buildDir true]
  else [].

(** * Properties *)

(** ** Strings *)

Lemma string_app_assoc (a b c : string) : (a +:+ b) +:+ c = a +:+ (b +:+ c).
Proof. induction a as [|x a IH]; [done|]. exact (f_equal (String x) IH). Qed.

Lemma string_app_nil_r (a : string) : a +:+ "" = a.
Proof. induction a as [|x a IH]; [done|]. exact (f_equal (String x) IH). Qed.

(** ** The unit description *)

(** C5: the generated unit file has a [Description] line, [ExecStart] with
    the configured command, [WorkingDirectory] with the install root,
    [Restart=always], and a [User] line that is the instance placeholder
    [%i] for a run-as-user unit and [root] otherwise. *)
Theorem unit_file_lines (cfg : Config) :
  let text := GenerateFile (UnitFromConfig cfg) in
  has_line text ("Description=" +:+ GenerateDescription (UnitFromConfig cfg))
  ∧ has_line text ("ExecStart=" +:+ Exec cfg)
  ∧ has_line text ("WorkingDirectory=" +:+ installRoot cfg)
  ∧ has_line text "Restart=always"
  ∧ has_line text ("User=" +:+ if SystemdRunAsUser cfg then "%i" else "root").
Proof.
  set (u := UnitFromConfig cfg). cbv zeta.
  assert (Hu : GetUser u = if SystemdRunAsUser cfg then "%i" else "root") by done.
  unfold GenerateFile. cbv zeta. rewrite Hu.
  change (Path.Join [InstallPath; Name u]) with (installRoot cfg).
  change (ExecPath u) with (Exec cfg).
  generalize (GenerateDescription u) (installRoot cfg) (Exec cfg)
    (if SystemdRunAsUser cfg then "%i" else "root" : string).
  intros d r e usr. repeat split.
  - eexists (newline +:+ "[Unit]"), _. rewrite !string_app_assoc. reflexivity.
  - eexists (newline +:+ "[Unit]" +:+ newline +:+ "Description=" +:+ d +:+ newline
             +:+ "After=network.target" +:+ newline +:+ newline +:+ "[Service]"
             +:+ newline +:+ "Type=simple"), _.
    rewrite !string_app_assoc. reflexivity.
  - eexists (newline +:+ "[Unit]" +:+ newline +:+ "Description=" +:+ d +:+ newline
             +:+ "After=network.target" +:+ newline +:+ newline +:+ "[Service]"
             +:+ newline +:+ "Type=simple" +:+ newline +:+ "ExecStart=" +:+ e), _.
    rewrite !string_app_assoc. reflexivity.
  - eexists (newline +:+ "[Unit]" +:+ newline +:+ "Description=" +:+ d +:+ newline
             +:+ "After=network.target" +:+ newline +:+ newline +:+ "[Service]"
             +:+ newline +:+ "Type=simple" +:+ newline +:+ "ExecStart=" +:+ e
             +:+ newline +:+ "WorkingDirectory=" +:+ r), _.
    rewrite !string_app_assoc. reflexivity.
  - eexists (newline +:+ "[Unit]" +:+ newline +:+ "Description=" +:+ d +:+ newline
             +:+ "After=network.target" +:+ newline +:+ newline +:+ "[Service]"
             +:+ newline +:+ "Type=simple" +:+ newline +:+ "ExecStart=" +:+ e
             +:+ newline +:+ "WorkingDirectory=" +:+ r +:+ newline
             +:+ "Restart=always"), _.
    rewrite !string_app_assoc. reflexivity.
Qed.

(** ** Reasoning about traces *)

Section Traces.

Context {Env : Type}.
Variable systemctl : list string → Env → bool * Env.
Variable bash : string → string → FS.t → Env → bool * FS.t * Env.
Variable glob : string → list string → FS.t → option (list string).
Variable random : Env → N * Env.
Variable unmarshal : string → option Config.

Implicit Types (w : World Env) (P : Event → Prop).

Lemma traces_weaken {A} (m : M Env A) (R R' : list Event → Prop) :
  traces m R → (∀ t, R t → R' t) → traces m R'.
Proof.
  intros Hm HR w. specialize (Hm w).
  destruct (m w); try done; destruct Hm as (t & ? & ?); eauto.
Qed.

Lemma traces_bind {A B} (m : M Env A) (k : A → M Env B) (R1 R2 R : list Event → Prop) :
  traces m R1 → (∀ a, traces (k a) R2) →
  (∀ t1, R1 t1 → R t1) → (∀ t1 t2, R1 t1 → R2 t2 → R (t1 ++ t2)) →
  traces (bind m k) R.
Proof.
  intros Hm Hk Hl Happ w. unfold bind. specialize (Hm w).
  destruct (m w) as [a w1|f w1|]; [| |done].
  - destruct Hm as (t1 & E1 & H1). specialize (Hk a w1).
    destruct (k a w1) as [b w2|f w2|]; [| |done];
      destruct Hk as (t2 & E2 & H2); exists (t1 ++ t2);
      (split; [by rewrite E2, E1, (assoc_L (++))|by apply Happ]).
  - destruct Hm as (t1 & E1 & H1). eauto.
Qed.

Lemma emits_weaken {A} P Q (m : M Env A) :
  emits P m → (∀ ev, P ev → Q ev) → emits Q m.
Proof.
  intros Hm HPQ. eapply traces_weaken; [exact Hm|].
  intros t Ht. eapply Forall_impl; eauto.
Qed.

Lemma emits_ret {A} P (a : A) : emits P (ret (Env:=Env) a).
Proof. intros w. exists []. by rewrite (right_id_L [] (++)). Qed.

Lemma emits_fatal {A} P f : emits P (fatal (Env:=Env) (A:=A) f).
Proof. intros w. exists []. by rewrite (right_id_L [] (++)). Qed.

Lemma emits_bind {A B} P (m : M Env A) (k : A → M Env B) :
  emits P m → (∀ a, emits P (k a)) → emits P (bind m k).
Proof.
  intros Hm Hk. eapply traces_bind; [exact Hm|exact Hk|done|].
  intros t1 t2 ??. by apply Forall_app.
Qed.

Lemma emits_for_each {A} P (l : list A) (body : A → M Env unit) :
  (∀ x, emits P (body x)) → emits P (for_each l body).
Proof.
  intros Hb. induction l as [|x l IH]; cbn.
  - apply emits_ret.
  - apply emits_bind; [apply Hb|done].
Qed.

Lemma emits_pure {A} P (m : M Env A) :
  (∀ w, ∃ a, m w = Ok a w) → emits P m.
Proof.
  intros H w. destruct (H w) as [a ->]. exists [].
  by rewrite (right_id_L [] (++)).
Qed.

(** A call that adds one event, whatever it returns. *)
Lemma emits_one {A} P (m : M Env A) ev :
  P ev → (∀ w, ∃ a w', m w = Ok a w' ∧ trace w' = trace w ++ [ev]) → emits P m.
Proof.
  intros HP H w. destruct (H w) as (a & w' & -> & E).
  exists [ev]. split; [done|]. by apply Forall_singleton.
Qed.

Lemma emits_run_systemctl P args :
  (∀ ok, P (EvExec ("systemctl" :: args) "" ok)) → emits P (run_systemctl systemctl args).
Proof.
  intros HP w. unfold run_systemctl. destruct (systemctl args (env w)) as [ok e].
  exists [EvExec ("systemctl" :: args) "" ok]. split; [done|].
  by apply Forall_singleton.
Qed.

Lemma emits_run_bash P script dir :
  (∀ ok, P (EvExec ["/bin/bash"; script] dir ok)) → emits P (run_bash bash script dir).
Proof.
  intros HP w. unfold run_bash. destruct (bash script dir (fs w) (env w)) as [[ok f] e].
  exists [EvExec ["/bin/bash"; script] dir ok]. split; [done|].
  by apply Forall_singleton.
Qed.

Lemma emits_os_MkdirAll P path :
  P (EvMkdirAll path) → emits P (os_MkdirAll (Env:=Env) path).
Proof.
  intros HP w. unfold os_MkdirAll.
  destruct (FS.resolve (cwd w) path ≫= FS.mkdir_all (fs w));
    exists [EvMkdirAll path]; (split; [done|by apply Forall_singleton]).
Qed.

Lemma emits_cp_Copy P src dst :
  P (EvCopy src dst) → emits P (cp_Copy (Env:=Env) src dst).
Proof.
  intros HP w. unfold cp_Copy.
  destruct (FS.resolve (cwd w) src) as [s|], (FS.resolve (cwd w) dst) as [d|];
    try destruct (FS.copy (fs w) s d);
    exists [EvCopy src dst]; (split; [done|by apply Forall_singleton]).
Qed.

Lemma emits_os_WriteFile P path data :
  P (EvWriteFile path data) → emits P (os_WriteFile (Env:=Env) path data).
Proof.
  intros HP w. unfold os_WriteFile.
  destruct (FS.resolve (cwd w) path ≫= _);
    exists [EvWriteFile path data]; (split; [done|by apply Forall_singleton]).
Qed.

Lemma emits_os_Remove P path :
  P (EvRemove path) → emits P (os_Remove (Env:=Env) path).
Proof.
  intros HP w. unfold os_Remove.
  destruct (FS.resolve (cwd w) path);
    exists [EvRemove path]; (split; [done|by apply Forall_singleton]).
Qed.

Lemma emits_os_RemoveAll P path :
  P (EvRemoveAll path) → emits P (os_RemoveAll (Env:=Env) path).
Proof.
  intros HP w. unfold os_RemoveAll.
  destruct (FS.resolve (cwd w) path);
    exists [EvRemoveAll path]; (split; [done|by apply Forall_singleton]).
Qed.

Lemma emits_exists P path : emits P (exists_ (Env:=Env) path).
Proof. apply emits_pure. intros w. by eexists. Qed.

Lemma emits_os_TempDir P : emits P (os_TempDir (Env:=Env)).
Proof. apply emits_pure. intros w. by eexists. Qed.

Lemma emits_os_ReadDir P path : emits P (os_ReadDir (Env:=Env) path).
Proof. apply emits_pure. intros w. by eexists. Qed.

Lemma emits_os_ReadFile P path : emits P (os_ReadFile (Env:=Env) path).
Proof. apply emits_pure. intros w. by eexists. Qed.

Lemma emits_filepath_Glob P pattern : emits P (filepath_Glob (Env:=Env) glob pattern).
Proof. apply emits_pure. intros w. by eexists. Qed.

Lemma emits_waitStopped P fuel name :
  (∀ ok, P (EvExec ["systemctl"; "is-active"; "--quiet"; name] "" ok)) →
  emits P (waitStopped systemctl fuel name).
Proof.
  intros HP. induction fuel as [|n IH]; cbn.
  - by intros w.
  - apply emits_bind; [by apply emits_run_systemctl|].
    intros [|]; [exact IH|apply emits_ret].
Qed.

End Traces.

(** One step of a proof that a stage emits only events of a kind: split a
    bind, decide a test, or use the lemma of a call. *)
Ltac emits_step :=
  lazymatch goal with
  | |- emits _ (bind _ _) => apply emits_bind; [|intros ?]
  | |- emits _ (ret _) => apply emits_ret
  | |- emits _ (fatal _) => apply emits_fatal
  | |- emits _ (for_each _ _) => apply emits_for_each; intros ?
  | |- emits _ (run_systemctl _ _) => apply emits_run_systemctl; intros ?
  | |- emits _ (run_bash _ _ _) => apply emits_run_bash; intros ?
  | |- emits _ (os_MkdirAll _) => apply emits_os_MkdirAll
  | |- emits _ (cp_Copy _ _) => apply emits_cp_Copy
  | |- emits _ (os_WriteFile _ _) => apply emits_os_WriteFile
  | |- emits _ (os_Remove _) => apply emits_os_Remove
  | |- emits _ (os_RemoveAll _) => apply emits_os_RemoveAll
  | |- emits _ (exists_ _) => apply emits_exists
  | |- emits _ os_TempDir => apply emits_os_TempDir
  | |- emits _ (os_ReadDir _) => apply emits_os_ReadDir
  | |- emits _ (os_ReadFile _) => apply emits_os_ReadFile
  | |- emits _ (filepath_Glob _ _) => apply emits_filepath_Glob
  | |- emits _ (waitStopped _ _ _) => apply emits_waitStopped; intros ?
  | |- emits _ (if ?b then _ else _) => destruct b
  | |- emits _ (match ?x with _ => _ end) => destruct x
  | |- emits _ (let '(_, _) := ?x in _) => destruct x
  end.

(** ** The order of an install, and the unit it addresses *)

Section Sequencing.

Context {Env : Type}.
Variable systemctl : list string → Env → bool * Env.
Variable bash : string → string → FS.t → Env → bool * FS.t * Env.

Implicit Types (w : World Env) (P : Event → Prop).

Lemma emits_copyPreserveRelBase P src baseDir dstRoot :
  (∀ p, P (EvMkdirAll p)) → (∀ s d, P (EvCopy s d)) →
  emits P (copyPreserveRelBase (Env:=Env) src baseDir dstRoot).
Proof. intros ??. unfold copyPreserveRelBase. repeat emits_step; done. Qed.

Lemma emits_stopIfActive fuel cfg :
  emits (stopPhase (UnitNameWildcard (UnitFromConfig cfg)))
        (stopIfActive systemctl fuel cfg).
Proof. unfold stopIfActive. repeat emits_step; eexists; eauto. Qed.

Lemma emits_installEntry buildDir installDir entry :
  emits replacePhase (installEntry (Env:=Env) buildDir installDir entry).
Proof.
  unfold installEntry. repeat emits_step; try done.
  by apply emits_copyPreserveRelBase.
Qed.

Lemma emits_installScriptStep cfg installDir :
  emits replacePhase (installScriptStep bash cfg installDir).
Proof. unfold installScriptStep, runScript. repeat emits_step; done. Qed.

Lemma emits_startService cfg :
  emits (startPhase cfg) (startService systemctl cfg).
Proof.
  unfold startService, installSystemdUnit.
  repeat emits_step; first [by left | right; eexists; eauto].
Qed.

Lemma emits_removeBuildDirs cfg :
  emits cleanupPhase (removeBuildDirs (Env:=Env) cfg).
Proof. unfold removeBuildDirs. repeat emits_step; done. Qed.

Lemma emits_findTempBuildDir P appName :
  emits P (findTempBuildDir (Env:=Env) appName).
Proof. unfold findTempBuildDir. repeat emits_step. Qed.

Lemma bind_Ok {A B} (m : M Env A) (k : A → M Env B) w b w' :
  bind m k w = Ok b w' → ∃ a w1, m w = Ok a w1 ∧ k a w1 = Ok b w'.
Proof. unfold bind. destruct (m w) as [a w1| |]; [eauto|done..]. Qed.

Lemma emits_Ok {A} P (m : M Env A) w a w' :
  emits P m → m w = Ok a w' → ∃ t, trace w' = trace w ++ t ∧ Forall P t.
Proof. intros Hm E. specialize (Hm w). by rewrite E in Hm. Qed.

Lemma phased_nil phases : phased phases [].
Proof.
  induction phases as [|P phases IH]; [done|].
  exists [], []. by repeat split.
Qed.

Lemma phased_head P phases t1 t2 :
  Forall P t1 → phased (P :: phases) t2 → phased (P :: phases) (t1 ++ t2).
Proof.
  intros H1 (t2a & t2b & -> & H2 & H3).
  exists (t1 ++ t2a), t2b. rewrite (assoc_L (++)).
  split; [done|]. split; [by apply Forall_app|done].
Qed.

Lemma phased_skip P phases t : phased phases t → phased (P :: phases) t.
Proof. intros H. exists [], t. by repeat split. Qed.

Lemma traces_phase_same {A B} P phases (m : M Env A) (k : A → M Env B) :
  emits P m → (∀ a, traces (k a) (phased (P :: phases))) →
  traces (bind m k) (phased (P :: phases)).
Proof.
  intros Hm Hk. eapply traces_bind; [exact Hm|exact Hk|..].
  - intros t1 H1. exists t1, []. rewrite (right_id_L [] (++)).
    split; [done|]. split; [done|apply phased_nil].
  - intros t1 t2 H1 H2. by apply phased_head.
Qed.

Lemma traces_phase_next {A B} P phases (m : M Env A) (k : A → M Env B) :
  emits P m → (∀ a, traces (k a) (phased phases)) →
  traces (bind m k) (phased (P :: phases)).
Proof.
  intros Hm Hk. eapply traces_bind; [exact Hm|exact Hk|..].
  - intros t1 H1. exists t1, []. rewrite (right_id_L [] (++)).
    split; [done|]. split; [done|apply phased_nil].
  - intros t1 t2 H1 H2. by exists t1, t2.
Qed.

Lemma traces_phase_last {A} P (m : M Env A) : emits P m → traces m (phased [P]).
Proof.
  intros Hm. eapply traces_weaken; [exact Hm|].
  intros t Ht. exists t, []. by rewrite (right_id_L [] (++)).
Qed.

Lemma waitStopped_Ok fuel name w w' :
  waitStopped systemctl fuel name w = Ok tt w' →
  ∃ t, trace w' = trace w ++ t ∧ last t = Some (reportedInactive name).
Proof.
  revert w. induction fuel as [|n IH]; intros w; cbn; [done|].
  unfold bind, run_systemctl.
  destruct (systemctl _ (env w)) as [[|] e]; cbn.
  - intros (t & E & Hl)%IH. cbn in E.
    exists (EvExec ["systemctl"; "is-active"; "--quiet"; name] "" true :: t).
    split; [by rewrite E, <-(assoc_L (++))|].
    destruct t; [done|]. done.
  - intros [= <-]. by exists [reportedInactive name].
Qed.

Lemma stopIfActive_Ok fuel cfg w w' :
  Systemd cfg = true →
  stopIfActive systemctl fuel cfg w = Ok tt w' →
  ∃ t, trace w' = trace w ++ t
       ∧ last t = Some (reportedInactive (UnitNameWildcard (UnitFromConfig cfg))).
Proof.
  intros Hs. unfold stopIfActive. rewrite Hs.
  set (u := UnitNameWildcard _).
  unfold bind at 1. unfold run_systemctl at 1.
  destruct (systemctl _ (env w)) as [[|] e]; cbn.
  - unfold bind, run_systemctl. cbn.
    destruct (systemctl _ e) as [[|] e2]; cbn; [|done].
    intros (t & E & Hl)%waitStopped_Ok. cbn in E.
    exists (EvExec ["systemctl"; "is-active"; "--quiet"; u] "" true
            :: EvExec ["systemctl"; "stop"; u] "" true :: t).
    split; [by rewrite E, <-!(assoc_L (++))|].
    destruct t; [done|]. done.
  - intros [= <-]. by exists [reportedInactive u].
Qed.

Lemma startService_Ok cfg w w' :
  Systemd cfg = true →
  startService systemctl cfg w = Ok tt w' →
  trace w' = trace w ++ startEvents cfg.
Proof.
  intros Hs. unfold startService, installSystemdUnit. rewrite Hs.
  unfold bind, os_WriteFile, run_systemctl.
  destruct (FS.resolve (cwd w) _ ≫= _) as [fs'|]; cbn; [|done].
  destruct (systemctl ["daemon-reload"] _) as [[|] e1]; cbn; [|done].
  destruct (systemctl ("enable" :: _) _) as [[|] e2]; cbn; [|done].
  destruct (systemctl ("start" :: _) _) as [[|] e3]; cbn; [|done].
  intros [= <-]. cbn. by rewrite <-!(assoc_L (++)).
Qed.

Lemma doInstall_phases fuel cfg :
  traces (doInstall systemctl bash fuel cfg)
    (phased [stopPhase (UnitNameWildcard (UnitFromConfig cfg));
             replacePhase; startPhase cfg; cleanupPhase]).
Proof.
  unfold doInstall.
  apply traces_phase_next; [apply emits_stopIfActive|intros _].
  apply traces_phase_same; [by apply emits_os_MkdirAll|intros made].
  destruct made; cbn [negb].
  2:{ eapply traces_weaken; [apply (emits_fatal replacePhase)|].
      intros t Ht. exists t, []. rewrite (right_id_L [] (++)).
      split; [done|]. split; [done|apply phased_nil]. }
  apply traces_phase_same; [apply emits_findTempBuildDir|intros found].
  apply traces_phase_same;
    [apply emits_for_each; intros ?; apply emits_installEntry|intros _].
  apply traces_phase_next; [apply emits_installScriptStep|intros _].
  apply traces_phase_next; [apply emits_startService|intros _].
  apply traces_phase_last, emits_removeBuildDirs.
Qed.

(** C6: a service-managed install stops before it replaces and replaces
    before it starts.  The calls that ask for and order the stop come
    first, and the file and script steps begin only after the service
    manager has reported the unit inactive; the unit file is written and
    the unit enabled and started after every copy and after the install
    script; only the removal of staging directories follows. *)
Theorem install_stop_replace_start fuel (cfg : Config) (w : World Env) :
  Systemd cfg = true →
  installOrder cfg (trace w) (doInstall systemctl bash fuel cfg w).
Proof.
  intros Hs. unfold installOrder. set (target := UnitNameWildcard _).
  destruct (doInstall systemctl bash fuel cfg w) as [[] w'|f w'|] eqn:E; [| |done].
  2:{ pose proof (doInstall_phases fuel cfg w) as H. by rewrite E in H. }
  unfold doInstall in E.
  apply bind_Ok in E as ([] & w1 & E1 & E).
  apply bind_Ok in E as (made & w2 & E2 & E).
  destruct made; cbn [negb] in E; [|done].
  apply bind_Ok in E as (found & w3 & E3 & E).
  apply bind_Ok in E as ([] & w4 & E4 & E).
  apply bind_Ok in E as ([] & w5 & E5 & E).
  apply bind_Ok in E as ([] & w6 & E6 & E).
  destruct (emits_Ok _ _ _ _ _ (emits_stopIfActive fuel cfg) E1) as (t1 & T1 & F1).
  destruct (stopIfActive_Ok _ _ _ _ Hs E1) as (t1' & T1' & L1).
  assert (t1' = t1) as -> by (rewrite T1 in T1'; by apply (inj (app _)) in T1').
  assert (T2 : trace w2 = trace w1 ++ [EvMkdirAll (installRoot cfg)]).
  { revert E2. unfold os_MkdirAll.
    destruct (_ ≫= _); intros [= <-]; done. }
  destruct (emits_Ok replacePhase _ _ _ _ (emits_findTempBuildDir _ _) E3) as (t3 & T3 & F3).
  destruct (emits_Ok replacePhase _ _ _ _
              (emits_for_each _ _ _ (emits_installEntry _ _)) E4) as (t4 & T4 & F4).
  destruct (emits_Ok _ _ _ _ _ (emits_installScriptStep _ _) E5) as (t5 & T5 & F5).
  pose proof (startService_Ok _ _ _ Hs E6) as T6.
  destruct (emits_Ok _ _ _ _ _ (emits_removeBuildDirs _) E) as (t7 & T7 & F7).
  exists t1, (EvMkdirAll (installRoot cfg) :: t3 ++ t4 ++ t5), t7.
  split; [|repeat split; auto].
  - rewrite T7, T6, T5, T4, T3, T2, T1. cbn. by rewrite <-!(assoc_L (++)).
  - apply Forall_cons. split; [done|]. by rewrite !Forall_app.
Qed.

Lemma emits_doInstall P fuel cfg :
  (∀ ev, stopPhase (UnitNameWildcard (UnitFromConfig cfg)) ev → P ev) →
  (∀ ev, replacePhase ev → P ev) →
  (∀ ev, startPhase cfg ev → P ev) →
  (∀ ev, cleanupPhase ev → P ev) →
  emits P (doInstall systemctl bash fuel cfg).
Proof.
  intros H1 H2 H3 H4. eapply traces_weaken; [apply doInstall_phases|].
  intros t (t1 & ? & -> & F1 & t2 & ? & -> & F2 & t3 & ? & -> & F3 & t4 & ? & -> & F4 & ->).
  rewrite !Forall_app. repeat split; try done; eapply Forall_impl; eauto.
Qed.

Lemma targets_Forall target t : Forall (targetsEv target) t → targets target t.
Proof.
  intros H ev sub rest Hin. rewrite Forall_forall in H. by apply H.
Qed.

Lemma emits_targets {A} target (m : M Env A) :
  emits (targetsEv target) m → traces m (targets target).
Proof. intros H. eapply traces_weaken; [exact H|apply targets_Forall]. Qed.

Lemma stopPhase_targets target ev : stopPhase target ev → targetsEv target ev.
Proof. intros [ok [-> | ->]] sub rest [= <- <-] _; done. Qed.

Lemma replacePhase_targets target ev : replacePhase ev → targetsEv target ev.
Proof.
  destruct ev as [argv dir ok| | | | | |]; try done.
  destruct argv as [|cmd [|sub rest]]; try done.
  cbn. intros [= ->]. done.
Qed.

Lemma startPhase_targets cfg ev :
  startPhase cfg ev → targetsEv (UnitNameWildcard (UnitFromConfig cfg)) ev.
Proof.
  intros [-> | [ok [-> | [-> | ->]]]] sub rest; [done|..]; intros [= <- <-] Hin;
    [|done..].
  rewrite !elem_of_cons, elem_of_nil in Hin.
  by destruct Hin as [?|[?|[?|[?|[?|[]]]]]].
Qed.

Lemma cleanupPhase_targets target ev : cleanupPhase ev → targetsEv target ev.
Proof. by destruct ev. Qed.

(** C7: a run-as-user unit is named [appName@], and every status, stop,
    disable, enable and start call of install and uninstall addresses
    [appName@*], the family of its instances; otherwise the unit name and
    the addressed unit are both [appName]. *)
Theorem templated_unit_wildcard (cfg : Config) :
  let unit_ := UnitFromConfig cfg in
  UnitName unit_ = (if SystemdRunAsUser cfg then AppName cfg +:+ "@" else AppName cfg)
  ∧ UnitNameWildcard unit_
    = (if SystemdRunAsUser cfg then (AppName cfg +:+ "@") +:+ "*" else AppName cfg)
  ∧ (∀ fuel, traces (doInstall systemctl bash fuel cfg) (targets (UnitNameWildcard unit_)))
  ∧ traces (doUninstall systemctl bash cfg) (targets (UnitNameWildcard unit_)).
Proof.
  cbv zeta. split; [|split; [|split]].
  - unfold UnitName. cbn. by destruct (SystemdRunAsUser cfg).
  - unfold UnitNameWildcard, UnitName. cbn. by destruct (SystemdRunAsUser cfg).
  - intros fuel. apply emits_targets.
    apply emits_doInstall; eauto using stopPhase_targets, replacePhase_targets,
      startPhase_targets, cleanupPhase_targets.
  - apply emits_targets. unfold doUninstall, runScript.
    repeat emits_step; try done; intros sub rest [= <- <-] Hin; try done.
    rewrite !elem_of_cons, elem_of_nil in Hin.
    by destruct Hin as [?|[?|[?|[?|[?|[]]]]]].
Qed.

End Sequencing.

(** ** Which failures end a stage *)

Section Failures.

Context {Env : Type}.
Variable systemctl : list string → Env → bool * Env.
Variable bash : string → string → FS.t → Env → bool * FS.t * Env.
Variable glob : string → list string → FS.t → option (list string).
Variable random : Env → N * Env.
Variable unmarshal : string → option Config.

Implicit Types (w : World Env).

Lemma bind_Fatal {A B} (m : M Env A) (k : A → M Env B) w f w' :
  m w = Fatal f w' → bind m k w = Fatal f w'.
Proof. unfold bind. by intros ->. Qed.

Lemma bind_Ok_eq {A B} (m : M Env A) (k : A → M Env B) w a w1 :
  m w = Ok a w1 → bind m k w = k a w1.
Proof. unfold bind. by intros ->. Qed.


Lemma validateConfig_Ok (cfg : Config) w :
  AppName cfg ≠ "" → InstallFiles cfg ≠ [] → (Systemd cfg = true → Exec cfg ≠ "") →
  validateConfig cfg w = Ok tt w.
Proof.
  intros Hn Hf He. unfold validateConfig.
  rewrite bool_decide_false by done.
  rewrite bool_decide_false by (by destruct (InstallFiles cfg)).
  destruct (Systemd cfg); [|done]. cbn. by rewrite bool_decide_false by auto.
Qed.

(** A valid configuration hands the untouched world to the stage. *)
Lemma valid_config_runs_stage fuel prog args (cfg : Config) w :
  loadConfig unmarshal (configFlag args ".qp/config.json") w = Ok (Some cfg) w →
  AppName cfg ≠ "" → InstallFiles cfg ≠ [] → (Systemd cfg = true → Exec cfg ≠ "") →
  main systemctl bash glob random unmarshal fuel (prog :: "build" :: args) w
    = doBuild bash glob random cfg w
  ∧ main systemctl bash glob random unmarshal fuel (prog :: "install" :: args) w
    = bind (doBuild bash glob random cfg) (λ _, doInstall systemctl bash fuel cfg) w
  ∧ main systemctl bash glob random unmarshal fuel (prog :: "uninstall" :: args) w
    = doUninstall systemctl bash cfg w.
Proof.
  intros Hl Hn Hf He. unfold main.
  repeat split; (rewrite bool_decide_false by (intros (? & ? & ?); done));
    rewrite (bind_Ok_eq _ _ _ _ _ Hl);
    by rewrite (bind_Ok_eq _ _ _ _ _ (validateConfig_Ok cfg w Hn Hf He)).
Qed.

(** C4: the configuration is checked after it is loaded and before any
    stage: when the install files are missing, or the service is enabled
    without a command, [main] ends with a fatal error and exit status 1 in
    the very world it started in; nothing was run, copied or removed. *)
Theorem invalid_config_runs_nothing fuel prog action args (cfg : Config) w :
  action ∈ ["build"; "install"; "uninstall"] →
  loadConfig unmarshal (configFlag args ".qp/config.json") w = Ok (Some cfg) w →
  InstallFiles cfg = [] ∨ (Systemd cfg = true ∧ Exec cfg = "") →
  ∃ f, main systemctl bash glob random unmarshal fuel (prog :: action :: args) w
       = Fatal f w
       ∧ f ∈ [FAppNameRequired; FInstallFilesRequired; FExecRequired]
       ∧ exitStatus (main systemctl bash glob random unmarshal fuel
                          (prog :: action :: args) w) = Some 1.
Proof.
  intros Ha Hl Hbad.
  assert (∃ f, validateConfig cfg w = Fatal (A:=unit) f w
               ∧ f ∈ [FAppNameRequired; FInstallFilesRequired; FExecRequired])
    as (f & Hv & Hf).
  { unfold validateConfig.
    case_bool_decide; [eexists; split; [done|rewrite !elem_of_cons; auto]|].
    case_bool_decide; [eexists; split; [done|rewrite !elem_of_cons; auto]|].
    destruct Hbad as [Hnil | [Hs He]].
    - by rewrite Hnil in *.
    - rewrite Hs, bool_decide_true by done.
      eexists; split; [done|rewrite !elem_of_cons; auto]. }
  assert (main systemctl bash glob random unmarshal fuel (prog :: action :: args) w
          = Fatal f w) as Hm.
  { unfold main. rewrite bool_decide_false.
    - rewrite (bind_Ok_eq _ _ _ _ _ Hl). by apply bind_Fatal.
    - intros (? & ? & ?). rewrite !elem_of_cons, elem_of_nil in Ha.
      by destruct Ha as [?|[?|[?|[]]]]. }
  exists f. by rewrite Hm.
Qed.

Lemma installRoot_rooted (cfg : Config) :
  Path.is_rooted (Path.join_slash [InstallPath; AppName cfg]) = true.
Proof. reflexivity. Qed.

Lemma installRoot_nonempty (cfg : Config) : installRoot cfg ≠ "".
Proof.
  unfold installRoot, Path.Join. rewrite bool_decide_false by done.
  unfold Path.Clean, Path.render, Path.clean_path. cbn [Path.rooted].
  by rewrite installRoot_rooted.
Qed.

Lemma remove_all_absent (fs0 : FS.t) p k :
  FS.under p k = true → FS.remove_all fs0 p !! k = None.
Proof.
  intros Hu. unfold FS.remove_all. apply map_lookup_filter_None. right.
  intros x _. cbn. by rewrite Hu.
Qed.

Lemma os_RemoveAll_absent path w :
  path ≠ "" →
  ∃ w', os_RemoveAll path w = Ok tt w' ∧ absent w' path
        ∧ trace w' = trace w ++ [EvRemoveAll path].
Proof.
  intros Hne. unfold os_RemoveAll, FS.resolve. rewrite bool_decide_false by done.
  eexists. split; [done|]. split; [|done].
  intros p k. cbn. unfold FS.resolve. rewrite bool_decide_false by done.
  intros [= <-] Hu. by apply remove_all_absent.
Qed.

Lemma doUninstall_outcome (cfg : Config) (w : World Env) :
  match doUninstall systemctl bash cfg w with
  | Ok _ w' =>
      absent w' (installRoot cfg)
      ∧ last (trace w') = Some (EvRemoveAll (installRoot cfg))
  | Fatal f _ =>
      UninstallScript cfg ≠ ""
      ∧ (f = FCopyUninstallScript (UninstallScript cfg)
         ∨ f = FScript (Path.Join [installRoot cfg; Path.Base (UninstallScript cfg)]))
  | Diverge => False
  end.
Proof.
  unfold doUninstall. fold (installRoot cfg).
  set (teardown := if Systemd cfg then _ else _).
  assert (∀ w0, ∃ w1, teardown w0 = Ok tt w1) as Ht.
  { intros w0. subst teardown. destruct (Systemd cfg); [|by eexists].
    unfold bind, run_systemctl, os_Remove.
    repeat (destruct (systemctl _ _) as [? ?]; cbn).
    destruct (FS.resolve _ _); cbn; destruct (systemctl _ _); by eexists. }
  destruct (Ht w) as [w1 E1]. rewrite (bind_Ok_eq _ _ _ _ _ E1).
  assert (∀ w2, match os_RemoveAll (installRoot cfg) w2 with
                | Ok _ w' => absent w' (installRoot cfg)
                             ∧ last (trace w') = Some (EvRemoveAll (installRoot cfg))
                | _ => False
                end) as Hr.
  { intros w2.
    destruct (os_RemoveAll_absent (installRoot cfg) w2 (installRoot_nonempty cfg))
      as (w' & -> & ? & ->).
    split; [done|]. by rewrite last_snoc. }
  assert (∀ w2, match bind (runScript bash
                              (Path.Join [installRoot cfg; Path.Base (UninstallScript cfg)])
                              (installRoot cfg))
                           (λ _, os_RemoveAll (installRoot cfg)) w2 with
                | Ok _ w' => absent w' (installRoot cfg)
                             ∧ last (trace w') = Some (EvRemoveAll (installRoot cfg))
                | Fatal f _ =>
                    f = FScript (Path.Join [installRoot cfg; Path.Base (UninstallScript cfg)])
                | Diverge => False
                end) as Hs.
  { intros w2. unfold runScript, bind at 1 2, run_bash.
    destruct (bash _ _ (fs w2) (env w2)) as [[[|] f'] e]; cbn; [apply Hr|done]. }
  case_bool_decide as Hscript.
  - set (scriptPath := Path.Join _) in *.
    unfold bind at 1 2. cbn [exists_].
    destruct (negb _).
    + unfold bind at 1 2, cp_Copy.
      destruct (FS.resolve (cwd w1) (GetUninstallScript cfg)) as [s|],
               (FS.resolve (cwd w1) scriptPath) as [d|];
        try destruct (FS.copy (fs w1) s d); cbn [negb]; unfold fatal, ret; eauto.
      match goal with
      | |- context [runScript bash scriptPath (installRoot cfg) ?w2] =>
          specialize (Hs w2); unfold bind in Hs;
          destruct (runScript bash scriptPath (installRoot cfg) w2) as [[] ?|? ?|];
          eauto
      end.
    + unfold bind at 1, ret.
      match goal with
      | |- context [runScript bash scriptPath (installRoot cfg) ?w2] =>
          specialize (Hs w2); unfold bind in Hs;
          destruct (runScript bash scriptPath (installRoot cfg) w2) as [[] ?|? ?|];
          eauto
      end.
  - rewrite (bind_Ok_eq _ _ _ tt w1) by done. apply Hr.
Qed.


End Failures.

(** ** Paths *)

Section PathFacts.

Import Path.

Lemma split_slash_nonempty s : split_slash s ≠ [].
Proof. destruct s as [|c s]; cbn; [done|]. destruct (Ascii.eqb c "/"); [done|]. by destruct (split_slash s). Qed.

Lemma split_slash_no_slash s : Forall no_slash (split_slash s).
Proof.
  induction s as [|c s IH]; cbn.
  - apply Forall_singleton. unfold no_slash. cbn. apply not_elem_of_nil.
  - destruct (Ascii.eqb_spec c "/") as [->|Hc].
    + apply Forall_cons. split; [|done]. unfold no_slash. cbn. apply not_elem_of_nil.
    + destruct (split_slash s) as [|x xs] eqn:E; [by destruct (split_slash_nonempty s)|].
      apply Forall_cons in IH as [Hx Hxs]. apply Forall_cons. split; [|done].
      unfold no_slash in *. cbn. rewrite not_elem_of_cons. done.
Qed.

Lemma split_slash_app (a b : string) :
  split_slash (a +:+ "/" +:+ b) = split_slash a ++ split_slash b.
Proof.
  induction a as [|c a IH].
  - done.
  - change (String c a +:+ "/" +:+ b) with (String c (a +:+ "/" +:+ b)).
    cbn. rewrite IH. destruct (Ascii.eqb c "/"); [done|].
    destruct (split_slash a) eqn:E; [by destruct (split_slash_nonempty a)|]. done.
Qed.

Lemma split_slash_single c : no_slash c → split_slash c = [c].
Proof.
  unfold no_slash. induction c as [|a c IH]; [done|]. cbn.
  rewrite not_elem_of_cons. intros [Ha Hc]. rewrite (IH Hc).
  destruct (Ascii.eqb_spec a "/"); [done|]. done.
Qed.

Lemma split_join_slash l : l ≠ [] → Forall no_slash l → split_slash (join_slash l) = l.
Proof.
  induction l as [|x l IH]; [done|]. intros _ [Hx Hl]%Forall_cons.
  destruct l as [|y l].
  - cbn. by apply split_slash_single.
  - change (join_slash (x :: y :: l)) with (x +:+ "/" +:+ join_slash (y :: l)).
    rewrite split_slash_app, IH by done. by rewrite split_slash_single.
Qed.

Lemma clean_push_normal r S c : normal c → clean_push r S c = c :: S.
Proof.
  intros (? & ? & ?). unfold clean_push.
  rewrite bool_decide_false by (intros [?|?]; done).
  by rewrite bool_decide_false.
Qed.

Lemma clean_fold_normal r S l :
  Forall normal l → fold_left (clean_push r) l S = rev l ++ S.
Proof.
  revert S. induction l as [|c l IH]; intros S; [done|].
  intros [Hc Hl]%Forall_cons. cbn. rewrite clean_push_normal by done.
  rewrite IH by done. by rewrite <-(assoc_L (++)).
Qed.

Lemma clean_push_okc r S c : Forall okc S → Forall okc (clean_push r S c).
Proof.
  intros HS. unfold clean_push. case_bool_decide as H1; [done|].
  case_bool_decide as H2.
  - destruct S as [|top rest].
    + destruct r; [done|]. by apply Forall_singleton.
    + case_bool_decide.
      * apply Forall_cons. split; [done|done].
      * by apply Forall_cons in HS as [_ ?].
  - apply Forall_cons. split; [|done]. split; intros ->; apply H1; auto.
Qed.

Lemma clean_fold_okc r S l :
  Forall okc S → Forall okc (fold_left (clean_push r) l S).
Proof.
  revert S. induction l as [|c l IH]; intros S HS; [done|].
  cbn. apply IH. by apply clean_push_okc.
Qed.

Lemma clean_push_rooted_normal S c :
  Forall normal S → Forall normal (clean_push true S c).
Proof.
  intros HS. unfold clean_push. case_bool_decide as H1; [done|].
  case_bool_decide as H2.
  - destruct S as [|top rest]; [done|].
    apply Forall_cons in HS as [(? & ? & ?) ?]. by rewrite bool_decide_false.
  - apply Forall_cons. split; [|done]. repeat split; intros ->; auto.
Qed.

Lemma clean_fold_rooted_normal S l :
  Forall normal S → Forall normal (fold_left (clean_push true) l S).
Proof.
  revert S. induction l as [|c l IH]; intros S HS; [done|].
  cbn. apply IH. by apply clean_push_rooted_normal.
Qed.

Lemma no_slash_dotdot : no_slash "..".
Proof. unfold no_slash. cbn. rewrite !not_elem_of_cons. repeat split; try done. apply not_elem_of_nil. Qed.

Lemma clean_push_no_slash r S c :
  Forall no_slash S → no_slash c → Forall no_slash (clean_push r S c).
Proof.
  intros HS Hc. unfold clean_push. repeat case_bool_decide; try done.
  - destruct S as [|top rest].
    + destruct r; [done|]. apply Forall_singleton, no_slash_dotdot.
    + case_bool_decide.
      * apply Forall_cons. split; [apply no_slash_dotdot|done].
      * by apply Forall_cons in HS as [_ ?].
  - by apply Forall_cons.
Qed.

Lemma clean_fold_no_slash r S l :
  Forall no_slash S → Forall no_slash l → Forall no_slash (fold_left (clean_push r) l S).
Proof.
  revert S. induction l as [|c l IH]; intros S HS Hl; [done|].
  apply Forall_cons in Hl as [? ?]. cbn. apply IH; [|done].
  by apply clean_push_no_slash.
Qed.

(** Cleaning what was cleaned: the elements of a clean relative path act
    on any stack as the path itself did. *)
Lemma clean_fold_reclean r S ys :
  fold_left (clean_push r) (rev (fold_left (clean_push false) ys [])) S
  = fold_left (clean_push r) ys S.
Proof.
  induction ys as [|c ys IH] using rev_ind; [done|].
  rewrite !fold_left_app. cbn [fold_left]. rewrite <-IH.
  pose proof (clean_fold_okc false [] ys (Forall_nil_2 _)) as Hok.
  set (T := fold_left (clean_push false) ys []) in *.
  unfold clean_push at 2. case_bool_decide as H1.
  { unfold clean_push. by rewrite bool_decide_true. }
  case_bool_decide as H2.
  - subst c. destruct T as [|top rest] eqn:ET.
    + done.
    + case_bool_decide as H3.
      * cbn [rev]. rewrite fold_left_app. done.
      * cbn [rev]. rewrite fold_left_app. cbn [fold_left].
        apply Forall_cons in Hok as [[? ?] _].
        rewrite (clean_push_normal r _ top) by done.
        unfold clean_push. rewrite bool_decide_false by (intros [?|?]; done).
        rewrite bool_decide_true by done. by rewrite bool_decide_false.
  - cbn [rev]. rewrite fold_left_app. done.
Qed.

Lemma Join2 a b : a ≠ "" → Join [a; b] = Clean (a +:+ "/" +:+ b).
Proof. intros Ha. unfold Join. by rewrite bool_decide_false. Qed.

Lemma is_rooted_app a x : a ≠ "" → is_rooted (a +:+ x) = is_rooted a.
Proof. by destruct a. Qed.

Lemma clean_path_app a b :
  a ≠ "" →
  clean_path (a +:+ "/" +:+ b)
  = CPath (is_rooted a)
      (rev (fold_left (clean_push (is_rooted a)) (split_slash b)
              (fold_left (clean_push (is_rooted a)) (split_slash a) []))).
Proof.
  intros Ha. unfold clean_path, clean_comps.
  by rewrite is_rooted_app, split_slash_app, fold_left_app.
Qed.

Lemma okc_normal c : okc c → c ≠ ".." → normal c.
Proof. intros [??] ?. by repeat split. Qed.

Lemma join_slash_cons c l :
  l ≠ [] → join_slash (c :: l) = c +:+ "/" +:+ join_slash l.
Proof. by destruct l. Qed.

Lemma is_rooted_join_slash cs :
  Forall okc cs → Forall no_slash cs → is_rooted (join_slash cs) = false.
Proof.
  destruct cs as [|c cs]; [done|].
  intros [[Hc _] _]%Forall_cons [Hs _]%Forall_cons.
  destruct c as [|a c]; [done|].
  assert (is_rooted (join_slash (String a c :: cs)) = Ascii.eqb a "/") as ->.
  { by destruct cs. }
  destruct (Ascii.eqb_spec a "/") as [->|]; [|done].
  destruct Hs. cbn. apply elem_of_cons. by left.
Qed.

Lemma clean_path_render s : clean_path (render (clean_path s)) = clean_path s.
Proof.
  unfold clean_path at 2 3. unfold clean_comps.
  set (r := is_rooted s). set (T := fold_left (clean_push r) (split_slash s) []).
  assert (Forall no_slash T) as Hns.
  { apply clean_fold_no_slash; [done|apply split_slash_no_slash]. }
  assert (Forall okc T) as Hok by (by apply clean_fold_okc).
  unfold render. cbn [rooted comps]. destruct r eqn:Er.
  - assert (Forall normal T) as Hn by (by apply clean_fold_rooted_normal).
    unfold clean_path, clean_comps.
    change (is_rooted ("/" +:+ join_slash (rev T))) with true.
    change (split_slash ("/" +:+ join_slash (rev T)))
      with ("" :: split_slash (join_slash (rev T))).
    cbn [fold_left]. change (clean_push true [] "") with (@nil string).
    destruct (decide (T = [])) as [->|HT]; [done|].
    rewrite split_join_slash.
    + rewrite clean_fold_normal by (by apply Forall_rev).
      by rewrite rev_involutive, (right_id_L [] (++)).
    + intros E. apply HT. by rewrite <-(rev_involutive T), E.
    + by apply Forall_rev.
  - destruct (rev T) as [|c cs] eqn:E.
    + done.
    + rewrite <-E. unfold clean_path, clean_comps.
      rewrite is_rooted_join_slash by (by apply Forall_rev).
      rewrite split_join_slash; [|by rewrite E|by apply Forall_rev].
      subst T. by rewrite clean_fold_reclean.
Qed.

Lemma Clean_idemp s : Clean (Clean s) = Clean s.
Proof. unfold Clean. by rewrite clean_path_render. Qed.

(** The elements of a clean relative path, as [split_slash] sees them in
    the rendered path. *)
Lemma split_render_relative s :
  is_rooted s = false →
  ∀ r S, fold_left (clean_push r) (split_slash (Clean s)) S
         = fold_left (clean_push r) (split_slash s) S.
Proof.
  intros Hr r S. unfold Clean, clean_path, clean_comps. rewrite Hr.
  set (T := fold_left (clean_push false) (split_slash s) []).
  assert (Forall no_slash T) as Hns.
  { apply clean_fold_no_slash; [done|apply split_slash_no_slash]. }
  unfold render. cbn [rooted comps].
  destruct (rev T) as [|c cs] eqn:E.
  - rewrite <-(clean_fold_reclean r S (split_slash s)). fold T. by rewrite E.
  - rewrite <-E. rewrite split_join_slash; [|by rewrite E|by apply Forall_rev].
    subst T. apply clean_fold_reclean.
Qed.

Lemma Join_Clean_relative root p :
  root ≠ "" → is_rooted p = false →
  Join [root; Clean p] = Join [root; p].
Proof.
  intros Hroot Hp. rewrite !Join2 by done. unfold Clean.
  rewrite !clean_path_app by done. by rewrite (split_render_relative p Hp).
Qed.

Lemma clean_path_relative p :
  is_rooted p = false → clean_path p = CPath false (clean_comps false (split_slash p)).
Proof. intros Hr. unfold clean_path. by rewrite Hr. Qed.

Lemma Rel_dot_relative p :
  is_rooted p = false → Clean p ≠ "." → Rel "." p = Some (Clean p).
Proof.
  intros Hr Hc. unfold Rel.
  change (clean_path ".") with (CPath false []).
  change (render (CPath false [])) with ".".
  fold (Clean p). rewrite bool_decide_false by done.
  revert Hc. unfold Clean. rewrite (clean_path_relative p Hr).
  cbn [rooted]. rewrite bool_decide_true by done.
  unfold elements, render. cbn [rooted comps rel_elems fmap option_fmap option_map].
  by destruct (clean_comps false (split_slash p)).
Qed.

Lemma relDest_cwd p root :
  root ≠ "" → is_rooted p = false → Clean p ≠ "." →
  relDest p "." root = Some (Join [root; p]).
Proof.
  intros Hroot Hr Hc. unfold relDest. rewrite Rel_dot_relative by done.
  rewrite bool_decide_false by done. by rewrite Join_Clean_relative.
Qed.

Lemma rel_elems_prefix l cs : rel_elems l (l ++ cs) = Some cs.
Proof.
  induction l as [|x l IH]; [done|]. cbn. by rewrite bool_decide_true.
Qed.

Lemma join_slash_not_dot cs :
  cs ≠ [] → Forall normal cs → join_slash cs ≠ ".".
Proof.
  destruct cs as [|c cs]; [done|]. intros _ [(Hc1 & Hc2 & _) Hcs]%Forall_cons.
  destruct cs as [|d cs]; [done|].
  rewrite join_slash_cons by done.
  destruct c as [|a c]; [done|].
  destruct c as [|a' c]; [|by destruct c].
  change (String a "" +:+ "/" +:+ join_slash (d :: cs))
    with (String a (String "/" (join_slash (d :: cs)))).
  done.
Qed.

Lemma strictlyInside_stack p :
  strictlyInside p →
  let T := fold_left (clean_push false) (split_slash p) [] in
  T ≠ [] ∧ Forall normal T ∧ Forall no_slash T.
Proof.
  intros [Hne Hdd]. cbv zeta. unfold clean_comps in *.
  set (T := fold_left _ _ _) in *.
  split; [intros E; by rewrite E in Hne|]. split.
  - pose proof (clean_fold_okc false [] (split_slash p) (Forall_nil_2 _)) as Hok.
    fold T in Hok. rewrite Forall_forall in Hok |- *.
    intros c Hc. apply okc_normal; [by apply Hok|].
    intros ->. apply Hdd. apply list_elem_of_In, (proj1 (in_rev T "..")).
    by apply list_elem_of_In.
  - apply clean_fold_no_slash; [done|apply split_slash_no_slash].
Qed.

Lemma clean_path_inside b p :
  b ≠ "" → strictlyInside p →
  clean_path (b +:+ "/" +:+ p)
  = CPath (is_rooted b)
      (comps (clean_path b) ++ clean_comps false (split_slash p)).
Proof.
  intros Hb Hp. destruct (strictlyInside_stack p Hp) as (HT & Hn & Hs).
  rewrite clean_path_app by done. f_equal.
  rewrite <-(clean_fold_reclean _ _ (split_slash p)).
  rewrite clean_fold_normal by (by apply Forall_rev).
  rewrite rev_involutive, rev_app_distr. done.
Qed.

Lemma Rel_inside b p :
  b ≠ "" → strictlyInside p →
  Rel b (Join [b; p]) = Some (join_slash (clean_comps false (split_slash p))).
Proof.
  intros Hb Hp. destruct (strictlyInside_stack p Hp) as (HT & Hn & Hs).
  assert (clean_comps false (split_slash p) ≠ []) as Hcs by apply Hp.
  assert (render (clean_path (b +:+ "/" +:+ p)) ≠ render (clean_path b)) as Hne.
  { intros E. apply (f_equal clean_path) in E. rewrite !clean_path_render in E.
    rewrite clean_path_inside in E by done. apply (f_equal comps) in E.
    cbn [comps] in E. apply Hcs. apply (inj (app (comps (clean_path b)))).
    by rewrite (right_id_L [] (++)). }
  unfold Rel. rewrite Join2 by done. unfold Clean.
  rewrite clean_path_render. rewrite bool_decide_false by done.
  rewrite clean_path_inside by done.
  cbn [rooted]. unfold clean_path at 1. cbn [rooted].
  rewrite bool_decide_true by done.
  unfold elements. cbn [rooted comps]. unfold clean_path at 1. cbn [rooted].
  destruct (is_rooted b).
  - by rewrite app_comm_cons, rel_elems_prefix.
  - by rewrite rel_elems_prefix.
Qed.

Lemma relDest_build b p root :
  root ≠ "" → b ≠ "" → strictlyInside p →
  relDest (Join [b; p]) b root = Some (Join [root; p]).
Proof.
  intros Hroot Hb Hp. destruct (strictlyInside_stack p Hp) as (HT & Hn & Hs).
  unfold relDest. rewrite Rel_inside by done.
  set (cs := clean_comps false (split_slash p)).
  assert (cs ≠ []) as Hcs by apply Hp.
  rewrite bool_decide_false.
  2:{ apply join_slash_not_dot; [done|]. by apply Forall_rev. }
  f_equal. rewrite !Join2 by done. unfold Clean. f_equal.
  rewrite !clean_path_app by done. f_equal. f_equal.
  rewrite split_join_slash; [|done|by apply Forall_rev].
  apply clean_fold_reclean.
Qed.

End PathFacts.

(** ** The file system *)

Section FSFacts.
Import FS.
Implicit Types (fs : FS.t) (k p d s : list string).

Lemma strip_prefix_Some d k r : strip_prefix d k = Some r ↔ k = d ++ r.
Proof.
  revert k. induction d as [|a d IH]; intros k; cbn.
  - split; [by intros [= ->]|by intros ->].
  - destruct k as [|b k]; [done|]. case_bool_decide as E.
    + subst b. rewrite IH. split; [by intros ->|by intros [= ->]].
    + split; [done|]. intros [= -> _]. done.
Qed.

Lemma strip_prefix_app d r : strip_prefix d (d ++ r) = Some r.
Proof. by apply strip_prefix_Some. Qed.

Lemma under_spec d k : under d k = true ↔ ∃ r, k = d ++ r.
Proof.
  unfold under. rewrite bool_decide_eq_true. split.
  - intros [r Hr]. exists r. by apply strip_prefix_Some.
  - intros [r ->]. rewrite strip_prefix_app. by eexists.
Qed.

Lemma under_app d r : under d (d ++ r) = true.
Proof. apply under_spec. by eexists. Qed.

Lemma under_refl d : under d d = true.
Proof. apply under_spec. exists []. by rewrite (right_id_L [] (++)). Qed.

Lemma mkdir_all_from_spec fs pre rest fs' :
  mkdir_all_from fs pre rest = Some fs' →
  (∀ r1, r1 ≠ [] → r1 `prefix_of` rest → fs' !! (pre ++ r1) = Some Dir)
  ∧ (∀ k, (∀ r1, r1 ≠ [] → r1 `prefix_of` rest → k ≠ pre ++ r1) → fs' !! k = fs !! k).
Proof.
  revert fs pre. induction rest as [|c rest IH]; intros fs pre; cbn.
  - intros [= <-]. split; [|done].
    intros r1 Hne [r2 Hr]. symmetry in Hr. by apply app_eq_nil in Hr as [-> _].
  - set (q := pre ++ [c]).
    assert (∀ fs0, fs0 !! q = Some Dir →
            mkdir_all_from fs0 q rest = Some fs' →
            (∀ k, k ≠ q → fs0 !! k = fs !! k) →
            (∀ r1, r1 ≠ [] → r1 `prefix_of` c :: rest → fs' !! (pre ++ r1) = Some Dir)
            ∧ (∀ k, (∀ r1, r1 ≠ [] → r1 `prefix_of` c :: rest → k ≠ pre ++ r1)
                    → fs' !! k = fs !! k)) as Hstep.
    { intros fs0 Hq Hm Hsame. destruct (IH _ _ Hm) as [Ha Hb]. split.
      - intros [|c' r1] Hne [r2 Hr]; [done|]. injection Hr as <- ->.
        destruct r1 as [|c2 r1].
        + rewrite Hb; [done|]. intros r1 Hr1 _ E. subst q.
          rewrite <-(assoc_L (++)) in E. apply (inj (app pre)) in E.
          injection E as E. by destruct r1.
        + subst q.
          replace (pre ++ c :: c2 :: r1) with ((pre ++ [c]) ++ c2 :: r1)
            by (by rewrite <-(assoc_L (++))).
          apply Ha; [done|]. by exists r2.
      - intros k Hk. rewrite Hb.
        + apply Hsame. intros ->. apply (Hk [c]); [done| |done].
          by exists rest.
        + intros r1 Hne [r2 ->] ->. apply (Hk (c :: r1)); [done| |].
          * by exists r2.
          * subst q. by rewrite <-(assoc_L (++)). }
    destruct (fs !! q) as [[data|]|] eqn:Eq; [done| |].
    + intros Hm. by apply (Hstep fs).
    + intros Hm. apply (Hstep (<[q:=Dir]> fs)); [apply lookup_insert_eq|done|].
      intros k Hk. by rewrite lookup_insert_ne.
Qed.

Lemma mkdir_all_from_no_file fs pre rest fs' :
  mkdir_all_from fs pre rest = Some fs' →
  ∀ r1 data, r1 ≠ [] → r1 `prefix_of` rest → fs !! (pre ++ r1) ≠ Some (File data).
Proof.
  revert fs pre. induction rest as [|c rest IH]; intros fs pre; cbn.
  - intros _ r1 data Hne [r2 Hr]. symmetry in Hr. by apply app_eq_nil in Hr as [-> _].
  - intros Hm [|c' r1] data Hne [r2 Hr]; [done|]. injection Hr as <- ->.
    destruct r1 as [|c2 r1].
    + by destruct (fs !! (pre ++ [c])) as [[?|]|].
    + replace (pre ++ c :: c2 :: r1) with ((pre ++ [c]) ++ c2 :: r1)
        by (by rewrite <-(assoc_L (++))).
      assert (pre ++ [c] ≠ (pre ++ [c]) ++ c2 :: r1) as Hneq.
      { intros E. rewrite <-(right_id_L [] (++) (pre ++ [c])) in E at 1.
        by apply (inj (app _)) in E. }
      destruct (fs !! (pre ++ [c])) as [[?|]|] eqn:Eq; [done| |].
      * eapply IH; [exact Hm|done|by exists r2].
      * intros E. eapply (IH _ _ Hm (c2 :: r1) data); [done|by exists r2|].
        by rewrite lookup_insert_ne.
Qed.

Lemma mkdir_all_lookup fs p fs' k :
  mkdir_all fs p = Some fs' →
  fs' !! k = if bool_decide (k ≠ [] ∧ k `prefix_of` p) then Some Dir else fs !! k.
Proof.
  intros Hm. destruct (mkdir_all_from_spec _ _ _ _ Hm) as [Ha Hb].
  case_bool_decide as Hk.
  - destruct Hk. by apply (Ha k).
  - apply Hb. intros r1 ?? ->. by apply Hk.
Qed.

Lemma mkdir_all_preserves fs p fs' k v :
  mkdir_all fs p = Some fs' → fs !! k = Some v → fs' !! k = Some v.
Proof.
  intros Hm Hk. rewrite (mkdir_all_lookup _ _ _ _ Hm). case_bool_decide as Hp; [|done].
  destruct Hp as [Hne Hp]. destruct v as [data|]; [|done].
  by destruct (mkdir_all_from_no_file _ _ _ _ Hm k data).
Qed.

Lemma remove_all_lookup fs p k :
  remove_all fs p !! k = if under p k then None else fs !! k.
Proof.
  unfold remove_all. destruct (under p k) eqn:E.
  - apply map_lookup_filter_None. right. intros x _. cbn. by rewrite E.
  - destruct (fs !! k) as [v|] eqn:Ek.
    + apply map_lookup_filter_Some. split; [done|]. done.
    + apply map_lookup_filter_None. by left.
Qed.

(** What a copy of a regular file leaves at the destination. *)
Lemma copy_file_lookup fs s d data fs' :
  stat fs s = Some (File data) → copy fs s d = Some fs' →
  ∃ fs1, mkdir_all fs (parent d) = Some fs1
         ∧ d ≠ []
         ∧ fs' = <[d := File (if bool_decide (s = d) then "" else data)]> fs1.
Proof.
  intros Hs. unfold copy. rewrite Hs.
  destruct (mkdir_all fs (parent d)) as [fs1|]; [|done].
  destruct d as [|c d]; [done|]. intros H. exists fs1. split; [done|]. split; [done|].
  by destruct (stat fs1 (c :: d)) as [[?|]|]; simplify_eq.
Qed.

Lemma subtree_lookup fs s r v :
  (r, v) ∈ subtree fs s ↔ fs !! (s ++ r) = Some v.
Proof.
  unfold subtree. rewrite list_elem_of_omap. split.
  - intros ([k v'] & Hin & Hf). apply elem_of_map_to_list in Hin. cbn in Hf.
    destruct (strip_prefix s k) as [r'|] eqn:E; [|done]. injection Hf as -> ->.
    apply strip_prefix_Some in E as ->. done.
  - intros H. exists (s ++ r, v). split; [by apply elem_of_map_to_list|].
    cbn. by rewrite strip_prefix_app.
Qed.

Lemma reroot_lookup fs s d k v :
  (k, v) ∈ reroot d (subtree fs s) ↔ ∃ r, k = d ++ r ∧ fs !! (s ++ r) = Some v.
Proof.
  unfold reroot. rewrite list_elem_of_fmap. split.
  - intros ([r v'] & [= -> ->] & Hin). exists r. split; [done|]. by apply subtree_lookup.
  - intros (r & -> & H). exists (r, v). split; [done|]. by apply subtree_lookup.
Qed.

Lemma NoDup_omap_inj {A B} (f : A → option B) (l : list A) :
  (∀ x y z, x ∈ l → y ∈ l → f x = Some z → f y = Some z → x = y) →
  NoDup l → NoDup (omap f l).
Proof.
  induction l as [|x l IH]; intros Hinj Hnd; [constructor|].
  apply NoDup_cons in Hnd as [Hx Hnd]. cbn.
  assert (NoDup (omap f l)) as Hl.
  { apply IH; [|done]. intros ??? ??. apply Hinj; apply elem_of_cons; by right. }
  destruct (f x) as [y|] eqn:E; [|done].
  apply NoDup_cons. split; [|done].
  intros (x' & Hx' & E')%list_elem_of_omap.
  apply Hx. rewrite (Hinj x x' y); [done| | |done|done]; apply elem_of_cons; auto.
Qed.

Lemma reroot_NoDup fs s d : NoDup (reroot d (subtree fs s)).*1.
Proof.
  unfold reroot. rewrite <-list_fmap_compose.
  apply NoDup_fmap_2_strong.
  - intros [r1 v1] [r2 v2] H1%subtree_lookup H2%subtree_lookup E. cbn in E.
    apply (inj (app d)) in E as ->. rewrite H1 in H2. by injection H2 as ->.
  - unfold subtree. apply NoDup_omap_inj; [|apply NoDup_map_to_list].
    intros [k1 v1] [k2 v2] [r v] H1 H2 E1 E2. cbn in E1, E2.
    destruct (strip_prefix s k1) as [r1|] eqn:S1; [|done].
    destruct (strip_prefix s k2) as [r2|] eqn:S2; [|done].
    injection E1 as -> ->. injection E2 as -> ->.
    apply strip_prefix_Some in S1 as ->. by apply strip_prefix_Some in S2 as ->.
Qed.

Lemma list_to_map_reroot fs s d k :
  (list_to_map (reroot d (subtree fs s)) : FS.t) !! k
  = match strip_prefix d k with
    | Some r => fs !! (s ++ r)
    | None => None
    end.
Proof.
  apply option_eq. intros v.
  rewrite <-elem_of_list_to_map by apply reroot_NoDup.
  rewrite reroot_lookup. split.
  - intros (r & -> & H). by rewrite strip_prefix_app.
  - destruct (strip_prefix d k) as [r|] eqn:E; [|done].
    apply strip_prefix_Some in E as ->. eauto.
Qed.

(** What a copy of a directory leaves: the tree below the source, rooted
    at the destination, over what was there. *)
Lemma copy_dir_lookup fs s d fs' k :
  stat fs s = Some Dir → copy fs s d = Some fs' →
  ∃ fs1, mkdir_all fs d = Some fs1
    ∧ fs' !! k = match strip_prefix d k with
                 | Some r => match fs !! (s ++ r) with
                             | Some v => Some v
                             | None => fs1 !! k
                             end
                 | None => fs1 !! k
                 end.
Proof.
  intros Hs. unfold copy. rewrite Hs.
  destruct (under s d || under d s); [done|].
  destruct (mkdir_all fs d) as [fs1|]; [|done].
  case_bool_decide; [done|]. intros [= <-]. exists fs1. split; [done|].
  rewrite lookup_union, list_to_map_reroot.
  destruct (strip_prefix d k) as [r|]; [|by rewrite (left_id_L None _)].
  destruct (fs !! (s ++ r)) as [v|]; [|by rewrite (left_id_L None _)].
  by destruct (fs1 !! k).
Qed.

End FSFacts.

(** ** Where install puts a file *)

Section Placement.

Context {Env : Type}.
Implicit Types (w : World Env).

Lemma Rel_dot_rooted p : Path.is_rooted p = true → Path.Rel "." p = None.
Proof.
  intros Hr. unfold Path.Rel.
  change (Path.clean_path ".") with (Path.CPath false []).
  assert (Path.clean_path p = Path.CPath true (Path.clean_comps true (Path.split_slash p)))
    as -> by (unfold Path.clean_path; by rewrite Hr).
  unfold Path.render. cbn [Path.rooted Path.comps].
  rewrite bool_decide_false by done. by rewrite bool_decide_false.
Qed.

Lemma Rel_same s : Path.Rel s s = Some ".".
Proof. unfold Path.Rel. by rewrite bool_decide_true. Qed.

Lemma copyPreserveRelBase_Ok src baseDir dstRoot dst w w' :
  relDest src baseDir dstRoot = Some dst →
  copyPreserveRelBase src baseDir dstRoot w = Ok None w' →
  ∃ s d fs1 fs2,
    FS.resolve (cwd w) (Path.Dir dst) ≫= FS.mkdir_all (fs w) = Some fs1
    ∧ FS.resolve (cwd w) src = Some s ∧ FS.resolve (cwd w) dst = Some d
    ∧ FS.copy fs1 s d = Some fs2
    ∧ w' = emit (EvCopy src dst) (set_fs fs2 (emit (EvMkdirAll (Path.Dir dst)) (set_fs fs1 w))).
Proof.
  intros Hd. unfold copyPreserveRelBase. rewrite Hd.
  unfold bind at 1. unfold os_MkdirAll.
  destruct (FS.resolve (cwd w) (Path.Dir dst) ≫= FS.mkdir_all (fs w)) as [fs1|];
    cbn [negb]; [|done].
  unfold bind, cp_Copy. cbn [cwd emit set_fs fs].
  destruct (FS.resolve (cwd w) src) as [s|]; [|done].
  destruct (FS.resolve (cwd w) dst) as [d|]; [|done].
  destruct (FS.copy fs1 s d) as [fs2|] eqn:Ec; [|done].
  cbn. intros [= <-]. by exists s, d, fs1, fs2.
Qed.

Lemma copyPreserveRelBase_error src baseDir dstRoot w e w' :
  relDest src baseDir dstRoot = None →
  copyPreserveRelBase src baseDir dstRoot w = Ok e w' → e = Some (ErrRel src).
Proof. intros Hd. unfold copyPreserveRelBase. rewrite Hd. by intros [= <- _]. Qed.

Lemma installEntry_Ok buildDir installDir entry w w' :
  installEntry buildDir installDir entry w = Ok tt w' →
  ∃ srcPath baseDir,
    (From entry = "cwd" ∧ srcPath = File entry ∧ baseDir = "."
     ∨ From entry = "build" ∧ buildDir ≠ ""
       ∧ srcPath = Path.Join [buildDir; File entry] ∧ baseDir = buildDir)
    ∧ exists_ srcPath w = Ok true w
    ∧ copyPreserveRelBase srcPath baseDir installDir w = Ok None w'.
Proof.
  unfold installEntry. intros H.
  apply bind_Ok in H as ([srcPath baseDir] & w1 & H1 & H).
  assert (w1 = w ∧ (From entry = "cwd" ∧ srcPath = File entry ∧ baseDir = "."
     ∨ From entry = "build" ∧ buildDir ≠ ""
       ∧ srcPath = Path.Join [buildDir; File entry] ∧ baseDir = buildDir)) as [-> Hc].
  { revert H1. repeat case_bool_decide; try done; intros [= <- <- <-]; auto 10. }
  exists srcPath, baseDir. split; [done|].
  apply bind_Ok in H as (present & w1 & H2 & H).
  assert (w1 = w) as -> by (by injection H2).
  destruct present; cbn [negb] in H; [|done]. split; [done|].
  apply bind_Ok in H as (err & w2 & H3 & H).
  destruct err; [done|]. by injection H as <-.
Qed.

(** C2: an entry taken from the working directory at the relative path
    [p], and an entry taken from the staging directory at a path [p]
    inside it, are both copied to [installRoot/p], and a regular file
    arrives there with its bytes.  In general the destination is the path
    of the source relative to the base, under the destination root; a
    source that is the base itself goes to its base name under the root. *)
Theorem install_places_files (cfg : Config) (buildDir : string)
    (entry : FileEntry) (w w' : World Env) :
  let p := File entry in
  let src := if bool_decide (From entry = "cwd") then p else Path.Join [buildDir; p] in
  let dst := Path.Join [installRoot cfg; p] in
  installEntry buildDir (installRoot cfg) entry w = Ok tt w' →
  (From entry = "cwd" ∧ Path.Clean p ≠ ".")
  ∨ (From entry = "build" ∧ strictlyInside p) →
  trace w' = trace w ++ [EvMkdirAll (Path.Dir dst); EvCopy src dst]
  ∧ (∀ data, os_ReadFile src w = Ok (Some data) w →
             FS.resolve (cwd w) src ≠ FS.resolve (cwd w) dst →
             os_ReadFile dst w' = Ok (Some data) w')
  ∧ (∀ s base root rel, Path.Rel base s = Some rel →
       relDest s base root
       = Some (Path.Join [root; if bool_decide (rel = ".") then Path.Base s else rel]))
  ∧ (∀ s root, relDest s s root = Some (Path.Join [root; Path.Base s])).
Proof.
  intros p src dst Hok Hp.
  assert (∀ s base root rel, Path.Rel base s = Some rel →
       relDest s base root
       = Some (Path.Join [root; if bool_decide (rel = ".") then Path.Base s else rel]))
    as Hgen by (intros s base root rel Hrel; unfold relDest; by rewrite Hrel).
  apply installEntry_Ok in Hok as (srcPath & baseDir & Hcase & Hex & Hcp).
  assert (srcPath = src ∧ relDest srcPath baseDir (installRoot cfg) = Some dst)
    as [-> Hdst].
  { subst src dst p. destruct Hcase as [(Hf & -> & ->) | (Hf & Hb & -> & ->)].
    - rewrite bool_decide_true by done. split; [done|].
      destruct Hp as [[_ Hc] | [Hf' _]]; [|by rewrite Hf in Hf'].
      destruct (Path.is_rooted (File entry)) eqn:Hr.
      + assert (relDest (File entry) "." (installRoot cfg) = None) as Hn.
        { unfold relDest. by rewrite Rel_dot_rooted. }
        by apply (copyPreserveRelBase_error _ _ _ _ _ _ Hn) in Hcp.
      + apply relDest_cwd; [apply installRoot_nonempty|done..].
    - rewrite bool_decide_false by (by rewrite Hf). split; [done|].
      destruct Hp as [[Hf' _] | [_ Hin]]; [by rewrite Hf in Hf'|].
      apply relDest_build; [apply installRoot_nonempty|done..]. }
  destruct (copyPreserveRelBase_Ok _ _ _ _ _ _ Hdst Hcp)
    as (s & d & fs1 & fs2 & Hmk & Hs & Hd & Hcopy & ->).
  split; [|split; [|split]].
  - cbn. by rewrite <-(assoc_L (++)).
  - intros data Hread Hne. rewrite Hs, Hd in Hne.
    unfold os_ReadFile in *. cbn [cwd emit set_fs fs]. rewrite Hd. cbn.
    rewrite Hs in Hread. cbn in Hread.
    assert (FS.read_file (fs w) s = Some data) as Hrd by (by injection Hread).
    unfold FS.read_file in Hrd.
    destruct (FS.stat (fs w) s) as [[data'|]|] eqn:Est; [|done..].
    injection Hrd as ->.
    destruct (FS.resolve (cwd w) (Path.Dir dst)) as [dk|]; [|done]. cbn in Hmk.
    assert (FS.stat fs1 s = Some (FS.File data)) as Est1.
    { destruct s as [|c s]; [done|]. cbn in *.
      by apply (mkdir_all_preserves _ _ _ _ _ Hmk). }
    destruct (copy_file_lookup _ _ _ _ _ Est1 Hcopy) as (fs1' & _ & Hdne & ->).
    rewrite bool_decide_false by congruence.
    unfold FS.read_file, FS.stat. destruct d as [|c d]; [done|].
    by rewrite lookup_insert_eq.
  - exact Hgen.
  - intros s0 root. by rewrite (Hgen s0 s0 root "." (Rel_same s0)).
Qed.

End Placement.

(** ** The staging directory *)

Section Staging.

Context {Env : Type}.
Variable systemctl : list string → Env → bool * Env.
Variable bash : string → string → FS.t → Env → bool * FS.t * Env.

Implicit Types (w : World Env).

Lemma bind_Fatal_inv {A B} (m : M Env A) (k : A → M Env B) w f w' :
  bind m k w = Fatal f w' →
  m w = Fatal f w' ∨ ∃ a w1, m w = Ok a w1 ∧ k a w1 = Fatal f w'.
Proof.
  unfold bind. destruct (m w) as [a w1|f1 w1|]; intros H.
  - right. eauto.
  - left. by injection H as -> ->.
  - discriminate H.
Qed.

Lemma fails_bind {A B} Q (m : M Env A) (k : A → M Env B) :
  fails Q m → (∀ a, fails Q (k a)) → fails Q (bind m k).
Proof.
  intros Hm Hk w f w' [H | (a & w1 & _ & H)]%bind_Fatal_inv.
  - by eapply Hm.
  - by eapply Hk.
Qed.

Lemma fails_ret {A} Q (a : A) : fails Q (ret (Env:=Env) a).
Proof. by intros w f w'. Qed.

Lemma fails_fatal {A} (Q : Failure → Prop) f : Q f → fails Q (fatal (Env:=Env) (A:=A) f).
Proof. by intros HQ w f' w' [= <- _]. Qed.

Lemma fails_never {A} Q (m : M Env A) :
  (∀ w, ∃ a w', m w = Ok a w') → fails Q m.
Proof. intros H w f w'. destruct (H w) as (a & w1 & ->). done. Qed.

Lemma fails_for_each {A} Q (l : list A) (body : A → M Env unit) :
  (∀ x, x ∈ l → fails Q (body x)) → fails Q (for_each l body).
Proof.
  induction l as [|x l IH]; intros Hb; cbn; [apply fails_ret|].
  apply fails_bind.
  - apply Hb, elem_of_cons. by left.
  - intros _. apply IH. intros y Hy. apply Hb, elem_of_cons. by right.
Qed.

Lemma fails_weaken {A} (Q Q' : Failure → Prop) (m : M Env A) :
  fails Q m → (∀ f, Q f → Q' f) → fails Q' m.
Proof. intros Hm HQ w f w' H. eapply HQ, Hm, H. Qed.

Lemma run_systemctl_total args w : ∃ a w', run_systemctl systemctl args w = Ok a w'.
Proof. unfold run_systemctl. destruct (systemctl args (env w)). by eexists _, _. Qed.

Lemma run_bash_total script dir w : ∃ a w', run_bash bash script dir w = Ok a w'.
Proof. unfold run_bash. destruct (bash script dir (fs w) (env w)) as [[??]?]. by eexists _, _. Qed.

Lemma os_MkdirAll_total path w : ∃ a w', os_MkdirAll path w = Ok a w'.
Proof. unfold os_MkdirAll. destruct (_ ≫= _); by eexists _, _. Qed.

Lemma cp_Copy_total src dst w : ∃ a w', cp_Copy src dst w = Ok a w'.
Proof.
  unfold cp_Copy.
  destruct (FS.resolve (cwd w) src) as [s|], (FS.resolve (cwd w) dst) as [d|];
    try destruct (FS.copy (fs w) s d); by eexists _, _.
Qed.

Lemma os_WriteFile_total path data w : ∃ a w', os_WriteFile path data w = Ok a w'.
Proof. unfold os_WriteFile. destruct (_ ≫= _); by eexists _, _. Qed.

Lemma os_RemoveAll_total path w : ∃ a w', os_RemoveAll path w = Ok a w'.
Proof. unfold os_RemoveAll. destruct (FS.resolve (cwd w) path); by eexists _, _. Qed.

Lemma fails_waitStopped Q fuel name : fails Q (waitStopped systemctl fuel name).
Proof.
  induction fuel as [|n IH]; cbn; [done|].
  apply fails_bind; [apply fails_never, run_systemctl_total|].
  intros [|]; [done|apply fails_ret].
Qed.

Ltac fails_step :=
  lazymatch goal with
  | |- fails _ (bind _ _) => apply fails_bind; [|intros ?]
  | |- fails _ (ret _) => apply fails_ret
  | |- fails _ (fatal _) => apply fails_fatal
  | |- fails _ (run_systemctl _ _) => apply fails_never, run_systemctl_total
  | |- fails _ (run_bash _ _ _) => apply fails_never, run_bash_total
  | |- fails _ (os_MkdirAll _) => apply fails_never, os_MkdirAll_total
  | |- fails _ (cp_Copy _ _) => apply fails_never, cp_Copy_total
  | |- fails _ (os_WriteFile _ _) => apply fails_never, os_WriteFile_total
  | |- fails _ (os_RemoveAll _) => apply fails_never, os_RemoveAll_total
  | |- fails _ (exists_ _) => apply fails_never; intros ?; by eexists _, _
  | |- fails _ os_TempDir => apply fails_never; intros ?; by eexists _, _
  | |- fails _ (os_ReadDir _) => apply fails_never; intros ?; by eexists _, _
  | |- fails _ (waitStopped _ _ _) => apply fails_waitStopped
  | |- fails _ (if ?b then _ else _) => destruct b eqn:?
  | |- fails _ (match ?x with _ => _ end) => destruct x eqn:?
  | |- fails _ (let '(_, _) := ?x in _) => destruct x eqn:?
  end.

Lemma fails_installEntry (cfg : Config) buildDir installDir entry :
  entry ∈ InstallFiles cfg →
  fails (buildEntryOnly cfg) (installEntry (Env:=Env) buildDir installDir entry).
Proof.
  intros Hin. unfold installEntry, copyPreserveRelBase.
  repeat fails_step; try (by intros file).
  intros file [= <-]. exists entry. split; [done|]. split; [|done].
  match goal with H : bool_decide (From entry = "build") = true |- _ =>
    by apply bool_decide_eq_true_1 in H end.
Qed.

Lemma fails_doInstall fuel cfg :
  fails (buildEntryOnly cfg) (doInstall systemctl bash fuel cfg).
Proof.
  unfold doInstall.
  apply fails_bind.
  { unfold stopIfActive. repeat fails_step; by intros file. }
  intros _. apply fails_bind; [fails_step|intros made].
  destruct made; cbn [negb]; [|apply fails_fatal; by intros file].
  apply fails_bind.
  { unfold findTempBuildDir. repeat fails_step. }
  intros found. apply fails_bind.
  { apply fails_for_each. intros entry Hin. by apply fails_installEntry. }
  intros _. apply fails_bind.
  { unfold installScriptStep, runScript. repeat fails_step; by intros file. }
  intros _. apply fails_bind.
  { unfold startService, installSystemdUnit. repeat fails_step; by intros file. }
  intros _. unfold removeBuildDirs. repeat fails_step.
  apply fails_for_each. intros name _. repeat fails_step.
Qed.

Lemma head_filter_list_find {A} (P : A → Prop) `{!∀ x, Decision (P x)} (l : list A) :
  head (filter P l) = snd <$> list_find P l.
Proof.
  induction l as [|x l IH]; [done|].
  rewrite filter_cons. cbn [list_find]. destruct (decide (P x)); [done|].
  rewrite IH. by destruct (list_find P l) as [[??]|].
Qed.

Lemma findTempBuildDir_spec appName w :
  findTempBuildDir appName w
  = Ok (match stagingDirs appName w with
        | name :: _ => (Path.Join [tempDir w; name], true)
        | [] => ("", false)
        end) w.
Proof.
  unfold findTempBuildDir, stagingDirs, bind, os_TempDir, os_ReadDir.
  destruct (FS.resolve (cwd w) (tempDir w) ≫= FS.read_dir (fs w)) as [entries|]; [|done].
  fold (stagingPrefix appName).
  pose proof (head_filter_list_find
    (λ name, Path.HasPrefix name (stagingPrefix appName) = true) entries) as H.
  destruct (list_find _ entries) as [[i name]|]; cbn in H.
  - destruct (filter _ entries) as [|? ?]; [done|]. by injection H as ->.
  - by destruct (filter _ entries).
Qed.

Lemma installEntry_build_unknown installDir entry w :
  From entry = "build" →
  installEntry "" installDir entry w = Fatal (FBuildDirUnknown (File entry)) w.
Proof.
  intros Hf. unfold installEntry, bind. rewrite Hf.
  rewrite bool_decide_false by done. by rewrite !bool_decide_true.
Qed.

Lemma installEntry_cwd buildDir buildDir' installDir entry w :
  From entry = "cwd" →
  installEntry buildDir installDir entry w = installEntry buildDir' installDir entry w.
Proof. intros Hf. unfold installEntry. by rewrite Hf, bool_decide_true. Qed.


End Staging.

(** ** Removing the staging directories *)

Section Cleanup.

Context {Env : Type}.
Variable systemctl : list string → Env → bool * Env.
Variable bash : string → string → FS.t → Env → bool * FS.t * Env.

Implicit Types (w : World Env).

Lemma read_dir_elem (fs0 : FS.t) d entries name :
  FS.read_dir fs0 d = Some entries →
  name ∈ entries ↔ is_Some (fs0 !! (d ++ [name])).
Proof.
  unfold FS.read_dir. destruct (FS.is_dir fs0 d); [|done]. intros [= <-].
  rewrite merge_sort_Permutation, list_elem_of_omap. split.
  - intros (k & Hk & Hc). unfold FS.child_name in Hc.
    destruct (FS.strip_prefix d k) as [[|n [|??]]|] eqn:E; try done.
    injection Hc as ->. apply strip_prefix_Some in E as ->.
    apply list_elem_of_fmap in Hk as ([k v] & -> & Hin).
    apply elem_of_map_to_list in Hin. by eexists.
  - intros [v Hv]. exists (d ++ [name]). split.
    + apply list_elem_of_fmap. exists (d ++ [name], v). split; [done|].
      by apply elem_of_map_to_list.
    + unfold FS.child_name. by rewrite strip_prefix_app.
Qed.

Lemma valid_name_normal c : FS.valid_name c → normal c ∧ no_slash c.
Proof. intros (? & ? & ? & ?). by repeat split. Qed.

Lemma Clean_nonempty s : Path.Clean s ≠ "".
Proof.
  unfold Path.Clean, Path.render, Path.clean_path. cbn [Path.rooted Path.comps].
  destruct (Path.is_rooted s); [done|].
  pose proof (clean_fold_okc false [] (Path.split_slash s) (Forall_nil_2 _)) as Hok.
  apply Forall_rev in Hok. fold (Path.clean_comps false (Path.split_slash s)) in Hok.
  destruct (Path.clean_comps false (Path.split_slash s)) as [|c cs]; [done|].
  apply Forall_cons in Hok as [[Hc _] _].
  destruct c as [|a c]; [done|]. by destruct cs.
Qed.

Lemma resolve_Join_child (cwd0 : list string) tmp name dk :
  FS.resolve cwd0 tmp = Some dk → FS.valid_name name →
  FS.resolve cwd0 (Path.Join [tmp; name]) = Some (dk ++ [name]).
Proof.
  intros Hr Hv. destruct (valid_name_normal name Hv) as [Hn Hs].
  unfold FS.resolve in Hr. case_bool_decide as Htmp; [done|]. injection Hr as <-.
  rewrite Join2 by done. unfold FS.resolve.
  rewrite bool_decide_false by apply Clean_nonempty.
  unfold Path.Clean. rewrite clean_path_render, clean_path_app by done.
  rewrite split_slash_single by done. cbn [fold_left].
  rewrite clean_push_normal by done. cbn [rev Path.rooted Path.comps].
  unfold Path.clean_path. cbn [Path.rooted Path.comps]. f_equal.
  destruct (Path.is_rooted tmp); [done|].
  unfold Path.clean_comps. rewrite (assoc_L (++)), fold_left_app. cbn [fold_left].
  by rewrite clean_push_normal.
Qed.

Lemma if_bool_decide_ext {A} (P Q : Prop) `{!Decision P, !Decision Q} (x y : A) :
  (P ↔ Q) → (if bool_decide P then x else y) = (if bool_decide Q then x else y).
Proof. intros H. by rewrite (bool_decide_ext P Q H). Qed.

(** The removal loop of install: every listed name with the prefix goes,
    with all below it; nothing else changes. *)
Lemma removal_loop (prefix tmp : string) (l : list string) w dk :
  FS.resolve (cwd w) tmp = Some dk →
  Forall (λ name, Path.HasPrefix name prefix = true → FS.valid_name name) l →
  ∃ w', for_each l (λ name,
          if Path.HasPrefix name prefix then os_RemoveAll (Path.Join [tmp; name])
          else ret tt) w = Ok tt w'
    ∧ cwd w' = cwd w ∧ TMPDIR w' = TMPDIR w
    ∧ ∀ k, fs w' !! k
           = if bool_decide (Exists (λ name, Path.HasPrefix name prefix = true
                                             ∧ FS.under (dk ++ [name]) k = true) l)
             then None else fs w !! k.
Proof.
  intros Hr Hl. revert w Hr. induction Hl as [|name l Hvn Hl IH]; intros w Hr.
  - exists w. cbn. by repeat split.
  - cbn [for_each]. unfold bind at 1.
    destruct (Path.HasPrefix name prefix) eqn:Hp.
    + unfold os_RemoveAll. rewrite (resolve_Join_child _ _ _ _ Hr (Hvn eq_refl)).
      set (w1 := emit _ _).
      destruct (IH w1 Hr) as (w' & Hrun & Hc & Ht & Hfs).
      exists w'. split; [done|]. split; [done|]. split; [done|].
      intros k. rewrite Hfs. subst w1. cbn [fs emit set_fs].
      rewrite remove_all_lookup.
      destruct (FS.under (dk ++ [name]) k) eqn:Hu.
      * rewrite (bool_decide_true (Exists _ (name :: l))) by (apply Exists_cons; auto).
        by case_bool_decide.
      * apply if_bool_decide_ext. rewrite Exists_cons. split; [auto|].
        intros [[_ ?]|?]; [congruence|done].
    + destruct (IH w Hr) as (w' & Hrun & Hc & Ht & Hfs).
      exists w'. split; [done|]. split; [done|]. split; [done|].
      intros k. rewrite Hfs. apply if_bool_decide_ext. rewrite Exists_cons.
      split; [auto|]. intros [[? _]|?]; [congruence|done].
Qed.

Lemma removeBuildDirs_spec (cfg : Config) w :
  namesOk (fs w) →
  ∃ w', removeBuildDirs cfg w = Ok tt w'
    ∧ stagingDirs (AppName cfg) w' = []
    ∧ ∀ name, name ∈ stagingDirs (AppName cfg) w →
              absent w' (Path.Join [tempDir w; name]).
Proof.
  intros Hok. unfold removeBuildDirs, stagingDirs.
  unfold bind at 1 2. unfold os_TempDir, os_ReadDir.
  destruct (FS.resolve (cwd w) (tempDir w)) as [dk|] eqn:Hr; cbn [mbind option_bind].
  2:{ exists w. rewrite Hr. cbn. split; [done|]. split; [done|]. by intros name ?%elem_of_nil. }
  destruct (FS.read_dir (fs w) dk) as [entries|] eqn:Hrd.
  2:{ exists w. rewrite Hr. cbn. rewrite Hrd. split; [done|]. split; [done|].
      by intros name ?%elem_of_nil. }
  fold (stagingPrefix (AppName cfg)).
  assert (Forall FS.valid_name entries) as Hvalid.
  { apply Forall_forall. intros name Hin.
    apply (proj1 (read_dir_elem _ _ _ name Hrd)) in Hin. destruct Hin as [v Hv].
    pose proof (Hok (dk ++ [name]) v Hv) as Hn. cbn in Hn.
    rewrite Forall_app, Forall_singleton in Hn. by destruct Hn. }
  assert (Forall (λ name, Path.HasPrefix name (stagingPrefix (AppName cfg)) = true →
                          FS.valid_name name) entries) as Hprefixed
    by (eapply Forall_impl; [exact Hvalid|auto]).
  destruct (removal_loop (stagingPrefix (AppName cfg)) (tempDir w) entries w dk Hr Hprefixed)
    as (w' & Hrun & Hc & Ht & Hfs).
  exists w'. split; [done|].
  assert (tempDir w' = tempDir w) as Htd by (unfold tempDir; by rewrite Ht).
  split.
  - rewrite Htd, Hc, Hr. cbn [mbind option_bind].
    destruct (FS.read_dir (fs w') dk) as [entries'|] eqn:Hrd'; [|done].
    destruct (filter _ entries') as [|name' rest] eqn:Ef; [done|].
    assert (name' ∈ filter (λ name, Path.HasPrefix name (stagingPrefix (AppName cfg)) = true)
                     entries') as Hin by (rewrite Ef; apply elem_of_cons; auto).
    apply list_elem_of_filter in Hin as [Hp Hin].
    apply (proj1 (read_dir_elem _ _ _ name' Hrd')) in Hin. destruct Hin as [v Hv].
    rewrite Hfs in Hv. case_bool_decide as Hex; [done|].
    destruct Hex. apply Exists_exists. exists name'. split.
    + apply (read_dir_elem _ _ _ _ Hrd). by eexists.
    + split; [done|apply under_refl].
  - intros name [Hp Hin]%list_elem_of_filter p k Hres Hu.
    assert (FS.valid_name name) as Hv by (by eapply Forall_forall in Hvalid).
    rewrite Hc, (resolve_Join_child _ _ _ _ Hr Hv) in Hres. injection Hres as <-.
    rewrite Hfs, bool_decide_true; [done|].
    apply Exists_exists. by exists name.
Qed.

Lemma prefix_app_true (p x : string) : String.prefix p (p +:+ x) = true.
Proof.
  induction p as [|a p IH]; [by destruct x|].
  change (String a p +:+ x) with (String a (p +:+ x)). cbn.
  by destruct (ascii_dec a a).
Qed.

Lemma doInstall_ends_with_cleanup fuel (cfg : Config) w w' :
  doInstall systemctl bash fuel cfg w = Ok tt w' →
  ∃ w1, removeBuildDirs cfg w1 = Ok tt w'.
Proof.
  unfold doInstall. intros H.
  apply bind_Ok in H as (? & ? & _ & H).
  apply bind_Ok in H as (made & ? & _ & H).
  destruct made; [|done]. cbn [negb] in H.
  apply bind_Ok in H as (? & ? & _ & H).
  apply bind_Ok in H as (? & ? & _ & H).
  apply bind_Ok in H as (? & ? & _ & H).
  apply bind_Ok in H as (? & w1 & _ & H).
  by exists w1.
Qed.


End Cleanup.

(** ** Names and places of an install *)

Section StagingNames.
Import Path.

Lemma chars_app (a b : string) :
  String.list_ascii_of_string (a +:+ b)
  = String.list_ascii_of_string a ++ String.list_ascii_of_string b.
Proof.
  induction a as [|x a IH]; [done|].
  change (String x a +:+ b) with (String x (a +:+ b)). cbn. by rewrite IH.
Qed.

Lemma no_slash_app a b : no_slash a → no_slash b → no_slash (a +:+ b).
Proof. unfold no_slash. rewrite chars_app, not_elem_of_app. auto. Qed.

Lemma pretty_N_char_digit x : pretty_N_char x ≠ "/"%char.
Proof. unfold pretty_N_char. by repeat case_match. Qed.

Lemma no_slash_pretty_go x s : no_slash s → no_slash (pretty_N_go x s).
Proof.
  revert s. induction (N.lt_wf_0 x) as [x _ IH]; intros s Hs.
  destruct (decide (x = 0)%N) as [->|Hx]; [by rewrite pretty_N_go_0|].
  rewrite pretty_N_go_step by lia. apply IH.
  - apply N.div_lt; lia.
  - unfold no_slash in *. cbn. rewrite not_elem_of_cons. split; [|done].
    intros E. by apply (pretty_N_char_digit (x `mod` 10)%N).
Qed.

Lemma no_slash_pretty (x : N) : no_slash (pretty x).
Proof.
  unfold pretty, pretty_N. case_decide.
  - unfold no_slash. cbn. rewrite not_elem_of_cons. split; [done|apply not_elem_of_nil].
  - apply no_slash_pretty_go. unfold no_slash. cbn. apply not_elem_of_nil.
Qed.

Lemma no_slash_literal_qp : no_slash "qp_build_".
Proof. unfold no_slash. cbn. rewrite !not_elem_of_cons. repeat split; try done. apply not_elem_of_nil. Qed.

Lemma stagingName_valid appName r :
  no_slash appName → FS.valid_name (stagingName appName r).
Proof.
  intros Ha. unfold FS.valid_name. split; [|split; [|split]].
  1-3: assert (∃ t, stagingName appName r = String "q" t) as [t ->]
         by (eexists; reflexivity); done.
  unfold stagingName, stagingPrefix.
  repeat apply no_slash_app; try done.
  - apply no_slash_literal_qp.
  - unfold no_slash. cbn. rewrite not_elem_of_cons. split; [done|apply not_elem_of_nil].
  - apply no_slash_pretty.
  - unfold no_slash. cbn. apply not_elem_of_nil.
Qed.

Lemma stagingName_prefix appName r :
  HasPrefix (stagingName appName r) (stagingPrefix appName) = true.
Proof. apply prefix_app_true. Qed.

Lemma resolve_rooted (cwd0 : list string) s :
  is_rooted s = true → FS.resolve cwd0 s = Some (comps (clean_path s)).
Proof.
  intros Hr. unfold FS.resolve. rewrite bool_decide_false by (by destruct s).
  unfold clean_path. cbn [rooted comps]. by rewrite Hr.
Qed.

Lemma clean_comps_rooted_valid s :
  Forall normal (comps (clean_path s)) ∨ is_rooted s = false.
Proof.
  destruct (is_rooted s) eqn:Hr; [left|by right].
  unfold clean_path, clean_comps. rewrite Hr. cbn [comps].
  apply Forall_rev. by apply clean_fold_rooted_normal.
Qed.

Lemma clean_comps_no_slash s : Forall no_slash (comps (clean_path s)).
Proof.
  unfold clean_path, clean_comps. cbn [comps]. apply Forall_rev.
  apply clean_fold_no_slash; [done|apply split_slash_no_slash].
Qed.

Lemma resolve_tmp_child (cwd0 : list string) name :
  FS.valid_name name → FS.resolve cwd0 ("/tmp" +:+ "/" +:+ name) = Some ["tmp"; name].
Proof.
  intros Hv. destruct (valid_name_normal name Hv) as [Hn Hs].
  rewrite resolve_rooted by done. rewrite clean_path_app by done.
  rewrite split_slash_single by done. cbn [fold_left comps].
  rewrite clean_push_normal by done.
  change (fold_left (clean_push (is_rooted "/tmp")) (split_slash "/tmp") [])
    with ["tmp"]. done.
Qed.

Lemma strictlyInside_comps p :
  strictlyInside p →
  let cs := clean_comps false (split_slash p) in
  cs ≠ [] ∧ Forall normal cs ∧ Forall no_slash cs.
Proof.
  intros Hp. destruct (strictlyInside_stack p Hp) as (? & ? & ?).
  cbv zeta. unfold clean_comps. split; [apply Hp|]. split; by apply Forall_rev.
Qed.

Lemma resolve_Join_inside (cwd0 : list string) b p bk :
  FS.resolve cwd0 b = Some bk → strictlyInside p →
  FS.resolve cwd0 (Join [b; p]) = Some (bk ++ clean_comps false (split_slash p)).
Proof.
  intros Hr Hp. destruct (strictlyInside_comps p Hp) as (Hne & Hn & Hs).
  unfold FS.resolve in Hr. case_bool_decide as Hb; [done|]. injection Hr as <-.
  rewrite Join2 by done. unfold FS.resolve.
  rewrite bool_decide_false by apply Clean_nonempty.
  unfold Clean. rewrite clean_path_render, clean_path_inside by done.
  cbn [rooted comps]. f_equal.
  set (cs := clean_comps false (split_slash p)) in *.
  destruct (is_rooted b) eqn:Hrb.
  - unfold clean_path. by rewrite Hrb.
  - rewrite (clean_path_relative b Hrb). cbn [rooted comps].
    unfold clean_comps at 1 3. rewrite (assoc_L (++)), fold_left_app.
    rewrite (clean_fold_normal true _ cs) by done.
    by rewrite rev_app_distr, rev_involutive.
Qed.

Lemma strictlyInside_nonempty p : strictlyInside p → p ≠ "".
Proof. intros [Hne _] ->. by apply Hne. Qed.

Lemma resolve_relative_inside (cwd0 : list string) p :
  is_rooted p = false → strictlyInside p → Forall FS.valid_name cwd0 →
  FS.resolve cwd0 p = Some (cwd0 ++ clean_comps false (split_slash p)).
Proof.
  intros Hr Hp Hc. destruct (strictlyInside_comps p Hp) as (Hne & Hn & Hs).
  unfold FS.resolve. rewrite bool_decide_false by (by apply strictlyInside_nonempty).
  rewrite (clean_path_relative p Hr). cbn [rooted comps]. f_equal.
  unfold clean_comps at 1. rewrite clean_fold_normal.
  - by rewrite (right_id_L [] (++)), rev_involutive.
  - apply Forall_app. split; [|done].
    eapply Forall_impl; [exact Hc|]. intros c Hv. by apply valid_name_normal.
Qed.

Lemma split_slash_rooted_render l :
  l ≠ [] → Forall no_slash l → split_slash ("/" +:+ join_slash l) = "" :: l.
Proof.
  intros Hl Hs. change ("/" +:+ join_slash l) with ("" +:+ "/" +:+ join_slash l).
  by rewrite split_slash_app, split_join_slash.
Qed.

Lemma join_slash_snoc l c :
  l ≠ [] → join_slash (l ++ [c]) = join_slash l +:+ "/" +:+ c.
Proof.
  induction l as [|x l IH]; [done|]. intros _.
  destruct l as [|y l]; [done|].
  change ((x :: y :: l) ++ [c]) with (x :: ((y :: l) ++ [c])).
  rewrite !join_slash_cons by done. rewrite IH by done.
  by rewrite !string_app_assoc.
Qed.

Lemma Dir_rooted_render l c :
  Forall normal l → Forall no_slash l → no_slash c →
  clean_path (Dir ("/" +:+ join_slash (l ++ [c]))) = CPath true l.
Proof.
  intros Hn Hs Hc. unfold Dir.
  rewrite split_slash_rooted_render;
    [|by destruct l|apply Forall_app; split; [done|by apply Forall_singleton]].
  change ("" :: l ++ [c]) with (("" :: l) ++ [c]). rewrite rev_unit.
  destruct (rev ("" :: l)) as [|z zs] eqn:E.
  { apply (f_equal (@rev _)) in E. by rewrite rev_involutive in E. }
  rewrite <-E, rev_involutive.
  unfold Clean. rewrite clean_path_render.
  destruct (decide (l = [])) as [->|Hl]; [reflexivity|].
  assert (join_slash ("" :: l) +:+ "/" = "" +:+ "/" +:+ (join_slash l +:+ "/" +:+ ""))
    as -> by (rewrite join_slash_cons by done; by rewrite !string_app_assoc).
  unfold clean_path, clean_comps.
  assert (is_rooted ("" +:+ "/" +:+ join_slash l +:+ "/" +:+ "") = true) as -> by done.
  rewrite !split_slash_app, (split_join_slash l) by done.
  change (split_slash "") with [""].
  rewrite !fold_left_app.
  change (fold_left (clean_push true) [""] []) with (@nil string).
  rewrite (clean_fold_normal true [] l) by done.
  change (fold_left (clean_push true) [""] (rev l ++ [])) with (rev l ++ []).
  by rewrite (right_id_L [] (++)), rev_involutive.
Qed.

Lemma resolve_Dir_inside (cwd0 : list string) b p bk :
  is_rooted b = true → FS.resolve cwd0 b = Some bk → strictlyInside p →
  FS.resolve cwd0 (Dir (Join [b; p]))
  = Some (FS.parent (bk ++ clean_comps false (split_slash p))).
Proof.
  intros Hrb Hr Hp. destruct (strictlyInside_comps p Hp) as (Hne & Hn & Hs).
  set (cs := clean_comps false (split_slash p)) in *.
  assert (b ≠ "") as Hb by (by destruct b).
  rewrite resolve_rooted in Hr by done. injection Hr as <-.
  assert (Forall normal (comps (clean_path b))) as Hnb.
  { by destruct (clean_comps_rooted_valid b) as [?|?]; [|congruence]. }
  pose proof (clean_comps_no_slash b) as Hsb.
  rewrite Join2 by done. unfold Clean. rewrite (clean_path_inside b p Hb Hp).
  fold cs. rewrite Hrb. unfold render. cbn [rooted comps].
  destruct (exists_last Hne) as (cs' & c & Hcs). rewrite Hcs in *.
  rewrite (assoc_L (++)).
  rewrite Forall_app in Hn. destruct Hn as [Hn' _].
  rewrite Forall_app, Forall_singleton in Hs. destruct Hs as [Hs' Hc].
  assert (clean_path (Dir ("/" +:+ join_slash ((comps (clean_path b) ++ cs') ++ [c])))
          = CPath true (comps (clean_path b) ++ cs')) as Hd.
  { apply Dir_rooted_render; [by apply Forall_app|by apply Forall_app|done]. }
  unfold FS.resolve, FS.parent. rewrite Hd. cbn [rooted comps].
  rewrite ?(assoc_L (++)), removelast_last. case_bool_decide as E.
  2:{ unfold clean_path. by rewrite Hrb. }
  rewrite E in Hd. discriminate Hd.
Qed.

End StagingNames.

(** ** What a step writes

    Every step of an install that succeeds writes a table of keys over
    the file system: the directories [os.MkdirAll] makes, the files and
    directories a copy brings, the file [os.WriteFile] leaves. *)

Section Tables.
Import FS.
Implicit Types (fs : FS.t) (k p d s : list string).

Lemma mkdir_override fs p fs' :
  mkdir_all fs p = Some fs' → override (mkdirTable p) fs fs'.
Proof.
  intros Hm k. rewrite (mkdir_all_lookup _ _ _ k Hm). unfold mkdirTable.
  by case_bool_decide.
Qed.

Lemma strip_prefix_None_under d k : strip_prefix d k = None ↔ under d k = false.
Proof.
  unfold under. rewrite bool_decide_eq_false. split.
  - intros -> [? ?]. done.
  - intros H. destruct (strip_prefix d k); [|done]. destruct H. by eexists.
Qed.

Lemma prefix_of_under a b : a `prefix_of` b ↔ under a b = true.
Proof. rewrite under_spec. done. Qed.

Lemma copy_override fs s d fs' :
  s ≠ [] → copy fs s d = Some fs' → override (copyTable fs s d) fs fs'.
Proof.
  intros Hs Hc k. unfold copyTable.
  destruct (stat fs s) as [[data|]|] eqn:Est.
  - destruct (copy_file_lookup _ _ _ _ _ Est Hc) as (fs1 & Hm & Hd & ->).
    destruct (decide (k = d)) as [->|Hk].
    + rewrite (bool_decide_true (d = d)) by done. by rewrite lookup_insert_eq.
    + rewrite (bool_decide_false (k = d)) by done.
      rewrite lookup_insert_ne by done. apply (mkdir_override _ _ _ Hm).
  - destruct (copy_dir_lookup _ _ _ _ k Est Hc) as (fs1 & Hm & ->).
    destruct (strip_prefix d k) as [r|] eqn:Ek.
    + apply strip_prefix_Some in Ek as ->. destruct r as [|c r].
      * rewrite (right_id_L [] (++)). destruct s as [|? ?]; [done|]. cbn in Est.
        by rewrite Est.
      * destruct (fs !! (s ++ c :: r)) as [v|]; [done|].
        rewrite (mkdir_all_lookup _ _ _ _ Hm). rewrite bool_decide_false; [done|].
        intros [_ [x Hx]]. rewrite <-(assoc_L (++)) in Hx.
        rewrite <-(right_id_L [] (++) d) in Hx at 1.
        by apply (inj (app d)) in Hx.
    + apply (mkdir_override _ _ _ Hm).
  - unfold copy in Hc. by rewrite Est in Hc.
Qed.

(** The keys a table can write. *)
Lemma mkdirTable_Some p k v :
  mkdirTable p k = Some v → v = Dir ∧ k ≠ [] ∧ k `prefix_of` p.
Proof. unfold mkdirTable. case_bool_decide; [|done]. intros [= <-]. tauto. Qed.

Lemma prefix_of_parent k d : k `prefix_of` parent d → k `prefix_of` d.
Proof.
  unfold parent. intros [x Hx]. destruct (decide (d = [])) as [->|Hd].
  - cbn in Hx. symmetry in Hx. apply app_eq_nil in Hx as [-> _]. by exists [].
  - destruct (exists_last Hd) as (d' & c & ->). rewrite removelast_last in Hx.
    subst d'. exists (x ++ [c]). by rewrite (assoc_L (++)).
Qed.

Lemma copyTable_Some fs s d k v :
  copyTable fs s d k = Some v → under d k = true ∨ (k ≠ [] ∧ k `prefix_of` d).
Proof.
  unfold copyTable. destruct (stat fs s) as [[data|]|]; [| |done].
  - destruct (decide (k = d)) as [->|Hk].
    + intros _. left. apply under_refl.
    + rewrite (bool_decide_false (k = d)) by done.
      intros (_ & ? & ?%prefix_of_parent)%mkdirTable_Some. by right.
  - destruct (strip_prefix d k) as [r|] eqn:E.
    + intros _. left. apply strip_prefix_Some in E as ->. apply under_app.
    + intros (_ & ? & ?)%mkdirTable_Some. by right.
Qed.

Lemma copyTable_ext fsA fsB sA sB d k :
  stat fsA sA = stat fsB sB →
  (∀ r, fsA !! (sA ++ r) = fsB !! (sB ++ r)) →
  bool_decide (sA = d) = bool_decide (sB = d) →
  copyTable fsA sA d k = copyTable fsB sB d k.
Proof.
  intros Hst Hsub Hsd. unfold copyTable. rewrite Hst, Hsd.
  destruct (stat fsB sB) as [[data|]|]; [done| |done].
  destruct (strip_prefix d k) as [[|c r]|]; [done| |done]. apply Hsub.
Qed.

End Tables.

(** ** Two runs, step by step

    The second of two installs is followed side by side with the first.
    Both read the same working tree, and each fills a staging directory
    of its own; so at every step the two tables agree outside the staging
    directories, and inside them up to the name of the directory.  What
    the second run finds outside is therefore what the first run has at
    the same point, or what the first run left behind in the end. *)

Section Invariants.
Import FS.
Variable appName : string.
Variable cwd0 : list string.
Variable fs0 fs1 : FS.t.
Implicit Types (fs : FS.t) (k p d s S : list string).

Local Abbreviation tablesOk := (tablesOk appName cwd0).
Local Abbreviation inv := (inv appName cwd0 fs0 fs1).

Lemma frame_override S T fs fs' :
  frame appName cwd0 fs0 S fs → override T fs fs' →
  (∀ k, under cwd0 k = true → T k = None) →
  (∀ k, staged appName k = true → under S k = false → T k = None) →
  frame appName cwd0 fs0 S fs'.
Proof.
  intros [H1 H2] Ho Hc Hs. split.
  - intros k Hk. by rewrite (Ho k), Hc, H1.
  - intros k Hk Hu. by rewrite (Ho k), Hs, H2.
Qed.

Lemma sim_override SA SB TA TB fsA fsB fsA' fsB' :
  sim appName fs1 SA SB fsA fsB →
  override TA fsA fsA' → override TB fsB fsB' →
  (∀ k, staged appName k = false → TA k = TB k) →
  (∀ r, TA (SA ++ r) = TB (SB ++ r)) →
  sim appName fs1 SA SB fsA' fsB'.
Proof.
  intros [H1 H2] HA HB HG HJ. split.
  - intros k Hk. rewrite (HA k), (HB k), <-(HG k Hk).
    destruct (TA k); [by left|]. by apply H1.
  - intros r. rewrite (HA (SA ++ r)), (HB (SB ++ r)), <-(HJ r).
    destruct (TA (SA ++ r)); [done|]. apply H2.
Qed.

(** *** Zones *)

Lemma under_comparable a b k :
  under a k = true → under b k = true → under a b = true ∨ under b a = true.
Proof.
  rewrite !under_spec. revert b k. induction a as [|x a IH]; intros b k.
  - intros _ _. left. by exists b.
  - intros [r ->] [r' Hr']. destruct b as [|y b].
    + right. by eexists.
    + injection Hr' as -> Hr'.
      destruct (IH b (a ++ r)) as [[z ->]|[z ->]]; [by eexists|by eexists|..].
      * left. by exists z.
      * right. by exists z.
Qed.

Lemma apart_under a b k : apart a b → under a k = true → under b k = false.
Proof.
  intros [H1 H2] Ha. destruct (under b k) eqn:Hb; [|done].
  destruct (under_comparable a b k Ha Hb); congruence.
Qed.

Lemma prefix_of_app_cases k b x :
  k `prefix_of` b ++ x → k `prefix_of` b ∨ under b k = true.
Proof.
  intros Hk. apply prefix_of_under in Hk.
  destruct (under_comparable k b (b ++ x) Hk (under_app b x)) as [H|H].
  - left. by apply prefix_of_under.
  - by right.
Qed.

Lemma written_zone b x k :
  under (b ++ x) k = true ∨ (k ≠ [] ∧ k `prefix_of` b ++ x) →
  under b k = true ∨ (k ≠ [] ∧ k `prefix_of` b).
Proof.
  intros [Hu | [Hne Hp]].
  - left. apply under_spec in Hu as [r ->]. rewrite <-(assoc_L (++)). apply under_app.
  - destruct (prefix_of_app_cases _ _ _ Hp); auto.
Qed.

Section StagingZone.
Variable n : string.
Hypothesis Hn : Path.HasPrefix n (stagingPrefix appName) = true.

Lemma staged_under r : staged appName (["tmp"; n] ++ r) = true.
Proof. cbn. by rewrite Hn. Qed.

Lemma staging_zone k :
  under ["tmp"; n] k = true ∨ (k ≠ [] ∧ k `prefix_of` ["tmp"; n]) →
  k = ["tmp"] ∨ under ["tmp"; n] k = true.
Proof.
  intros [?|[Hne [x Hx]]]; [by right|].
  destruct k as [|a [|b [|c k]]]; [done|..].
  - injection Hx as <- _. by left.
  - injection Hx as <- <- _. right. apply under_refl.
  - discriminate Hx.
Qed.

Lemma staging_zone_unstaged k :
  staged appName k = false →
  under ["tmp"; n] k = true ∨ (k ≠ [] ∧ k `prefix_of` ["tmp"; n]) → k = ["tmp"].
Proof.
  intros Hk [?|Hu]%staging_zone; [done|].
  apply under_spec in Hu as [r ->]. by rewrite staged_under in Hk.
Qed.

End StagingZone.

Lemma mkdirTable_tmp m n :
  mkdirTable (["tmp"; n] ++ m) ["tmp"] = Some Dir.
Proof.
  unfold mkdirTable. rewrite bool_decide_true; [done|]. split; [done|].
  by exists (n :: m).
Qed.

Lemma copyTable_written fs s d k :
  under d k = false → ¬ (k ≠ [] ∧ k `prefix_of` d) → copyTable fs s d k = None.
Proof.
  intros Hu Hp. destruct (copyTable fs s d k) as [v|] eqn:E; [|done].
  apply copyTable_Some in E as [?|?]; [congruence|done].
Qed.

Lemma mkdirTable_written p k :
  ¬ (k ≠ [] ∧ k `prefix_of` p) → mkdirTable p k = None.
Proof. intros H. unfold mkdirTable. by rewrite bool_decide_false. Qed.

(** *** Tables of the operations of a run, side by side *)

Lemma override_is_Some T fs fs' k :
  override T fs fs' → is_Some (fs !! k) → is_Some (fs' !! k).
Proof. intros Ho H. rewrite (Ho k). by destruct (T k). Qed.

Lemma override_Dir T fs fs' k :
  override T fs fs' → (∀ v, T k = Some v → v = Dir) →
  fs !! k = Some Dir → fs' !! k = Some Dir.
Proof.
  intros Ho HT H. rewrite (Ho k). destruct (T k) as [v|] eqn:E; [|done].
  by rewrite (HT v).
Qed.

Lemma inv_step SA SB TA TB fsA fsB fsA' fsB' :
  inv SA SB fsA fsB → override TA fsA fsA' → override TB fsB fsB' →
  tablesOk SA SB TA TB → inv SA SB fsA' fsB'.
Proof.
  intros (FA & FB & Hs & HtA & HtB & HeA & HeB) HA HB
    (HG & HJ & Hc & HsA & HsB & HdA & HdB).
  split; [|split; [|split; [|split; [|split; [|split]]]]].
  - eapply frame_override; [exact FA|exact HA|..]; [intros k Hk; by apply Hc|done].
  - eapply frame_override; [exact FB|exact HB|..]; [intros k Hk; by apply Hc|done].
  - by eapply sim_override.
  - by eapply override_Dir.
  - by eapply override_Dir.
  - by eapply override_is_Some.
  - by eapply override_is_Some.
Qed.

Lemma mkdirTable_Dir p k v : mkdirTable p k = Some v → v = Dir.
Proof. by intros [? _]%mkdirTable_Some. Qed.

Lemma copyTable_Dir_outside fs s d k v :
  under d k = false → copyTable fs s d k = Some v → v = Dir.
Proof.
  intros Hu. unfold copyTable. destruct (stat fs s) as [[data|]|]; [| |done].
  - rewrite bool_decide_false; [apply mkdirTable_Dir|].
    intros ->. by rewrite under_refl in Hu.
  - apply strip_prefix_None_under in Hu. rewrite Hu. apply mkdirTable_Dir.
Qed.

Lemma strip_prefix_app_app S a b : strip_prefix (S ++ a) (S ++ b) = strip_prefix a b.
Proof. induction S as [|x S IH]; [done|]. cbn. by rewrite bool_decide_true. Qed.

Lemma under_app_app S a b : under (S ++ a) (S ++ b) = under a b.
Proof. unfold under. by rewrite strip_prefix_app_app. Qed.

Lemma mkdirTable_shift S m r :
  S ≠ [] →
  mkdirTable (S ++ m) (S ++ r) = if bool_decide (r `prefix_of` m) then Some Dir else None.
Proof.
  intros HS. unfold mkdirTable. apply if_bool_decide_ext.
  rewrite !prefix_of_under, under_app_app. split; [tauto|]. intros ?. split; [|done].
  by destruct S.
Qed.

Lemma parent_app S rel : rel ≠ [] → parent (S ++ rel) = S ++ parent rel.
Proof.
  intros Hr. unfold parent. destruct (exists_last Hr) as (r' & c & ->).
  by rewrite (assoc_L (++)), !removelast_last.
Qed.

Section Zones.
Variables nA nB : string.
Hypothesis HnA : Path.HasPrefix nA (stagingPrefix appName) = true.
Hypothesis HnB : Path.HasPrefix nB (stagingPrefix appName) = true.
Hypothesis Htmp : apart cwd0 ["tmp"].
Variable R : list string.
Hypothesis HR : apart cwd0 R.
Hypothesis Hopt : ∃ R', R = "opt" :: R'.

Local Abbreviation SA := ["tmp"; nA].
Local Abbreviation SB := ["tmp"; nB].

Lemma cwd_not_written_staging n m k :
  under cwd0 k = true →
  ¬ (under (["tmp"; n] ++ m) k = true ∨ (k ≠ [] ∧ k `prefix_of` ["tmp"; n] ++ m)).
Proof.
  intros Hk Hw. pose proof (apart_under _ _ _ Htmp Hk) as Ht.
  apply written_zone in Hw as [Hu|[Hne Hp]].
  - apply under_spec in Hu as [r ->].
    assert (under ["tmp"] (["tmp"; n] ++ r) = true); [|congruence].
    apply under_spec. by exists (n :: r).
  - destruct Hp as [x Hx]. destruct k as [|a k]; [done|]. injection Hx as <- _.
    assert (under ["tmp"] ("tmp" :: k) = true); [|congruence].
    apply under_spec. by exists k.
Qed.

Lemma cwd_not_written_root m k :
  under cwd0 k = true →
  ¬ (under (R ++ m) k = true ∨ (k ≠ [] ∧ k `prefix_of` R ++ m)).
Proof.
  intros Hk Hw. destruct HR as [H1 H2].
  apply written_zone in Hw as [Hu|[Hne Hp]].
  - by rewrite (apart_under _ _ _ HR Hk) in Hu.
  - apply prefix_of_under in Hp.
    destruct (under_comparable _ _ _ Hk (under_refl k)) as [?|?].
    + assert (under cwd0 R = true); [|congruence].
      apply under_spec in Hk as [r ->]. apply under_spec in Hp as [r' ->].
      rewrite <-(assoc_L (++)). apply under_app.
    + assert (under cwd0 R = true); [|congruence].
      apply under_spec in Hk as [r ->]. apply under_spec in Hp as [r' ->].
      rewrite <-(assoc_L (++)). apply under_app.
Qed.

Lemma staged_not_written_root m k :
  staged appName k = true →
  ¬ (under (R ++ m) k = true ∨ (k ≠ [] ∧ k `prefix_of` R ++ m)).
Proof.
  destruct Hopt as [R' ->]. intros Hk [Hu|[Hne [x Hx]]].
  - apply under_spec in Hu as [r ->].
    change (("opt" :: R') ++ m) with ("opt" :: (R' ++ m)) in Hk.
    change (("opt" :: R' ++ m) ++ r) with ("opt" :: ((R' ++ m) ++ r)) in Hk.
    cbn [staged] in Hk. destruct ((R' ++ m) ++ r); [done|].
    by rewrite bool_decide_false in Hk.
  - destruct k as [|a [|b k]]; try done. injection Hx as <- _. done.
Qed.

Lemma foreign_not_written_staging n m k :
  staged appName k = true → under ["tmp"; n] k = false →
  ¬ (under (["tmp"; n] ++ m) k = true ∨ (k ≠ [] ∧ k `prefix_of` ["tmp"; n] ++ m)).
Proof.
  intros Hk Hu Hw. apply written_zone in Hw.
  apply staging_zone in Hw as [->|?]; [done|congruence].
Qed.

(** Making a directory in the staging directories. *)
Lemma tables_build_mkdir m :
  tablesOk SA SB (mkdirTable (SA ++ m)) (mkdirTable (SB ++ m)).
Proof.
  split; [|split; [|split; [|split; [|split; [|split]]]]].
  - intros k Hk. destruct (decide (k = ["tmp"])) as [->|Hne].
    + by rewrite !mkdirTable_tmp.
    + rewrite !mkdirTable_written; [done|..]; intros Hw.
      * apply Hne. apply (staging_zone_unstaged nB HnB k Hk).
        right. destruct Hw as [? Hp]. split; [done|].
        destruct (prefix_of_app_cases _ _ _ Hp) as [?|Hu]; [done|].
        apply under_spec in Hu as [r ->]. by rewrite staged_under in Hk.
      * apply Hne. apply (staging_zone_unstaged nA HnA k Hk).
        right. destruct Hw as [? Hp]. split; [done|].
        destruct (prefix_of_app_cases _ _ _ Hp) as [?|Hu]; [done|].
        apply under_spec in Hu as [r ->]. by rewrite staged_under in Hk.
  - intros r. by rewrite !mkdirTable_shift.
  - intros k Hk. split; apply mkdirTable_written; intros Hw;
      eapply cwd_not_written_staging; eauto.
  - intros k Hk Hu. apply mkdirTable_written. intros Hw.
    eapply (foreign_not_written_staging nA); eauto.
  - intros k Hk Hu. apply mkdirTable_written. intros Hw.
    eapply (foreign_not_written_staging nB); eauto.
  - apply mkdirTable_Dir.
  - apply mkdirTable_Dir.
Qed.

Lemma cwd0_nonempty : cwd0 ≠ [].
Proof. intros E. destruct Htmp as [H _]. by rewrite E in H. Qed.

Lemma cwd_not_staging n r sc : cwd0 ++ sc ≠ ["tmp"; n] ++ r.
Proof.
  intros E. pose proof (apart_under _ _ _ Htmp (under_app cwd0 sc)) as H.
  rewrite E in H. assert (under ["tmp"] (["tmp"; n] ++ r) = true); [|congruence].
  apply under_spec. by exists (n :: r).
Qed.

Lemma not_under_tmp n rel : under (["tmp"; n] ++ rel) ["tmp"] = false.
Proof.
  destruct (under _ _) eqn:E; [|done]. apply under_spec in E as [r Hr]. done.
Qed.

(** Copying from the working tree into the staging directories. *)
Lemma tables_build_copy fsA fsB sc rel :
  inv SA SB fsA fsB → rel ≠ [] →
  tablesOk SA SB (copyTable fsA (cwd0 ++ sc) (SA ++ rel))
                 (copyTable fsB (cwd0 ++ sc) (SB ++ rel)).
Proof.
  intros ([FA _] & [FB _] & _) Hrel.
  assert (∀ r, fsA !! ((cwd0 ++ sc) ++ r) = fsB !! ((cwd0 ++ sc) ++ r)) as Hsub.
  { intros r. rewrite <-(assoc_L (++)). by rewrite FA, FB by apply under_app. }
  assert (stat fsA (cwd0 ++ sc) = stat fsB (cwd0 ++ sc)) as Hst.
  { pose proof cwd0_nonempty. unfold stat. destruct (cwd0 ++ sc) eqn:E.
    - by apply app_eq_nil in E as [? _].
    - rewrite <-E. by rewrite FA, FB by apply under_app. }
  split; [|split; [|split; [|split; [|split; [|split]]]]].
  - intros k Hk. destruct (decide (k = ["tmp"])) as [->|Hne].
    + unfold copyTable. rewrite Hst.
      destruct (stat fsB (cwd0 ++ sc)) as [[data|]|]; [| |done].
      * rewrite !bool_decide_false by (by destruct rel).
        rewrite !parent_app by done. by rewrite !mkdirTable_tmp.
      * rewrite !(proj2 (strip_prefix_None_under _ _) (not_under_tmp _ rel)).
        by rewrite !mkdirTable_tmp.
    + rewrite !copyTable_written; [done|..].
      * destruct (under (SB ++ rel) k) eqn:E; [|done]. destruct Hne.
        apply (staging_zone_unstaged nB HnB k Hk), (written_zone _ rel). by left.
      * intros Hw. apply Hne.
        apply (staging_zone_unstaged nB HnB k Hk), (written_zone _ rel). by right.
      * destruct (under (SA ++ rel) k) eqn:E; [|done]. destruct Hne.
        apply (staging_zone_unstaged nA HnA k Hk), (written_zone _ rel). by left.
      * intros Hw. apply Hne.
        apply (staging_zone_unstaged nA HnA k Hk), (written_zone _ rel). by right.
  - intros r. unfold copyTable. rewrite Hst.
    destruct (stat fsB (cwd0 ++ sc)) as [[data|]|]; [| |done].
    + rewrite (bool_decide_false (cwd0 ++ sc = SA ++ rel)) by apply cwd_not_staging.
      rewrite (bool_decide_false (cwd0 ++ sc = SB ++ rel)) by apply cwd_not_staging.
      rewrite !parent_app by done. rewrite !mkdirTable_shift by done.
      rewrite (bool_decide_ext (SA ++ r = SA ++ rel) (r = rel))
        by (split; [apply (inj (app _))|congruence]).
      by rewrite (bool_decide_ext (SB ++ r = SB ++ rel) (r = rel))
        by (split; [apply (inj (app _))|congruence]).
    + rewrite !strip_prefix_app_app. rewrite !mkdirTable_shift by done.
      destruct (strip_prefix rel r) as [[|c r']|]; [done| |done]. apply Hsub.
  - intros k Hk. split; apply copyTable_written.
    + destruct (under (SA ++ rel) k) eqn:E; [|done].
      destruct (cwd_not_written_staging nA rel k Hk). by left.
    + intros Hw. destruct (cwd_not_written_staging nA rel k Hk). by right.
    + destruct (under (SB ++ rel) k) eqn:E; [|done].
      destruct (cwd_not_written_staging nB rel k Hk). by left.
    + intros Hw. destruct (cwd_not_written_staging nB rel k Hk). by right.
  - intros k Hk Hu. apply copyTable_written.
    + destruct (under (SA ++ rel) k) eqn:E; [|done].
      destruct (foreign_not_written_staging nA rel k Hk Hu). by left.
    + intros Hw. destruct (foreign_not_written_staging nA rel k Hk Hu). by right.
  - intros k Hk Hu. apply copyTable_written.
    + destruct (under (SB ++ rel) k) eqn:E; [|done].
      destruct (foreign_not_written_staging nB rel k Hk Hu). by left.
    + intros Hw. destruct (foreign_not_written_staging nB rel k Hk Hu). by right.
  - intros v. apply copyTable_Dir_outside, not_under_tmp.
  - intros v. apply copyTable_Dir_outside, not_under_tmp.
Qed.

Lemma not_under_root_tmp m : under (R ++ m) ["tmp"] = false.
Proof.
  destruct Hopt as [R' ->].
  destruct (under _ _) eqn:E; [|done]. apply under_spec in E as [r Hr]. done.
Qed.

Lemma root_not_staged_key n r k : ["tmp"; n] ++ r ≠ R ++ k.
Proof. destruct Hopt as [R' ->]. done. Qed.

(** Making a directory in the install root. *)
Lemma tables_root_mkdir m :
  tablesOk SA SB (mkdirTable (R ++ m)) (mkdirTable (R ++ m)).
Proof.
  split; [|split; [|split; [|split; [|split; [|split]]]]]; try done.
  - intros r. rewrite !mkdirTable_written; [done|..]; intros Hw.
    + destruct (staged_not_written_root m (SB ++ r)); [apply staged_under, HnB|by right].
    + destruct (staged_not_written_root m (SA ++ r)); [apply staged_under, HnA|by right].
  - intros k Hk. split; apply mkdirTable_written; intros Hw;
      destruct (cwd_not_written_root m k Hk); by right.
  - intros k Hk _. apply mkdirTable_written. intros Hw.
    destruct (staged_not_written_root m k Hk); by right.
  - intros k Hk _. apply mkdirTable_written. intros Hw.
    destruct (staged_not_written_root m k Hk); by right.
  - apply mkdirTable_Dir.
  - apply mkdirTable_Dir.
Qed.

Lemma copyTable_root_None fs s m k :
  staged appName k = true ∨ under cwd0 k = true → copyTable fs s (R ++ m) k = None.
Proof.
  intros Hk. apply copyTable_written.
  - destruct (under (R ++ m) k) eqn:E; [|done]. destruct Hk as [Hk|Hk].
    + destruct (staged_not_written_root m k Hk). by left.
    + destruct (cwd_not_written_root m k Hk). by left.
  - intros Hw. destruct Hk as [Hk|Hk].
    + destruct (staged_not_written_root m k Hk). by right.
    + destruct (cwd_not_written_root m k Hk). by right.
Qed.

(** Copying into the install root. *)
Lemma tables_root_copy fsA fsB sA sB m :
  stat fsA sA = stat fsB sB →
  (∀ r, fsA !! (sA ++ r) = fsB !! (sB ++ r)) →
  sA ≠ R ++ m → sB ≠ R ++ m →
  tablesOk SA SB (copyTable fsA sA (R ++ m)) (copyTable fsB sB (R ++ m)).
Proof.
  intros Hst Hsub HsA HsB.
  split; [|split; [|split; [|split; [|split; [|split]]]]].
  - intros k _. apply copyTable_ext; [done..|]. by rewrite !bool_decide_false.
  - intros r. rewrite !copyTable_root_None; [done|left..]; apply staged_under;
      [apply HnB|apply HnA].
  - intros k Hk. split; apply copyTable_root_None; by right.
  - intros k Hk _. apply copyTable_root_None; by left.
  - intros k Hk _. apply copyTable_root_None; by left.
  - intros v. apply copyTable_Dir_outside, not_under_root_tmp.
  - intros v. apply copyTable_Dir_outside, not_under_root_tmp.
Qed.

Lemma tables_root_copy_cwd fsA fsB sc m :
  inv SA SB fsA fsB →
  tablesOk SA SB (copyTable fsA (cwd0 ++ sc) (R ++ m))
                 (copyTable fsB (cwd0 ++ sc) (R ++ m)).
Proof.
  intros ([FA _] & [FB _] & _).
  assert (cwd0 ++ sc ≠ R ++ m) as Hne.
  { intros E. pose proof (apart_under _ _ _ HR (under_app cwd0 sc)) as H.
    rewrite E in H. by rewrite under_app in H. }
  apply tables_root_copy; [| |done..].
  - pose proof cwd0_nonempty. unfold stat. destruct (cwd0 ++ sc) eqn:E.
    + by apply app_eq_nil in E as [? _].
    + rewrite <-E. by rewrite FA, FB by apply under_app.
  - intros r. rewrite <-(assoc_L (++)). by rewrite FA, FB by apply under_app.
Qed.

Lemma tables_root_copy_build fsA fsB pc m :
  inv SA SB fsA fsB →
  tablesOk SA SB (copyTable fsA (SA ++ pc) (R ++ m))
                 (copyTable fsB (SB ++ pc) (R ++ m)).
Proof.
  intros (_ & _ & [_ HJ] & _).
  apply tables_root_copy; [| |apply root_not_staged_key..].
  - unfold stat. cbn. apply (HJ pc).
  - intros r. rewrite <-!(assoc_L (++)). apply HJ.
Qed.

Lemma tables_write p data :
  staged appName p = false → under cwd0 p = false → p ≠ ["tmp"] →
  tablesOk SA SB (writeTable p data) (writeTable p data).
Proof.
  intros Hs Hc Ht. unfold writeTable.
  split; [|split; [|split; [|split; [|split; [|split]]]]]; try done.
  - intros r. rewrite !bool_decide_false; [done|..]; intros E; rewrite <-E in Hs.
    + by rewrite (staged_under nB HnB) in Hs.
    + by rewrite (staged_under nA HnA) in Hs.
  - intros k Hk. rewrite bool_decide_false; [done|]. intros ->. congruence.
  - intros k Hk _. rewrite bool_decide_false; [done|]. intros ->. congruence.
  - intros k Hk _. rewrite bool_decide_false; [done|]. intros ->. congruence.
  - intros v. by rewrite bool_decide_false.
  - intros v. by rewrite bool_decide_false.
Qed.

End Zones.

End Invariants.

(** ** The copies of two runs *)

Section Lockstep.
Context {Env : Type}.
Variable glob : string → list string → FS.t → option (list string).
Variable appName : string.
Variable cwd0 : list string.
Variable fs0 fs1 : FS.t.
Implicit Types (w wA wB : World Env).

Local Abbreviation inv := (inv appName cwd0 fs0 fs1).
Local Abbreviation tablesOk := (tablesOk appName cwd0).
Local Abbreviation lockstep := (lockstep appName cwd0 fs0 fs1).
Local Abbreviation atRest := (atRest appName cwd0 fs0 fs1).

Lemma os_MkdirAll_Ok path w w' :
  os_MkdirAll path w = Ok true w' →
  ∃ p fs', FS.resolve (cwd w) path = Some p ∧ FS.mkdir_all (fs w) p = Some fs'
    ∧ w' = emit (EvMkdirAll path) (set_fs fs' w).
Proof.
  unfold os_MkdirAll. destruct (FS.resolve (cwd w) path) as [p|]; cbn; [|done].
  destruct (FS.mkdir_all (fs w) p) as [fs'|] eqn:E; [|done].
  intros [= <-]. by exists p, fs'.
Qed.

Lemma lockstep_set_fs SA SB wA wB fsA fsB evA evB :
  lockstep SA SB wA wB → inv SA SB fsA fsB →
  lockstep SA SB (emit evA (set_fs fsA wA)) (emit evB (set_fs fsB wB)).
Proof. intros (? & ? & ? & ? & _) ?. red. cbn. by repeat (split; [done|]). Qed.

Lemma mkdir_lockstep SA SB wA wB wA' wB' pathA pathB pA pB :
  lockstep SA SB wA wB →
  FS.resolve cwd0 pathA = Some pA → FS.resolve cwd0 pathB = Some pB →
  tablesOk SA SB (mkdirTable pA) (mkdirTable pB) →
  os_MkdirAll pathA wA = Ok true wA' → os_MkdirAll pathB wB = Ok true wB' →
  lockstep SA SB wA' wB'.
Proof.
  intros Hl HrA HrB HT (pA' & fsA & HA1 & HA2 & ->)%os_MkdirAll_Ok
    (pB' & fsB & HB1 & HB2 & ->)%os_MkdirAll_Ok.
  pose proof Hl as (EA & EB & _ & _ & Hi). rewrite EA, HrA in HA1. rewrite EB, HrB in HB1.
  injection HA1 as <-. injection HB1 as <-.
  apply lockstep_set_fs; [done|].
  eapply inv_step; [exact Hi|by apply mkdir_override..|done].
Qed.

Lemma copy_lockstep SA SB wA wB wA' wB' srcA srcB baseA baseB rootA rootB
    dstA dstB sA sB dA dB :
  lockstep SA SB wA wB →
  relDest srcA baseA rootA = Some dstA → relDest srcB baseB rootB = Some dstB →
  FS.resolve cwd0 (Path.Dir dstA) = Some (FS.parent dA) →
  FS.resolve cwd0 dstA = Some dA → FS.resolve cwd0 srcA = Some sA → sA ≠ [] →
  FS.resolve cwd0 (Path.Dir dstB) = Some (FS.parent dB) →
  FS.resolve cwd0 dstB = Some dB → FS.resolve cwd0 srcB = Some sB → sB ≠ [] →
  tablesOk SA SB (mkdirTable (FS.parent dA)) (mkdirTable (FS.parent dB)) →
  (∀ fsA fsB, inv SA SB fsA fsB →
     tablesOk SA SB (copyTable fsA sA dA) (copyTable fsB sB dB)) →
  copyPreserveRelBase srcA baseA rootA wA = Ok None wA' →
  copyPreserveRelBase srcB baseB rootB wB = Ok None wB' →
  lockstep SA SB wA' wB'.
Proof.
  intros Hl HdA HdB HA1 HA2 HA3 HsA HB1 HB2 HB3 HsB HTm HTc HA HB.
  pose proof Hl as (EA & EB & _ & _ & Hi).
  destruct (copyPreserveRelBase_Ok _ _ _ _ _ _ HdA HA)
    as (sA' & dA' & fsA1 & fsA2 & HmA & HrsA & HrdA & HcA & ->).
  destruct (copyPreserveRelBase_Ok _ _ _ _ _ _ HdB HB)
    as (sB' & dB' & fsB1 & fsB2 & HmB & HrsB & HrdB & HcB & ->).
  rewrite EA in HmA, HrsA, HrdA. rewrite EB in HmB, HrsB, HrdB.
  rewrite HA1 in HmA. rewrite HB1 in HmB. cbn in HmA, HmB.
  rewrite HA2 in HrdA. rewrite HB2 in HrdB. rewrite HA3 in HrsA. rewrite HB3 in HrsB.
  injection HrdA as <-. injection HrdB as <-. injection HrsA as <-. injection HrsB as <-.
  assert (inv SA SB fsA1 fsB1) as Hi1.
  { eapply inv_step; [exact Hi|by apply mkdir_override..|done]. }
  assert (inv SA SB fsA2 fsB2) as Hi2.
  { eapply inv_step; [exact Hi1|exact (copy_override _ _ _ _ HsA HcA)
                      |exact (copy_override _ _ _ _ HsB HcB)|by apply HTc]. }
  destruct Hl as (? & ? & ? & ? & _). red. cbn. by repeat (split; [done|]).
Qed.

Lemma is_rooted_Clean s : Path.is_rooted s = true → Path.is_rooted (Path.Clean s) = true.
Proof. intros Hr. unfold Path.Clean, Path.clean_path, Path.render. by rewrite Hr. Qed.

Lemma is_rooted_Join b p :
  Path.is_rooted b = true → Path.is_rooted (Path.Join [b; p]) = true.
Proof.
  intros Hr. assert (b ≠ "") as Hb by (by destruct b).
  rewrite Join2 by done. apply is_rooted_Clean. by rewrite is_rooted_app.
Qed.

Lemma strictlyInside_Clean p :
  Path.is_rooted p = false → strictlyInside p → Path.Clean p ≠ ".".
Proof.
  intros Hr Hp. destruct (strictlyInside_comps p Hp) as (Hne & Hn & Hs).
  unfold Path.Clean. rewrite clean_path_relative by done.
  unfold Path.render. cbn [Path.rooted Path.comps].
  destruct (Path.clean_comps false (Path.split_slash p)) eqn:E; [done|].
  by apply join_slash_not_dot.
Qed.

Section TwoRuns.
Variables nA nB : string.
Hypothesis HnA : Path.HasPrefix nA (stagingPrefix appName) = true.
Hypothesis HnB : Path.HasPrefix nB (stagingPrefix appName) = true.
Hypothesis Hcwd : Forall FS.valid_name cwd0.
Hypothesis Htmp : apart cwd0 ["tmp"].
Hypothesis HR : apart cwd0 ["opt"; appName].

Local Abbreviation SA := ["tmp"; nA].
Local Abbreviation SB := ["tmp"; nB].
Local Abbreviation R := ["opt"; appName].

Lemma root_under_opt : ∃ R', R = "opt" :: R'.
Proof. by eexists. Qed.

(** One file of the build, copied into the staging directories *)
Lemma build_copy_lockstep p bdA bdB wA wB wA' wB' :
  Path.is_rooted bdA = true → FS.resolve cwd0 bdA = Some SA →
  Path.is_rooted bdB = true → FS.resolve cwd0 bdB = Some SB →
  Path.is_rooted p = false → strictlyInside p →
  lockstep SA SB wA wB →
  copyPreserveRelBase p "." bdA wA = Ok None wA' →
  copyPreserveRelBase p "." bdB wB = Ok None wB' →
  lockstep SA SB wA' wB'.
Proof.
  intros HrA HbA HrB HbB Hp Hin Hl HA HB.
  destruct (strictlyInside_comps p Hin) as (Hne & Hn & Hs).
  set (cs := Path.clean_comps false (Path.split_slash p)) in *.
  assert (bdA ≠ "") as HneA by (by destruct bdA).
  assert (bdB ≠ "") as HneB by (by destruct bdB).
  pose proof (strictlyInside_Clean p Hp Hin) as Hc.
  eapply (copy_lockstep SA SB wA wB wA' wB' p p "." "." bdA bdB
            (Path.Join [bdA; p]) (Path.Join [bdB; p])
            (cwd0 ++ cs) (cwd0 ++ cs) (SA ++ cs) (SB ++ cs)); try done.
  - by apply relDest_cwd.
  - by apply relDest_cwd.
  - by apply resolve_Dir_inside.
  - by apply resolve_Join_inside.
  - by apply resolve_relative_inside.
  - intros E. by apply app_eq_nil in E as [_ ?].
  - by apply resolve_Dir_inside.
  - by apply resolve_Join_inside.
  - by apply resolve_relative_inside.
  - intros E. by apply app_eq_nil in E as [_ ?].
  - rewrite !parent_app by done. eapply tables_build_mkdir; eauto using root_under_opt.
  - intros fsA fsB Hi. eapply tables_build_copy; eauto using root_under_opt.
Qed.

Lemma root_tables_mkdir cs :
  cs ≠ [] →
  tablesOk SA SB (mkdirTable (FS.parent (R ++ cs))) (mkdirTable (FS.parent (R ++ cs))).
Proof.
  intros Hne. rewrite parent_app by done.
  eapply tables_root_mkdir; eauto using root_under_opt.
Qed.

(** One entry of the install, copied into the install root *)
Lemma entry_lockstep e root bdA bdB wA wB wA' wB' :
  Path.is_rooted root = true → FS.resolve cwd0 root = Some R →
  bdA = "" ∨ FS.resolve cwd0 bdA = Some SA →
  bdB = "" ∨ FS.resolve cwd0 bdB = Some SB →
  strictlyInside (File e) →
  lockstep SA SB wA wB →
  installEntry bdA root e wA = Ok tt wA' →
  installEntry bdB root e wB = Ok tt wB' →
  lockstep SA SB wA' wB'.
Proof.
  intros Hr Hroot HbA HbB Hin Hl HA HB.
  destruct (strictlyInside_comps _ Hin) as (Hne & Hn & Hs).
  set (cs := Path.clean_comps false (Path.split_slash (File e))) in *.
  assert (root ≠ "") as Hrne by (by destruct root).
  apply installEntry_Ok in HA as (srcA & baseA & HcA & _ & HA).
  apply installEntry_Ok in HB as (srcB & baseB & HcB & _ & HB).
  destruct HcA as [(Hf & -> & ->)|(Hf & HneA & -> & ->)].
  - destruct HcB as [(_ & -> & ->)|(Hf' & _)]; [|by rewrite Hf in Hf'].
    destruct (Path.is_rooted (File e)) eqn:Hrf.
    { pose proof (copyPreserveRelBase_error (File e) "." root wA None wA') as H.
      unfold relDest in H. rewrite Rel_dot_rooted in H by done. by specialize (H eq_refl HA). }
    pose proof (strictlyInside_Clean _ Hrf Hin) as Hc.
    eapply (copy_lockstep SA SB wA wB wA' wB' (File e) (File e) "." "." root root
              (Path.Join [root; File e]) (Path.Join [root; File e])
              (cwd0 ++ cs) (cwd0 ++ cs) (R ++ cs) (R ++ cs)); try done.
    + by apply relDest_cwd.
    + by apply relDest_cwd.
    + by apply resolve_Dir_inside.
    + by apply resolve_Join_inside.
    + by apply resolve_relative_inside.
    + intros E. by apply app_eq_nil in E as [_ ?].
    + by apply resolve_Dir_inside.
    + by apply resolve_Join_inside.
    + by apply resolve_relative_inside.
    + intros E. by apply app_eq_nil in E as [_ ?].
    + by apply root_tables_mkdir.
    + intros fsA fsB Hi. eapply tables_root_copy_cwd; eauto using root_under_opt.
  - destruct HcB as [(Hf' & _)|(_ & HneB & -> & ->)]; [by rewrite Hf in Hf'|].
    destruct HbA as [?|HbA]; [done|]. destruct HbB as [?|HbB]; [done|].
    eapply (copy_lockstep SA SB wA wB wA' wB' _ _ bdA bdB root root
              (Path.Join [root; File e]) (Path.Join [root; File e])
              (SA ++ cs) (SB ++ cs) (R ++ cs) (R ++ cs)); try done.
    + by apply relDest_build.
    + by apply relDest_build.
    + by apply resolve_Dir_inside.
    + by apply resolve_Join_inside.
    + by apply resolve_Join_inside.
    + by apply resolve_Dir_inside.
    + by apply resolve_Join_inside.
    + by apply resolve_Join_inside.
    + by apply root_tables_mkdir.
    + intros fsA fsB Hi. eapply tables_root_copy_build; eauto using root_under_opt.
Qed.

Lemma entries_lockstep l root bdA bdB wA wB wA' wB' :
  Path.is_rooted root = true → FS.resolve cwd0 root = Some R →
  bdA = "" ∨ FS.resolve cwd0 bdA = Some SA →
  bdB = "" ∨ FS.resolve cwd0 bdB = Some SB →
  Forall (λ e, strictlyInside (File e)) l →
  lockstep SA SB wA wB →
  for_each l (installEntry bdA root) wA = Ok tt wA' →
  for_each l (installEntry bdB root) wB = Ok tt wB' →
  lockstep SA SB wA' wB'.
Proof.
  intros Hr Hroot HbA HbB Hl. revert wA wB.
  induction Hl as [|e l He Hl IH]; intros wA wB Hls HA HB.
  - cbn in HA, HB. by injection HA as <-; injection HB as <-.
  - cbn [for_each] in HA, HB.
    apply bind_Ok in HA as ([] & wA1 & HA1 & HA).
    apply bind_Ok in HB as ([] & wB1 & HB1 & HB).
    eapply IH; [|exact HA|exact HB].
    eapply entry_lockstep; [exact Hr|exact Hroot|exact HbA|exact HbB|exact He|..]; eauto.
Qed.

(** The files one pattern matched, copied into the staging directories *)
Lemma matches_lockstep l bdA bdB wA wB wA' wB' :
  Path.is_rooted bdA = true → FS.resolve cwd0 bdA = Some SA →
  Path.is_rooted bdB = true → FS.resolve cwd0 bdB = Some SB →
  Forall (λ p, Path.is_rooted p = false ∧ strictlyInside p) l →
  lockstep SA SB wA wB →
  for_each l (λ src, bind (copyPreserveRelBase src "." bdA) (λ err,
      match err with Some e => fatal (FCopy e) | None => ret tt end)) wA = Ok tt wA' →
  for_each l (λ src, bind (copyPreserveRelBase src "." bdB) (λ err,
      match err with Some e => fatal (FCopy e) | None => ret tt end)) wB = Ok tt wB' →
  lockstep SA SB wA' wB'.
Proof.
  intros HrA HbA HrB HbB Hl. revert wA wB.
  induction Hl as [|p l [Hp Hin] Hl IH]; intros wA wB Hls HA HB.
  - cbn in HA, HB. by injection HA as <-; injection HB as <-.
  - cbn [for_each] in HA, HB.
    apply bind_Ok in HA as ([] & wA1 & HA1 & HA).
    apply bind_Ok in HB as ([] & wB1 & HB1 & HB).
    apply bind_Ok in HA1 as (eA & wA2 & HA1 & HA2).
    apply bind_Ok in HB1 as (eB & wB2 & HB1 & HB2).
    destruct eA; [done|]. destruct eB; [done|].
    injection HA2 as <-. injection HB2 as <-.
    eapply IH; [|exact HA|exact HB].
    eapply build_copy_lockstep; [exact HrA|exact HbA|exact HrB|exact HbB|exact Hp|exact Hin|..];
      eauto.
Qed.

Lemma patterns_lockstep pats bdA bdB wA wB wA' wB' :
  Path.is_rooted bdA = true → FS.resolve cwd0 bdA = Some SA →
  Path.is_rooted bdB = true → FS.resolve cwd0 bdB = Some SB →
  globInProject glob cwd0 pats →
  lockstep SA SB wA wB →
  for_each pats (λ pattern, bind (filepath_Glob glob pattern) (λ matches,
      match matches with
      | None => fatal (FBadGlob pattern)
      | Some matches =>
          for_each matches (λ src, bind (copyPreserveRelBase src "." bdA) (λ err,
            match err with Some e => fatal (FCopy e) | None => ret tt end))
      end)) wA = Ok tt wA' →
  for_each pats (λ pattern, bind (filepath_Glob glob pattern) (λ matches,
      match matches with
      | None => fatal (FBadGlob pattern)
      | Some matches =>
          for_each matches (λ src, bind (copyPreserveRelBase src "." bdB) (λ err,
            match err with Some e => fatal (FCopy e) | None => ret tt end))
      end)) wB = Ok tt wB' →
  lockstep SA SB wA' wB'.
Proof.
  intros HrA HbA HrB HbB. revert wA wB.
  induction pats as [|pat pats IH]; intros wA wB Hg Hls HA HB.
  - cbn in HA, HB. by injection HA as <-; injection HB as <-.
  - cbn [for_each] in HA, HB.
    apply bind_Ok in HA as ([] & wA1 & HA1 & HA).
    apply bind_Ok in HB as ([] & wB1 & HB1 & HB).
    apply bind_Ok in HA1 as (mA & wA2 & HA1 & HA2).
    apply bind_Ok in HB1 as (mB & wB2 & HB1 & HB2).
    unfold filepath_Glob in HA1, HB1.
    injection HA1 as <- <-. injection HB1 as <- <-.
    pose proof Hls as (EA & EB & _ & _ & [FA _] & [FB _] & _).
    destruct (Hg pat) as [Hin Hloc]; [apply elem_of_cons; by left|].
    rewrite EA in HA2. rewrite EB in HB2.
    rewrite (Hloc (fs wB) (fs wA)) in HB2.
    2:{ intros k Hk. by rewrite FA, FB. }
    destruct (glob pat cwd0 (fs wA)) as [ms|] eqn:Em; [|done].
    eapply IH; [|..|exact HA|exact HB].
    + intros q Hq. apply Hg. apply elem_of_cons. by right.
    + eapply (matches_lockstep ms bdA bdB wA wB);
        [exact HrA|exact HbA|exact HrB|exact HbB|by eapply Hin|exact Hls
        |exact HA2|exact HB2].
Qed.

End TwoRuns.

End Lockstep.

(** ** The build stage of two runs *)

Section Build.
Context {Env : Type}.
Variable systemctl : list string → Env → bool * Env.
Variable bash : string → string → FS.t → Env → bool * FS.t * Env.
Variable glob : string → list string → FS.t → option (list string).
Variable random : Env → N * Env.
Variable appName : string.
Variable cwd0 : list string.
Variable fs0 fs1 : FS.t.
Implicit Types (w wA wB : World Env).

Local Abbreviation inv := (inv appName cwd0 fs0 fs1).
Local Abbreviation lockstep := (lockstep appName cwd0 fs0 fs1).
Local Abbreviation atRest := (atRest appName cwd0 fs0 fs1).

Lemma split_last_star_None s :
  "*"%char ∉ String.list_ascii_of_string s → split_last_star s = None.
Proof.
  induction s as [|c s IH]; [done|]. cbn. rewrite not_elem_of_cons. intros [Hc Hs].
  rewrite IH by done. destruct (Ascii.eqb_spec c "*"); [congruence|done].
Qed.

Lemma prefixAndSuffix_staging :
  no_slash appName → "*"%char ∉ String.list_ascii_of_string appName →
  prefixAndSuffix ("qp_build_" +:+ appName +:+ "_") = Some (stagingPrefix appName, "").
Proof.
  intros Hs Hstar. unfold prefixAndSuffix. rewrite bool_decide_false.
  2:{ apply no_slash_app; [apply no_slash_literal_qp|]. apply no_slash_app; [done|].
      unfold no_slash. cbn. rewrite not_elem_of_cons. split; [done|apply not_elem_of_nil]. }
  rewrite split_last_star_None; [done|].
  rewrite !chars_app. rewrite !not_elem_of_app. split; [|split; [done|]].
  - cbn. rewrite !not_elem_of_cons. repeat split; try done. apply not_elem_of_nil.
  - cbn. rewrite !not_elem_of_cons. repeat split; try done. apply not_elem_of_nil.
Qed.

Lemma mkdir_temp_try_staging tries w name w' :
  FS.valid_name appName →
  mkdir_temp_try random tries ("/tmp" +:+ "/" +:+ stagingPrefix appName) "" w
    = Ok (Some name) w' →
  ∃ r, name = "/tmp" +:+ "/" +:+ stagingName appName r
    ∧ fs w !! ["tmp"] = Some FS.Dir
    ∧ fs w' = <[["tmp"; stagingName appName r] := FS.Dir]> (fs w)
    ∧ cwd w' = cwd w ∧ TMPDIR w' = TMPDIR w.
Proof.
  intros Hv. destruct (valid_name_normal _ Hv) as [_ Hs].
  revert w. induction tries as [|n IH]; intros w; [done|].
  cbn [mkdir_temp_try]. destruct (random (env w)) as [r e].
  change (("/tmp" +:+ "/" +:+ stagingPrefix appName) +:+ pretty r +:+ "")
    with ("/tmp" +:+ "/" +:+ stagingName appName r).
  cbn [cwd set_env fs].
  rewrite (resolve_tmp_child (cwd w) _ (stagingName_valid appName r Hs)).
  unfold FS.mkdir. cbn [FS.stat].
  destruct (fs w !! ["tmp"; stagingName appName r]) eqn:E.
  - intros H. destruct (IH _ H) as (r' & ? & ? & ? & ? & ?). by exists r'.
  - unfold FS.is_dir. case_bool_decide as Hd; [|done].
    intros [= <- <-]. exists r. by repeat split.
Qed.

Lemma os_MkdirTemp_staging w name w' :
  FS.valid_name appName → "*"%char ∉ String.list_ascii_of_string appName →
  os_MkdirTemp random "/tmp" ("qp_build_" +:+ appName +:+ "_") w = Ok (Some name) w' →
  ∃ r, name = "/tmp" +:+ "/" +:+ stagingName appName r
    ∧ fs w !! ["tmp"] = Some FS.Dir
    ∧ fs w' = <[["tmp"; stagingName appName r] := FS.Dir]> (fs w)
    ∧ cwd w' = cwd w ∧ TMPDIR w' = TMPDIR w.
Proof.
  intros Hv Hstar. destruct (valid_name_normal _ Hv) as [_ Hs].
  unfold os_MkdirTemp. rewrite prefixAndSuffix_staging by done.
  by apply mkdir_temp_try_staging.
Qed.

Lemma staging_key_apart n k : apart cwd0 ["tmp"] → FS.under cwd0 k = true → k ≠ ["tmp"; n].
Proof.
  intros Htmp Hk ->. pose proof (apart_under _ _ _ Htmp Hk) as H.
  assert (FS.under ["tmp"] ["tmp"; n] = true); [|congruence].
  apply under_spec. by exists [n].
Qed.

(** After each run has made its staging directory. *)
Lemma lockstep_start nA nB wA wB wA' wB' :
  Path.HasPrefix nA (stagingPrefix appName) = true →
  Path.HasPrefix nB (stagingPrefix appName) = true →
  apart cwd0 ["tmp"] →
  atRest wA wB →
  fs wA !! ["tmp"] = Some FS.Dir → fs wB !! ["tmp"] = Some FS.Dir →
  fs wA' = <[["tmp"; nA] := FS.Dir]> (fs wA) → cwd wA' = cwd wA → TMPDIR wA' = TMPDIR wA →
  fs wB' = <[["tmp"; nB] := FS.Dir]> (fs wB) → cwd wB' = cwd wB → TMPDIR wB' = TMPDIR wB →
  lockstep ["tmp"; nA] ["tmp"; nB] wA' wB'.
Proof.
  intros HnA HnB Htmp (EA & EB & TA & TB & CA & CB & NA & NB & HG) HtA HtB
    HfA HcA HtmpA HfB HcB HtmpB.
  assert (∀ n r, Path.HasPrefix n (stagingPrefix appName) = true →
            staged appName (["tmp"; n] ++ r) = true) as Hst.
  { intros n r Hn. cbn. by rewrite Hn. }
  split; [congruence|]. split; [congruence|]. split; [congruence|]. split; [congruence|].
  rewrite HfA, HfB. split; [|split; [|split; [|split; [|split; [|split]]]]].
  - split.
    + intros k Hk. rewrite lookup_insert_ne by (symmetry; by apply staging_key_apart).
      by apply CA.
    + intros k Hk Hu. rewrite lookup_insert_ne; [by apply NA|].
      intros <-. by rewrite under_refl in Hu.
  - split.
    + intros k Hk. rewrite lookup_insert_ne by (symmetry; by apply staging_key_apart).
      by apply CB.
    + intros k Hk Hu. rewrite lookup_insert_ne; [by apply NB|].
      intros <-. by rewrite under_refl in Hu.
  - split.
    + intros k Hk. rewrite !lookup_insert_ne; [by apply HG|..]; intros <-.
      * pose proof (Hst nA [] HnA) as H. cbn [app] in H. congruence.
      * pose proof (Hst nB [] HnB) as H. cbn [app] in H. congruence.
    + intros r. destruct r as [|c r].
      * cbn [app]. by rewrite !lookup_insert_eq.
      * rewrite !lookup_insert_ne.
        -- rewrite NA, NB; [done|by apply Hst..].
        -- intros E. by apply (f_equal length) in E.
        -- intros E. by apply (f_equal length) in E.
  - by rewrite lookup_insert_ne.
  - by rewrite lookup_insert_ne.
  - by rewrite lookup_insert_eq.
  - by rewrite lookup_insert_eq.
Qed.

Lemma is_rooted_tmp_child n : Path.is_rooted ("/tmp" +:+ "/" +:+ n) = true.
Proof. done. Qed.

(** The build stage of two runs. *)
Lemma doBuild_lockstep (cfg : Config) wA wB wA' wB' :
  AppName cfg = appName → BuildScript cfg = "" →
  FS.valid_name appName → "*"%char ∉ String.list_ascii_of_string appName →
  Forall FS.valid_name cwd0 → apart cwd0 ["tmp"] → apart cwd0 ["opt"; appName] →
  globInProject glob cwd0 (BuildFiles cfg) →
  atRest wA wB →
  doBuild bash glob random cfg wA = Ok tt wA' →
  doBuild bash glob random cfg wB = Ok tt wB' →
  ∃ nA nB,
    Path.HasPrefix nA (stagingPrefix appName) = true
    ∧ Path.HasPrefix nB (stagingPrefix appName) = true
    ∧ FS.valid_name nA ∧ FS.valid_name nB
    ∧ lockstep ["tmp"; nA] ["tmp"; nB] wA' wB'.
Proof.
  intros HA HBS Hv Hstar Hcwd Htmp HR Hg Hrest HrunA HrunB.
  destruct (valid_name_normal _ Hv) as [_ Hs].
  unfold doBuild in HrunA, HrunB. rewrite HA, HBS in HrunA, HrunB.
  apply bind_Ok in HrunA as (mA & wA1 & HmA & HrunA).
  apply bind_Ok in HrunB as (mB & wB1 & HmB & HrunB).
  destruct mA as [bdA|]; [|done]. destruct mB as [bdB|]; [|done].
  apply os_MkdirTemp_staging in HmA as (rA & -> & HtA & HfA & HcA & HtmA); [|done..].
  apply os_MkdirTemp_staging in HmB as (rB & -> & HtB & HfB & HcB & HtmB); [|done..].
  apply bind_Ok in HrunA as ([] & wA2 & HlA & HrunA).
  apply bind_Ok in HrunB as ([] & wB2 & HlB & HrunB).
  rewrite bool_decide_false in HrunA, HrunB by (by intros ?).
  injection HrunA as <-. injection HrunB as <-.
  exists (stagingName appName rA), (stagingName appName rB).
  split; [apply stagingName_prefix|]. split; [apply stagingName_prefix|].
  split; [by apply stagingName_valid|]. split; [by apply stagingName_valid|].
  pose proof Hrest as (EA & EB & _).
  eapply (patterns_lockstep glob appName cwd0 fs0 fs1
            (stagingName appName rA) (stagingName appName rB));
    [apply stagingName_prefix|apply stagingName_prefix|done|done
    | | | | | | |exact HlA|exact HlB].
  - apply is_rooted_tmp_child.
  - apply resolve_tmp_child. by apply stagingName_valid.
  - apply is_rooted_tmp_child.
  - apply resolve_tmp_child. by apply stagingName_valid.
  - done.
  - eapply lockstep_start; eauto using stagingName_prefix.
Qed.

End Build.

(** ** The install stage of two runs *)

Section Units.

Lemma unit_file_name_valid (cfg : Config) :
  no_slash (AppName cfg) →
  FS.valid_name (UnitName (UnitFromConfig cfg) +:+ ".service").
Proof.
  intros Hs. set (n := UnitName _).
  assert (∀ s, n +:+ ".service" = s → 8 ≤ length (String.list_ascii_of_string s)) as Hlen.
  { intros s <-. rewrite chars_app, length_app. cbn. lia. }
  split; [|split; [|split]].
  - intros E. apply Hlen in E. cbn in E. lia.
  - intros E. apply Hlen in E. cbn in E. lia.
  - intros E. apply Hlen in E. cbn in E. lia.
  - apply no_slash_app.
    + subst n. unfold UnitName, UnitFromConfig. cbn. destruct (SystemdRunAsUser cfg); [|done].
      apply no_slash_app; [done|]. unfold no_slash. cbn.
      rewrite not_elem_of_cons. split; [done|apply not_elem_of_nil].
    + unfold no_slash. cbn. rewrite !not_elem_of_cons. repeat split; try done.
      apply not_elem_of_nil.
Qed.

Lemma resolve_unit_path (cwd0 : list string) (cfg : Config) :
  no_slash (AppName cfg) →
  FS.resolve cwd0 (UnitPath (UnitFromConfig cfg)) = Some (unitKey cfg).
Proof.
  intros Hs. pose proof (unit_file_name_valid cfg Hs) as Hv.
  destruct (valid_name_normal _ Hv) as [Hn Hsl].
  unfold UnitPath, unitKey. set (n := UnitName _ +:+ ".service") in *.
  change ("/usr/lib/systemd/system/" +:+ n)
    with ("/usr/lib/systemd/system" +:+ "/" +:+ n).
  rewrite (resolve_rooted cwd0 ("/usr/lib/systemd/system" +:+ "/" +:+ n)) by done.
  rewrite (clean_path_app "/usr/lib/systemd/system" n) by done.
  rewrite split_slash_single by done. cbn [fold_left Path.comps].
  rewrite clean_push_normal by done. done.
Qed.

End Units.

Section Install.
Context {Env : Type}.
Variable systemctl : list string → Env → bool * Env.
Variable appName : string.
Variable cwd0 : list string.
Variable fs0 fs1 : FS.t.
Implicit Types (w wA wB : World Env).

Local Abbreviation inv := (inv appName cwd0 fs0 fs1).
Local Abbreviation tablesOk := (tablesOk appName cwd0).
Local Abbreviation lockstep := (lockstep appName cwd0 fs0 fs1).
Local Abbreviation atRest := (atRest appName cwd0 fs0 fs1).

Lemma sameFiles_refl w : sameFiles w w.
Proof. done. Qed.

Lemma sameFiles_trans w1 w2 w3 : sameFiles w1 w2 → sameFiles w2 w3 → sameFiles w1 w3.
Proof. intros (? & ? & ?) (? & ? & ?). repeat split; congruence. Qed.

Lemma run_systemctl_sameFiles args w b w' :
  run_systemctl systemctl args w = Ok b w' → sameFiles w w'.
Proof.
  unfold run_systemctl. destruct (systemctl args (env w)) as [ok e].
  by intros [= _ <-].
Qed.

Lemma waitStopped_sameFiles fuel name w w' :
  waitStopped systemctl fuel name w = Ok tt w' → sameFiles w w'.
Proof.
  revert w. induction fuel as [|n IH]; intros w; [done|]. cbn [waitStopped].
  intros (active & w1 & H1 & H)%bind_Ok. apply run_systemctl_sameFiles in H1.
  destruct active.
  - eapply sameFiles_trans; [exact H1|by apply IH].
  - by injection H as <-.
Qed.

Lemma stopIfActive_sameFiles fuel cfg w w' :
  stopIfActive systemctl fuel cfg w = Ok tt w' → sameFiles w w'.
Proof.
  unfold stopIfActive. destruct (Systemd cfg); [|by intros [= <-]].
  intros (active & w1 & H1 & H)%bind_Ok. apply run_systemctl_sameFiles in H1.
  destruct active; [|by injection H as <-].
  apply bind_Ok in H as (stopped & w2 & H2 & H). apply run_systemctl_sameFiles in H2.
  destruct stopped; [|done]. cbn [negb] in H. apply waitStopped_sameFiles in H.
  eauto using sameFiles_trans.
Qed.

Lemma lockstep_sameFiles SA SB wA wB wA' wB' :
  lockstep SA SB wA wB → sameFiles wA wA' → sameFiles wB wB' →
  lockstep SA SB wA' wB'.
Proof.
  intros (? & ? & ? & ? & ?) (EA & ? & ?) (EB & ? & ?). red.
  rewrite EA, EB. repeat (split; [congruence|]). done.
Qed.

Lemma os_WriteFile_Ok path data w w' :
  os_WriteFile path data w = Ok true w' →
  ∃ p, FS.resolve (cwd w) path = Some p
    ∧ fs w' = <[p := FS.File data]> (fs w) ∧ cwd w' = cwd w ∧ TMPDIR w' = TMPDIR w.
Proof.
  unfold os_WriteFile. destruct (FS.resolve (cwd w) path) as [p|]; cbn; [|done].
  unfold FS.write_file. destruct (FS.stat (fs w) p) as [[?|]|];
    try destruct (FS.is_dir _ _); try done; intros [= <-]; by exists p.
Qed.

Lemma write_override (fs : FS.t) p data :
  override (writeTable p data) fs (<[p := FS.File data]> fs).
Proof.
  intros k. unfold writeTable. case_bool_decide as E.
  - subst k. by rewrite lookup_insert_eq.
  - by rewrite lookup_insert_ne.
Qed.

Lemma lockstep_of_fs SA SB wA wB wA' wB' :
  lockstep SA SB wA wB →
  cwd wA' = cwd wA → TMPDIR wA' = TMPDIR wA →
  cwd wB' = cwd wB → TMPDIR wB' = TMPDIR wB →
  inv SA SB (fs wA') (fs wB') →
  lockstep SA SB wA' wB'.
Proof.
  intros (? & ? & ? & ? & _) ? ? ? ? ?. red.
  repeat (split; [congruence|]). done.
Qed.

Lemma startService_Ok_files cfg w w' :
  startService systemctl cfg w = Ok tt w' →
  Systemd cfg = false ∧ w' = w
  ∨ Systemd cfg = true
    ∧ ∃ w1, os_WriteFile (UnitPath (UnitFromConfig cfg))
              (GenerateFile (UnitFromConfig cfg)) w = Ok true w1
            ∧ sameFiles w1 w'.
Proof.
  unfold startService. destruct (Systemd cfg); [|intros [= <-]; by left].
  intros (installed & w1 & Hi & H)%bind_Ok. right. split; [done|].
  destruct installed; [|done]. cbn [negb] in H.
  apply bind_Ok in H as (started & w2 & Hs & H). apply run_systemctl_sameFiles in Hs.
  destruct started; [|done]. injection H as <-.
  unfold installSystemdUnit in Hi.
  apply bind_Ok in Hi as (written & w3 & Hw & Hi).
  destruct written; [|done]. cbn [negb] in Hi.
  apply bind_Ok in Hi as (reloaded & w4 & Hr & Hi). apply run_systemctl_sameFiles in Hr.
  destruct reloaded; [|done]. cbn [negb] in Hi. apply run_systemctl_sameFiles in Hi.
  exists w3. split; [done|]. eauto using sameFiles_trans.
Qed.

Section TwoRuns.
Variables nA nB : string.
Hypothesis HnA : Path.HasPrefix nA (stagingPrefix appName) = true.
Hypothesis HnB : Path.HasPrefix nB (stagingPrefix appName) = true.
Hypothesis HvA : FS.valid_name nA.
Hypothesis HvB : FS.valid_name nB.
Hypothesis Hv : FS.valid_name appName.
Hypothesis Hcwd : Forall FS.valid_name cwd0.
Hypothesis Htmp : apart cwd0 ["tmp"].
Hypothesis HR : apart cwd0 ["opt"; appName].

Local Abbreviation SA := ["tmp"; nA].
Local Abbreviation SB := ["tmp"; nB].
Local Abbreviation R := ["opt"; appName].

Lemma startService_lockstep cfg wA wB wA' wB' :
  AppName cfg = appName → FS.under cwd0 (unitKey cfg) = false →
  lockstep SA SB wA wB →
  startService systemctl cfg wA = Ok tt wA' →
  startService systemctl cfg wB = Ok tt wB' →
  lockstep SA SB wA' wB'.
Proof.
  intros HA Hu Hl HrA HrB.
  destruct (valid_name_normal _ Hv) as [_ Hs]. rewrite <-HA in Hs.
  apply startService_Ok_files in HrA as [[HsA ->]|(HsA & wA1 & HwA & HfA)];
    apply startService_Ok_files in HrB as [[HsB ->]|(HsB & wB1 & HwB & HfB)];
    try congruence.
  eapply lockstep_sameFiles; [|exact HfA|exact HfB].
  pose proof Hl as (EA & EB & _ & _ & Hi).
  apply os_WriteFile_Ok in HwA as (pA & HpA & HfsA & ? & ?).
  apply os_WriteFile_Ok in HwB as (pB & HpB & HfsB & ? & ?).
  rewrite EA, resolve_unit_path in HpA by done.
  rewrite EB, resolve_unit_path in HpB by done.
  injection HpA as <-. injection HpB as <-.
  eapply lockstep_of_fs; [exact Hl|done..|]. rewrite HfsA, HfsB.
  eapply inv_step; [exact Hi|apply write_override..|].
  eapply (tables_write appName cwd0 nA nB); eauto.
Qed.

Lemma resolve_tmp (c : list string) : FS.resolve c "/tmp" = Some ["tmp"].
Proof. done. Qed.

Lemma staged_cons_inv k :
  staged appName k = true →
  ∃ name rest, k = "tmp" :: name :: rest
    ∧ Path.HasPrefix name (stagingPrefix appName) = true.
Proof.
  destruct k as [|t [|name rest]]; [done..|]. cbn.
  intros [Ht Hp]%andb_true_iff. apply bool_decide_eq_true in Ht as ->. by eexists _, _.
Qed.

Lemma frame_entry (n : string) (f : FS.t) (name : string) :
  frame appName cwd0 fs0 ["tmp"; n] f →
  Path.HasPrefix name (stagingPrefix appName) = true →
  is_Some (f !! ["tmp"; name]) → name = n.
Proof.
  intros [_ Hf] Hp [v Hl]. destruct (FS.under ["tmp"; n] ["tmp"; name]) eqn:E.
  - apply under_spec in E as [r Hr]. by injection Hr.
  - rewrite Hf in Hl; [done| |done]. cbn. by rewrite Hp.
Qed.

(** The staging directory an install finds is the one its build made. *)
Lemma findTempBuildDir_staging (n : string) w bd found w' :
  cwd w = cwd0 → TMPDIR w = "" → FS.valid_name n →
  frame appName cwd0 fs0 ["tmp"; n] (fs w) →
  findTempBuildDir appName w = Ok (bd, found) w' →
  w' = w ∧ (bd = "" ∨ FS.resolve cwd0 bd = Some ["tmp"; n]).
Proof.
  intros Hc Ht Hn Hf. rewrite findTempBuildDir_spec. unfold stagingDirs, tempDir.
  rewrite Ht, Hc. rewrite bool_decide_true by done. rewrite resolve_tmp. cbn [mbind option_bind].
  destruct (FS.read_dir (fs w) ["tmp"]) as [entries|] eqn:Hrd.
  2:{ intros [= <- _ <-]. auto. }
  destruct (filter _ entries) as [|name l] eqn:Hfl.
  { intros [= <- _ <-]. auto. }
  intros [= <- _ <-]. split; [done|]. right.
  assert (name ∈ filter (λ name, Path.HasPrefix name (stagingPrefix appName) = true) entries)
    as [Hp Hin]%list_elem_of_filter by (rewrite Hfl; apply elem_of_cons; by left).
  apply (read_dir_elem _ _ _ _ Hrd) in Hin.
  assert (name = n) as -> by (by eapply frame_entry).
  by apply (resolve_Join_child cwd0 "/tmp" n ["tmp"]).
Qed.

(** The cleanup of an install removes the staging directory of its build,
    and nothing else. *)
Lemma removeBuildDirs_staging cfg (n : string) w w' :
  AppName cfg = appName → cwd w = cwd0 → TMPDIR w = "" → FS.valid_name n →
  frame appName cwd0 fs0 ["tmp"; n] (fs w) →
  fs w !! ["tmp"] = Some FS.Dir → is_Some (fs w !! ["tmp"; n]) →
  removeBuildDirs cfg w = Ok tt w' →
  cwd w' = cwd0 ∧ TMPDIR w' = ""
  ∧ ∀ k, fs w' !! k = if staged appName k then None else fs w !! k.
Proof.
  intros HA Hc Ht Hn Hf Htmpd Hex. unfold removeBuildDirs.
  unfold bind at 1 2. unfold os_TempDir, os_ReadDir, tempDir.
  rewrite Ht, Hc. rewrite bool_decide_true by done. rewrite resolve_tmp. cbn [mbind option_bind].
  unfold FS.read_dir, FS.is_dir. cbn [FS.stat]. rewrite Htmpd.
  rewrite bool_decide_true by done. set (entries := merge_sort _ _).
  assert (FS.read_dir (fs w) ["tmp"] = Some entries) as Hrd.
  { unfold FS.read_dir, FS.is_dir. cbn [FS.stat]. rewrite Htmpd.
    by rewrite bool_decide_true. }
  rewrite HA. fold (stagingPrefix appName).
  destruct (removal_loop (stagingPrefix appName) "/tmp" entries w ["tmp"])
    as (w'' & Hrun & Hc' & Ht' & Hfs).
  { by rewrite Hc. }
  { apply Forall_forall. intros name Hin Hp.
    apply (read_dir_elem _ _ _ _ Hrd) in Hin.
    by rewrite (frame_entry n (fs w) name Hf Hp Hin). }
  rewrite Hrun. intros [= <-]. split; [congruence|]. split; [congruence|].
  intros k. rewrite Hfs. destruct (staged appName k) eqn:Hs.
  - case_bool_decide as Hx; [done|]. destruct (fs w !! k) as [v|] eqn:Hk; [|done].
    destruct Hx. apply staged_cons_inv in Hs as (name & rest & -> & Hp).
    destruct (FS.under ["tmp"; n] ("tmp" :: name :: rest)) eqn:Hu.
    + apply under_spec in Hu as [r Hr]. injection Hr as -> ->.
      apply Exists_exists. exists n. split.
      * by apply (read_dir_elem _ _ _ _ Hrd).
      * split; [done|]. apply under_spec. by exists r.
    + destruct Hf as [_ Hf]. rewrite Hf in Hk; [done| |done]. cbn. by rewrite Hp.
  - rewrite bool_decide_false; [done|]. intros (name & _ & Hp & Hu)%Exists_exists.
    apply under_spec in Hu as [r ->]. cbn in Hs. by rewrite Hp in Hs.
Qed.

Lemma unstaged_in_project k : FS.under cwd0 k = true → staged appName k = false.
Proof.
  intros Hk. destruct (staged appName k) eqn:Hs; [|done].
  apply staged_cons_inv in Hs as (name & rest & -> & _).
  pose proof (apart_under _ _ _ Htmp Hk) as H.
  assert (FS.under ["tmp"] ("tmp" :: name :: rest) = true); [|congruence].
  apply under_spec. by eexists.
Qed.

Lemma removeBuildDirs_lockstep cfg wA wB wA' wB' :
  AppName cfg = appName →
  lockstep SA SB wA wB →
  removeBuildDirs cfg wA = Ok tt wA' →
  removeBuildDirs cfg wB = Ok tt wB' →
  atRest wA' wB'.
Proof.
  intros HA (EA & EB & TA & TB & FA & FB & [HG _] & HtA & HtB & HeA & HeB) HrA HrB.
  destruct FA as [FA FA']. destruct FB as [FB FB'].
  apply (removeBuildDirs_staging cfg nA) in HrA as (? & ? & HfA); [|done..].
  apply (removeBuildDirs_staging cfg nB) in HrB as (? & ? & HfB); [|done..].
  split; [done|]. split; [done|]. split; [done|]. split; [done|].
  split; [|split; [|split; [|split]]].
  - intros k Hk. rewrite HfA, unstaged_in_project by done. by apply FA.
  - intros k Hk. rewrite HfB, unstaged_in_project by done. by apply FB.
  - intros k Hk. by rewrite HfA, Hk.
  - intros k Hk. by rewrite HfB, Hk.
  - intros k Hk. rewrite HfA, HfB, Hk. by apply HG.
Qed.

End TwoRuns.

End Install.

(** ** Installing twice *)

Section Reinstall.
Context {Env : Type}.
Variable systemctl : list string → Env → bool * Env.
Variable bash : string → string → FS.t → Env → bool * FS.t * Env.
Variable glob : string → list string → FS.t → option (list string).
Variable random : Env → N * Env.
Implicit Types (w wA wB : World Env).

Lemma resolve_installRoot (cwd0 : list string) cfg :
  FS.valid_name (AppName cfg) →
  FS.resolve cwd0 (Path.Join [InstallPath; AppName cfg]) = Some (rootKey cfg).
Proof. intros Hv. by apply (resolve_Join_child cwd0 InstallPath _ ["opt"]). Qed.

Lemma doInstall_lockstep cfg cwd0 fs0 fs1 nA nB fuelA fuelB wA wB wA' wB' :
  Path.HasPrefix nA (stagingPrefix (AppName cfg)) = true →
  Path.HasPrefix nB (stagingPrefix (AppName cfg)) = true →
  FS.valid_name nA → FS.valid_name nB →
  FS.valid_name (AppName cfg) → InstallScript cfg = "" →
  Forall (λ e, strictlyInside (File e)) (InstallFiles cfg) →
  projectApart cfg cwd0 →
  lockstep (AppName cfg) cwd0 fs0 fs1 ["tmp"; nA] ["tmp"; nB] wA wB →
  doInstall systemctl bash fuelA cfg wA = Ok tt wA' →
  doInstall systemctl bash fuelB cfg wB = Ok tt wB' →
  atRest (AppName cfg) cwd0 fs0 fs1 wA' wB'.
Proof.
  intros HnA HnB HvA HvB Hv HIS Hent (Hcwd & Htmp & HR & Hunit) Hl HrA HrB.
  unfold doInstall in HrA, HrB.
  apply bind_Ok in HrA as ([] & wA1 & HsA & HrA).
  apply bind_Ok in HrB as ([] & wB1 & HsB & HrB).
  apply stopIfActive_sameFiles in HsA, HsB.
  pose proof (lockstep_sameFiles _ _ _ _ _ _ _ _ _ _ Hl HsA HsB) as Hl1.
  apply bind_Ok in HrA as (madeA & wA2 & HmA & HrA).
  apply bind_Ok in HrB as (madeB & wB2 & HmB & HrB).
  destruct madeA; [|done]. destruct madeB; [|done]. cbn [negb] in HrA, HrB.
  assert (lockstep (AppName cfg) cwd0 fs0 fs1 ["tmp"; nA] ["tmp"; nB] wA2 wB2) as Hl2.
  { eapply (mkdir_lockstep _ _ _ _ _ _ wA1 wB1 wA2 wB2 _ _ (rootKey cfg) (rootKey cfg));
      [exact Hl1|by apply resolve_installRoot|by apply resolve_installRoot| 
      |exact HmA|exact HmB].
    apply (tables_root_mkdir (AppName cfg) cwd0 nA nB HnA HnB (rootKey cfg) HR
             ltac:(by eexists) []). }
  apply bind_Ok in HrA as ([bdA foundA] & wA3 & HfA & HrA).
  apply bind_Ok in HrB as ([bdB foundB] & wB3 & HfB & HrB).
  pose proof Hl2 as (EA & EB & TA & TB & FA & FB & _).
  apply (findTempBuildDir_staging _ cwd0 fs0 nA) in HfA as [-> HbA]; [|done..].
  apply (findTempBuildDir_staging _ cwd0 fs0 nB) in HfB as [-> HbB]; [|done..].
  cbn [fst] in HrA, HrB.
  apply bind_Ok in HrA as ([] & wA4 & HeA & HrA).
  apply bind_Ok in HrB as ([] & wB4 & HeB & HrB).
  assert (lockstep (AppName cfg) cwd0 fs0 fs1 ["tmp"; nA] ["tmp"; nB] wA4 wB4) as Hl4.
  { eapply (entries_lockstep (AppName cfg) cwd0 fs0 fs1 nA nB);
      [done..| | |exact HbA|exact HbB|exact Hent|exact Hl2|exact HeA|exact HeB].
    - by apply is_rooted_Join.
    - by apply resolve_installRoot. }
  unfold installScriptStep in HrA, HrB. rewrite HIS in HrA, HrB.
  rewrite bool_decide_false in HrA, HrB by (by intros ?).
  apply bind_Ok in HrA as ([] & wA5 & HiA & HrA).
  apply bind_Ok in HrB as ([] & wB5 & HiB & HrB).
  injection HiA as <-. injection HiB as <-.
  apply bind_Ok in HrA as ([] & wA6 & HuA & HrA).
  apply bind_Ok in HrB as ([] & wB6 & HuB & HrB).
  assert (lockstep (AppName cfg) cwd0 fs0 fs1 ["tmp"; nA] ["tmp"; nB] wA6 wB6) as Hl6.
  { eapply (startService_lockstep systemctl (AppName cfg) cwd0 fs0 fs1 nA nB); eauto. }
  eapply (removeBuildDirs_lockstep (AppName cfg) cwd0 fs0 fs1 nA nB); eauto.
Qed.

Lemma installAction_atRest cfg cwd0 fs0 fs1 fuelA fuelB wA wB wA' wB' :
  plainName (AppName cfg) →
  BuildScript cfg = "" → InstallScript cfg = "" →
  Forall (λ e, strictlyInside (File e)) (InstallFiles cfg) →
  projectApart cfg cwd0 →
  globInProject glob cwd0 (BuildFiles cfg) →
  atRest (AppName cfg) cwd0 fs0 fs1 wA wB →
  installAction systemctl bash glob random fuelA cfg wA = Ok tt wA' →
  installAction systemctl bash glob random fuelB cfg wB = Ok tt wB' →
  atRest (AppName cfg) cwd0 fs0 fs1 wA' wB'.
Proof.
  intros [Hv Hstar] HBS HIS Hent Hproj Hg Hrest HrA HrB.
  unfold installAction in HrA, HrB.
  apply bind_Ok in HrA as ([] & wA1 & HbA & HrA).
  apply bind_Ok in HrB as ([] & wB1 & HbB & HrB).
  pose proof Hproj as (Hcwd & Htmp & HR & _).
  destruct (doBuild_lockstep bash glob random (AppName cfg) cwd0 fs0 fs1 cfg
              wA wB wA1 wB1) as (nA & nB & HnA & HnB & HvA & HvB & Hl); try done.
  by apply (doInstall_lockstep cfg cwd0 fs0 fs1 nA nB fuelA fuelB wA1 wB1 wA' wB').
Qed.

(** A script that is at its destination already is not copied again: the
    step goes straight to running it. *)
Lemma installScriptStep_present cfg installDir w :
  InstallScript cfg ≠ "" →
  exists_ (Path.Join [installDir; Path.Base (InstallScript cfg)]) w = Ok true w →
  installScriptStep bash cfg installDir w
  = runScript bash (Path.Join [installDir; Path.Base (InstallScript cfg)]) installDir w.
Proof.
  intros Hs Hex. unfold installScriptStep. rewrite bool_decide_true by done.
  unfold bind at 1. rewrite Hex. cbn [negb]. unfold bind at 1. by unfold ret.
Qed.


End Reinstall.

(** * What the stages do to the files *)

(** ** Writes that stay inside a zone *)

Section Footprint.
Context {Env : Type}.
Variable zone : list string → bool.
Variable fs0 : FS.t.
Implicit Types (w : World Env).

Lemma outside_override (T : list string → option FS.node) (f f' : FS.t) :
  unchangedOutside zone fs0 f → override T f f' → quiet zone fs0 T →
  unchangedOutside zone fs0 f'.
Proof.
  intros Hu Ho Hq k Hk. rewrite (Ho k). destruct (T k) as [v|] eqn:E.
  - symmetry. by apply Hq.
  - by apply Hu.
Qed.

Lemma mkdir_outside path p w w' :
  os_MkdirAll path w = Ok true w' → FS.resolve (cwd w) path = Some p →
  quiet zone fs0 (mkdirTable p) →
  unchangedOutside zone fs0 (fs w) → unchangedOutside zone fs0 (fs w').
Proof.
  intros (p' & f' & Hr & Hm & ->)%os_MkdirAll_Ok Hp Hq Hu.
  rewrite Hp in Hr. injection Hr as <-. cbn.
  eapply outside_override; [exact Hu|by apply mkdir_override|done].
Qed.

Lemma copy_outside src base root dst s d w w' :
  relDest src base root = Some dst →
  FS.resolve (cwd w) (Path.Dir dst) = Some (FS.parent d) →
  FS.resolve (cwd w) dst = Some d → FS.resolve (cwd w) src = Some s → s ≠ [] →
  quiet zone fs0 (mkdirTable (FS.parent d)) →
  (∀ f, quiet zone fs0 (copyTable f s d)) →
  copyPreserveRelBase src base root w = Ok None w' →
  unchangedOutside zone fs0 (fs w) → unchangedOutside zone fs0 (fs w').
Proof.
  intros Hd H1 H2 H3 Hs Hqm Hqc Hrun Hu.
  destruct (copyPreserveRelBase_Ok _ _ _ _ _ _ Hd Hrun)
    as (s' & d' & f1 & f2 & Hm & Hrs & Hrd & Hc & ->).
  rewrite H1 in Hm. cbn in Hm. rewrite H2 in Hrd. rewrite H3 in Hrs.
  injection Hrd as <-. injection Hrs as <-. cbn.
  eapply outside_override; [|exact (copy_override _ _ _ _ Hs Hc)|apply Hqc].
  eapply outside_override; [exact Hu|by apply mkdir_override|done].
Qed.

End Footprint.

Section Quiet.
Variable zone : list string → bool.
Variable fs0 : FS.t.

Section Staging.
Variable n : string.
Hypothesis Hzone : ∀ k, FS.under ["tmp"; n] k = true → zone k = false →
  k = ["tmp"; n] ∧ fs0 !! ["tmp"; n] = Some FS.Dir.
Hypothesis Htmp : fs0 !! ["tmp"] = Some FS.Dir.

Lemma written_staging m k :
  zone k = false →
  FS.under (["tmp"; n] ++ m) k = true ∨ (k ≠ [] ∧ k `prefix_of` ["tmp"; n] ++ m) →
  fs0 !! k = Some FS.Dir ∧ (m ≠ [] → FS.under (["tmp"; n] ++ m) k = false).
Proof.
  intros Hk Hw. pose proof Hw as [->|Hu]%written_zone%staging_zone.
  - split; [done|]. intros _. by apply not_under_tmp.
  - destruct (Hzone k Hu Hk) as [-> ?]. split; [done|]. intros Hm.
    destruct (FS.under (["tmp"; n] ++ m) ["tmp"; n]) eqn:E; [|done].
    apply under_spec in E as [r Hr].
    apply (f_equal length) in Hr. rewrite !length_app in Hr.
    destruct m; [done|]. cbn in Hr. lia.
Qed.

Lemma quiet_staging_mkdir m : quiet zone fs0 (mkdirTable (["tmp"; n] ++ m)).
Proof.
  intros k v Hk HT. apply mkdirTable_Some in HT as (-> & Hne & Hp).
  destruct (written_staging m k Hk) as [? _]; [by right|done].
Qed.

Lemma quiet_staging_copy f s rel :
  rel ≠ [] → quiet zone fs0 (copyTable f s (["tmp"; n] ++ rel)).
Proof.
  intros Hrel k v Hk HT. destruct (written_staging rel k Hk) as [? Hu].
  { by eapply copyTable_Some. }
  by rewrite (copyTable_Dir_outside _ _ _ _ _ (Hu Hrel) HT).
Qed.

End Staging.

Section Root.
Variable R : list string.
Hypothesis Hbelow : ∀ k, FS.under R k = true → zone k = true.
Hypothesis Habove : ∀ k, k ≠ [] → FS.under k R = true → zone k = false →
  fs0 !! k = Some FS.Dir ∧ FS.under R k = false.

Lemma written_root m k :
  zone k = false →
  FS.under (R ++ m) k = true ∨ (k ≠ [] ∧ k `prefix_of` R ++ m) →
  fs0 !! k = Some FS.Dir ∧ FS.under (R ++ m) k = false.
Proof.
  intros Hk [Hu|[Hne Hp]]%written_zone.
  - by rewrite Hbelow in Hk.
  - destruct (Habove k Hne) as [? Hu]; [by apply prefix_of_under|done|].
    split; [done|]. destruct (FS.under (R ++ m) k) eqn:E; [|done].
    apply under_spec in E as [r ->]. rewrite <-(assoc_L (++)) in Hu.
    by rewrite under_app in Hu.
Qed.

Lemma quiet_root_mkdir m : quiet zone fs0 (mkdirTable (R ++ m)).
Proof.
  intros k v Hk HT. apply mkdirTable_Some in HT as (-> & Hne & Hp).
  destruct (written_root m k Hk) as [? _]; [by right|done].
Qed.

Lemma quiet_root_copy f s m : quiet zone fs0 (copyTable f s (R ++ m)).
Proof.
  intros k v Hk HT. destruct (written_root m k Hk) as [? Hu].
  { by eapply copyTable_Some. }
  by rewrite (copyTable_Dir_outside _ _ _ _ _ Hu HT).
Qed.

End Root.

Lemma quiet_write p data : zone p = true → quiet zone fs0 (writeTable p data).
Proof.
  intros Hp k v Hk. unfold writeTable. case_bool_decide; [|done]. congruence.
Qed.

End Quiet.

Section BuildWalk.
Context {Env : Type}.
Variable glob : string → list string → FS.t → option (list string).
Variable random : Env → N * Env.
Variable zone : list string → bool.
Variable fs0 : FS.t.
Variable cwd0 : list string.
Variable n : string.
Hypothesis Hzone : ∀ k, FS.under ["tmp"; n] k = true → zone k = false →
  k = ["tmp"; n] ∧ fs0 !! ["tmp"; n] = Some FS.Dir.
Hypothesis Htmp : fs0 !! ["tmp"] = Some FS.Dir.
Hypothesis Hcwd : Forall FS.valid_name cwd0.
Implicit Types (w : World Env).

Lemma copyPreserveRelBase_place src base root w e w' :
  copyPreserveRelBase src base root w = Ok e w' →
  cwd w' = cwd w ∧ TMPDIR w' = TMPDIR w.
Proof.
  unfold copyPreserveRelBase. destruct (relDest src base root) as [dst|].
  2:{ by intros [= _ <-]. }
  intros (made & w1 & H1 & H)%bind_Ok.
  assert (cwd w1 = cwd w ∧ TMPDIR w1 = TMPDIR w) as [E1 E2].
  { revert H1. unfold os_MkdirAll. destruct (_ ≫= _); by intros [= _ <-]. }
  destruct made; cbn [negb] in H; [|by injection H as _ <-].
  apply bind_Ok in H as (copied & w2 & H2 & H).
  assert (cwd w2 = cwd w1 ∧ TMPDIR w2 = TMPDIR w1) as [E3 E4].
  { revert H2. unfold cp_Copy.
    destruct (FS.resolve _ src); [|by intros [= _ <-]].
    destruct (FS.resolve _ dst); [|by intros [= _ <-]].
    destruct (FS.copy _ _ _); by intros [= _ <-]. }
  destruct copied; cbn [negb] in H; injection H as _ <-; split; congruence.
Qed.

Lemma build_copy_outside p bd w w' :
  Path.is_rooted bd = true → FS.resolve cwd0 bd = Some ["tmp"; n] →
  Path.is_rooted p = false → strictlyInside p →
  cwd w = cwd0 →
  copyPreserveRelBase p "." bd w = Ok None w' →
  unchangedOutside zone fs0 (fs w) → unchangedOutside zone fs0 (fs w').
Proof.
  intros Hrb Hb Hp Hin Hc Hrun Hu.
  destruct (strictlyInside_comps p Hin) as (Hne & Hn & Hs).
  set (cs := Path.clean_comps false (Path.split_slash p)) in *.
  assert (bd ≠ "") as Hbne by (by destruct bd).
  pose proof (strictlyInside_Clean p Hp Hin) as Hcl.
  eapply (copy_outside zone fs0 p "." bd (Path.Join [bd; p]) (cwd0 ++ cs) (["tmp"; n] ++ cs));
    [by apply relDest_cwd|rewrite Hc; by apply resolve_Dir_inside
    |rewrite Hc; by apply resolve_Join_inside
    |rewrite Hc; by apply resolve_relative_inside
    |intros E; by apply app_eq_nil in E as [_ ?]
    | | |exact Hrun|exact Hu].
  - rewrite parent_app by done. by apply quiet_staging_mkdir.
  - intros f. by apply quiet_staging_copy.
Qed.

Lemma matches_outside l bd w w' :
  Path.is_rooted bd = true → FS.resolve cwd0 bd = Some ["tmp"; n] →
  Forall (λ p, Path.is_rooted p = false ∧ strictlyInside p) l →
  cwd w = cwd0 →
  for_each l (λ src, bind (copyPreserveRelBase src "." bd) (λ err,
      match err with Some e => fatal (FCopy e) | None => ret tt end)) w = Ok tt w' →
  unchangedOutside zone fs0 (fs w) →
  unchangedOutside zone fs0 (fs w') ∧ cwd w' = cwd0 ∧ TMPDIR w' = TMPDIR w.
Proof.
  intros Hrb Hb Hl. revert w. induction Hl as [|p l [Hp Hin] Hl IH]; intros w Hc Hrun Hu.
  - cbn in Hrun. by injection Hrun as <-.
  - cbn [for_each] in Hrun.
    apply bind_Ok in Hrun as ([] & w1 & H1 & Hrun).
    apply bind_Ok in H1 as (e & w2 & H1 & H2).
    destruct e; [done|]. injection H2 as <-.
    destruct (copyPreserveRelBase_place _ _ _ _ _ _ H1) as [E1 E2].
    destruct (IH w2) as (? & ? & ?); [congruence|done| |].
    + by eapply build_copy_outside.
    + split; [done|split; congruence].
Qed.

Lemma patterns_outside pats bd w w' :
  Path.is_rooted bd = true → FS.resolve cwd0 bd = Some ["tmp"; n] →
  globInside glob cwd0 pats →
  cwd w = cwd0 →
  for_each pats (λ pattern, bind (filepath_Glob glob pattern) (λ matches,
      match matches with
      | None => fatal (FBadGlob pattern)
      | Some matches =>
          for_each matches (λ src, bind (copyPreserveRelBase src "." bd) (λ err,
            match err with Some e => fatal (FCopy e) | None => ret tt end))
      end)) w = Ok tt w' →
  unchangedOutside zone fs0 (fs w) →
  unchangedOutside zone fs0 (fs w') ∧ cwd w' = cwd0 ∧ TMPDIR w' = TMPDIR w.
Proof.
  intros Hrb Hb. revert w. induction pats as [|pat pats IH]; intros w Hg Hc Hrun Hu.
  - cbn in Hrun. by injection Hrun as <-.
  - cbn [for_each] in Hrun.
    apply bind_Ok in Hrun as ([] & w1 & H1 & Hrun).
    apply bind_Ok in H1 as (m & w2 & H1 & H2).
    unfold filepath_Glob in H1. injection H1 as <- <-.
    destruct (glob pat (cwd w) (fs w)) as [ms|] eqn:Em; [|done].
    rewrite Hc in Em.
    destruct (matches_outside ms bd w w1) as (Hu1 & Hc1 & Ht1); try done.
    { eapply Hg; [|exact Em]. apply elem_of_cons. by left. }
    destruct (IH w1) as (? & ? & ?); try done.
    { intros q f l Hq. apply Hg. apply elem_of_cons. by right. }
    split; [done|split; congruence].
Qed.

End BuildWalk.

(** ** The footprint of the build *)

Section BuildFootprint.
Context {Env : Type}.
Variable bash : string → string → FS.t → Env → bool * FS.t * Env.
Variable glob : string → list string → FS.t → option (list string).
Variable random : Env → N * Env.
Implicit Types (w : World Env).

Lemma mkdir_temp_try_fresh (appName : string) tries w name w' :
  FS.valid_name appName →
  mkdir_temp_try random tries ("/tmp" +:+ "/" +:+ stagingPrefix appName) "" w
    = Ok (Some name) w' →
  ∃ r, name = "/tmp" +:+ "/" +:+ stagingName appName r
    ∧ fs w !! ["tmp"] = Some FS.Dir
    ∧ fs w !! ["tmp"; stagingName appName r] = None
    ∧ fs w' = <[["tmp"; stagingName appName r] := FS.Dir]> (fs w)
    ∧ cwd w' = cwd w ∧ TMPDIR w' = TMPDIR w.
Proof.
  intros Hv. destruct (valid_name_normal _ Hv) as [_ Hs].
  revert w. induction tries as [|n IH]; intros w; [done|].
  cbn [mkdir_temp_try]. destruct (random (env w)) as [r e].
  change (("/tmp" +:+ "/" +:+ stagingPrefix appName) +:+ pretty r +:+ "")
    with ("/tmp" +:+ "/" +:+ stagingName appName r).
  cbn [cwd set_env fs].
  rewrite (resolve_tmp_child (cwd w) _ (stagingName_valid appName r Hs)).
  unfold FS.mkdir. cbn [FS.stat].
  destruct (fs w !! ["tmp"; stagingName appName r]) eqn:E.
  - intros H. destruct (IH _ H) as (r' & ? & ? & ? & ? & ? & ?). by exists r'.
  - unfold FS.is_dir. case_bool_decide as Hd; [|done].
    intros [= <- <-]. exists r. by repeat split.
Qed.

Lemma os_MkdirTemp_fresh (appName : string) w name w' :
  plainName appName →
  os_MkdirTemp random "/tmp" ("qp_build_" +:+ appName +:+ "_") w = Ok (Some name) w' →
  ∃ r, name = "/tmp" +:+ "/" +:+ stagingName appName r
    ∧ fs w !! ["tmp"] = Some FS.Dir
    ∧ fs w !! ["tmp"; stagingName appName r] = None
    ∧ fs w' = <[["tmp"; stagingName appName r] := FS.Dir]> (fs w)
    ∧ cwd w' = cwd w ∧ TMPDIR w' = TMPDIR w.
Proof.
  intros [Hv Hstar]. destruct (valid_name_normal _ Hv) as [_ Hs].
  unfold os_MkdirTemp. rewrite prefixAndSuffix_staging by done.
  by apply mkdir_temp_try_fresh.
Qed.

(** What a successful build without script does to the files: it makes
    its staging directory, and changes nothing outside it. *)
Lemma doBuild_footprint (cfg : Config) w w' :
  plainName (AppName cfg) → BuildScript cfg = "" →
  Forall FS.valid_name (cwd w) →
  globInside glob (cwd w) (BuildFiles cfg) →
  doBuild bash glob random cfg w = Ok tt w' →
  ∃ r, fs w !! ["tmp"] = Some FS.Dir
    ∧ fs w !! ["tmp"; stagingName (AppName cfg) r] = None
    ∧ cwd w' = cwd w ∧ TMPDIR w' = TMPDIR w
    ∧ ∀ zone,
        (∀ k, FS.under ["tmp"; stagingName (AppName cfg) r] k = true →
              zone k = false → k = ["tmp"; stagingName (AppName cfg) r]) →
        unchangedOutside zone
          (<[["tmp"; stagingName (AppName cfg) r] := FS.Dir]> (fs w)) (fs w').
Proof.
  intros [Hv Hstar] HBS Hcwd Hg Hrun.
  destruct (valid_name_normal _ Hv) as [_ Hs].
  unfold doBuild in Hrun. rewrite HBS in Hrun.
  apply bind_Ok in Hrun as (m & w1 & Hm & Hrun).
  destruct m as [bd|]; [|done].
  apply os_MkdirTemp_fresh in Hm as (r & -> & Ht & Hfr & Hf & Hc & Htm); [|done].
  apply bind_Ok in Hrun as ([] & w2 & Hl & Hrun).
  rewrite bool_decide_false in Hrun by (by intros ?). injection Hrun as <-.
  exists r. split; [done|]. split; [done|].
  set (n := stagingName (AppName cfg) r) in *.
  assert (∀ zone,
    (∀ k, FS.under ["tmp"; n] k = true → zone k = false → k = ["tmp"; n]) →
    unchangedOutside zone (<[["tmp"; n] := FS.Dir]> (fs w)) (fs w2)
    ∧ cwd w2 = cwd w ∧ TMPDIR w2 = TMPDIR w1) as H.
  { intros zone Hz.
    eapply (patterns_outside glob zone _ (cwd w) n); [| | | | | | |exact Hl|].
    - intros k Hk Hzk. split; [by apply Hz|]. by rewrite lookup_insert_eq.
    - by rewrite lookup_insert_ne.
    - done.
    - apply is_rooted_tmp_child.
    - apply resolve_tmp_child. by apply stagingName_valid.
    - done.
    - done.
    - rewrite Hf. by intros k _. }
  destruct (H (λ _, true)) as (_ & E1 & E2); [done|].
  split; [done|]. split; [congruence|]. intros zone Hz. by apply H.
Qed.

End BuildFootprint.

(** ** The footprint of the install *)

Section InstallWalk.
Context {Env : Type}.
Variable zone : list string → bool.
Variable fs0 : FS.t.
Variable cwd0 : list string.
Variable n : string.
Variable R : list string.
Hypothesis Hbelow : ∀ k, FS.under R k = true → zone k = true.
Hypothesis Habove : ∀ k, k ≠ [] → FS.under k R = true → zone k = false →
  fs0 !! k = Some FS.Dir ∧ FS.under R k = false.
Hypothesis Hcwd : Forall FS.valid_name cwd0.
Implicit Types (w : World Env).

Lemma entry_outside e root bd w w' :
  Path.is_rooted root = true → FS.resolve cwd0 root = Some R →
  bd = "" ∨ FS.resolve cwd0 bd = Some ["tmp"; n] →
  strictlyInside (File e) → cwd w = cwd0 →
  installEntry bd root e w = Ok tt w' →
  unchangedOutside zone fs0 (fs w) →
  unchangedOutside zone fs0 (fs w') ∧ cwd w' = cwd0 ∧ TMPDIR w' = TMPDIR w.
Proof.
  intros Hr Hroot Hb Hin Hc Hrun Hu.
  destruct (strictlyInside_comps _ Hin) as (Hne & Hn & Hs).
  set (cs := Path.clean_comps false (Path.split_slash (File e))) in *.
  assert (root ≠ "") as Hrne by (by destruct root).
  apply installEntry_Ok in Hrun as (src & base & Hcase & _ & Hrun).
  destruct (copyPreserveRelBase_place _ _ _ _ _ _ Hrun) as [E1 E2].
  split; [|split; congruence].
  destruct Hcase as [(Hf & -> & ->)|(Hf & Hbne & -> & ->)].
  - destruct (Path.is_rooted (File e)) eqn:Hrf.
    { pose proof (copyPreserveRelBase_error (File e) "." root w None w') as H.
      unfold relDest in H. rewrite Rel_dot_rooted in H by done.
      by specialize (H eq_refl Hrun). }
    pose proof (strictlyInside_Clean _ Hrf Hin) as Hcl.
    eapply (copy_outside zone fs0 (File e) "." root (Path.Join [root; File e])
              (cwd0 ++ cs) (R ++ cs));
      [by apply relDest_cwd|rewrite Hc; by apply resolve_Dir_inside
      |rewrite Hc; by apply resolve_Join_inside
      |rewrite Hc; by apply resolve_relative_inside
      |intros E; by apply app_eq_nil in E as [_ ?]
      | | |exact Hrun|exact Hu].
    + rewrite parent_app by done. by apply quiet_root_mkdir.
    + intros f. by apply quiet_root_copy.
  - destruct Hb as [?|Hb]; [done|].
    eapply (copy_outside zone fs0 _ bd root (Path.Join [root; File e])
              (["tmp"; n] ++ cs) (R ++ cs));
      [by apply relDest_build|rewrite Hc; by apply resolve_Dir_inside
      |rewrite Hc; by apply resolve_Join_inside
      |rewrite Hc; by apply resolve_Join_inside
      |done
      | | |exact Hrun|exact Hu].
    + rewrite parent_app by done. by apply quiet_root_mkdir.
    + intros f. by apply quiet_root_copy.
Qed.

Lemma entries_outside l root bd w w' :
  Path.is_rooted root = true → FS.resolve cwd0 root = Some R →
  bd = "" ∨ FS.resolve cwd0 bd = Some ["tmp"; n] →
  Forall (λ e, strictlyInside (File e)) l → cwd w = cwd0 →
  for_each l (installEntry bd root) w = Ok tt w' →
  unchangedOutside zone fs0 (fs w) →
  unchangedOutside zone fs0 (fs w') ∧ cwd w' = cwd0 ∧ TMPDIR w' = TMPDIR w.
Proof.
  intros Hr Hroot Hb Hl. revert w. induction Hl as [|e l He Hl IH]; intros w Hc Hrun Hu.
  - cbn in Hrun. by injection Hrun as <-.
  - cbn [for_each] in Hrun. apply bind_Ok in Hrun as ([] & w1 & H1 & Hrun).
    destruct (entry_outside e root bd w w1) as (Hu1 & Hc1 & Ht1); try done.
    destruct (IH w1) as (? & ? & ?); try done.
    split; [done|split; congruence].
Qed.

End InstallWalk.

Section InstallFootprint.
Context {Env : Type}.
Variable systemctl : list string → Env → bool * Env.
Variable bash : string → string → FS.t → Env → bool * FS.t * Env.
Variable glob : string → list string → FS.t → option (list string).
Variable random : Env → N * Env.
Implicit Types (w : World Env).

Lemma installZone_staged cfg k : staged (AppName cfg) k = true → installZone cfg k = true.
Proof. unfold installZone. by intros ->. Qed.

Lemma installZone_below cfg k : FS.under (rootKey cfg) k = true → installZone cfg k = true.
Proof. unfold installZone. intros ->. by rewrite orb_true_r. Qed.

Lemma installZone_above (cfg : Config) (f : FS.t) :
  f !! ["opt"] = Some FS.Dir →
  ∀ k, k ≠ [] → FS.under k (rootKey cfg) = true → installZone cfg k = false →
       f !! k = Some FS.Dir ∧ FS.under (rootKey cfg) k = false.
Proof.
  intros Hopt k Hne Hu Hz. apply under_spec in Hu as [r Hr]. unfold rootKey in Hr.
  destruct k as [|a [|b [|c k]]]; [done|..].
  - injection Hr as <- _. split; [done|].
    destruct (FS.under _ _) eqn:E; [|done]. by apply under_spec in E as [x Hx].
  - injection Hr as <- <- _. rewrite installZone_below in Hz; [done|apply under_refl].
  - discriminate Hr.
Qed.

Lemma installZone_unit cfg : Systemd cfg = true → installZone cfg (unitKey cfg) = true.
Proof.
  intros Hs. unfold installZone. rewrite Hs, bool_decide_true by done.
  by rewrite orb_true_r.
Qed.

Lemma unitKey_unstaged cfg : staged (AppName cfg) (unitKey cfg) = false.
Proof. done. Qed.

Lemma sameFiles_outside zone f0 w w' :
  sameFiles w w' → unchangedOutside zone f0 (fs w) → unchangedOutside zone f0 (fs w').
Proof. intros (-> & _). done. Qed.

Lemma copy_source (f f' : FS.t) (s d : list string) :
  FS.copy f s d = Some f' → s ≠ [].
Proof. intros Hc ->. by unfold FS.copy in Hc. Qed.

Lemma copyPreserveRelBase_keeps src base root w w' :
  copyPreserveRelBase src base root w = Ok None w' →
  ∀ k, is_Some (fs w !! k) → is_Some (fs w' !! k).
Proof.
  intros Hrun k Hk.
  destruct (relDest src base root) as [dst|] eqn:Hd.
  2:{ by apply (copyPreserveRelBase_error _ _ _ _ _ _ Hd) in Hrun. }
  destruct (copyPreserveRelBase_Ok _ _ _ _ _ _ Hd Hrun)
    as (s & d & f1 & f2 & Hm & _ & _ & Hc & ->).
  destruct (FS.resolve (cwd w) (Path.Dir dst)) as [dk|]; [|done]. cbn in Hm.
  cbn [fs emit set_fs].
  eapply override_is_Some; [exact (copy_override _ _ _ _ (copy_source _ _ _ _ Hc) Hc)|].
  eapply override_is_Some; [by apply mkdir_override|done].
Qed.

Lemma entries_keep (l : list FileEntry) root bd w w' :
  for_each l (installEntry bd root) w = Ok tt w' →
  ∀ k, is_Some (fs w !! k) → is_Some (fs w' !! k).
Proof.
  revert w. induction l as [|e l IH]; intros w Hrun k Hk.
  - cbn in Hrun. by injection Hrun as <-.
  - cbn [for_each] in Hrun. apply bind_Ok in Hrun as ([] & w1 & H1 & Hrun).
    apply (IH _ Hrun). apply installEntry_Ok in H1 as (src & base & _ & _ & H1).
    by apply (copyPreserveRelBase_keeps _ _ _ _ _ H1).
Qed.

(** What the install stage does to the files, after a build of the same
    run: nothing outside the places of the install, and nothing is
    removed but staging directories. *)
Lemma doInstall_footprint cfg cwd0 f0 f1 fref (n : string) fuel w w' :
  fref !! ["opt"] = Some FS.Dir →
  Path.HasPrefix n (stagingPrefix (AppName cfg)) = true →
  FS.valid_name n → FS.valid_name (AppName cfg) → InstallScript cfg = "" →
  Forall (λ e, strictlyInside (File e)) (InstallFiles cfg) →
  projectApart cfg cwd0 →
  lockstep (AppName cfg) cwd0 f0 f1 ["tmp"; n] ["tmp"; n] w w →
  unchangedOutside (installZone cfg) fref (fs w) →
  doInstall systemctl bash fuel cfg w = Ok tt w' →
  unchangedOutside (installZone cfg) fref (fs w')
  ∧ (Systemd cfg = true →
     fs w' !! unitKey cfg = Some (FS.File (GenerateFile (UnitFromConfig cfg))))
  ∧ (∀ k, staged (AppName cfg) k = false → is_Some (fs w !! k) → is_Some (fs w' !! k)).
Proof.
  intros Hopt Hn Hvn Hv HIS Hent (Hcwd & Htmp & HR & Hunit) Hl Hu Hrun.
  destruct (valid_name_normal _ Hv) as [_ Hs].
  unfold doInstall in Hrun.
  apply bind_Ok in Hrun as ([] & w1 & Hstop & Hrun).
  apply stopIfActive_sameFiles in Hstop.
  pose proof (lockstep_sameFiles _ _ _ _ _ _ _ _ _ _ Hl Hstop Hstop) as Hl1.
  pose proof (sameFiles_outside _ _ _ _ Hstop Hu) as Hu1.
  apply bind_Ok in Hrun as (made & w2 & Hm & Hrun).
  destruct made; [|done]. cbn [negb] in Hrun.
  pose proof Hl1 as (E1 & _ & T1 & _).
  assert (lockstep (AppName cfg) cwd0 f0 f1 ["tmp"; n] ["tmp"; n] w2 w2) as Hl2.
  { eapply (mkdir_lockstep _ _ _ _ _ _ w1 w1 w2 w2 _ _ (rootKey cfg) (rootKey cfg));
      [exact Hl1|by apply resolve_installRoot|by apply resolve_installRoot|
      |exact Hm|exact Hm].
    apply (tables_root_mkdir (AppName cfg) cwd0 n n Hn Hn (rootKey cfg) HR
             ltac:(by eexists) []). }
  assert (unchangedOutside (installZone cfg) fref (fs w2)) as Hu2.
  { eapply (mkdir_outside _ _ _ (rootKey cfg)); [exact Hm| | |exact Hu1].
    - rewrite E1. by apply resolve_installRoot.
    - apply (quiet_root_mkdir _ _ (rootKey cfg) (installZone_below cfg)
               (installZone_above cfg fref Hopt) []). }
  apply bind_Ok in Hrun as ([bd found] & w3 & Hf & Hrun).
  pose proof Hl2 as (E2 & _ & T2 & _ & FA & _).
  apply (findTempBuildDir_staging _ cwd0 f0 n) in Hf as [-> Hb]; [|done..].
  cbn [fst] in Hrun.
  apply bind_Ok in Hrun as ([] & w4 & He & Hrun).
  assert (lockstep (AppName cfg) cwd0 f0 f1 ["tmp"; n] ["tmp"; n] w4 w4) as Hl4.
  { eapply (entries_lockstep (AppName cfg) cwd0 f0 f1 n n);
      [done..| | |exact Hb|exact Hb|exact Hent|exact Hl2|exact He|exact He].
    - by apply is_rooted_Join.
    - by apply resolve_installRoot. }
  assert (unchangedOutside (installZone cfg) fref (fs w4)) as Hu4.
  { eapply (entries_outside (installZone cfg) fref cwd0 n (rootKey cfg)
              (installZone_below cfg) (installZone_above cfg fref Hopt) Hcwd
              (InstallFiles cfg) _ bd w2 w4); try done.
    - by apply is_rooted_Join.
    - by apply resolve_installRoot. }
  unfold installScriptStep in Hrun. rewrite HIS in Hrun.
  rewrite bool_decide_false in Hrun by (by intros ?).
  apply bind_Ok in Hrun as ([] & w5 & Hi & Hrun). injection Hi as <-.
  apply bind_Ok in Hrun as ([] & w6 & Hst & Hrun).
  assert (lockstep (AppName cfg) cwd0 f0 f1 ["tmp"; n] ["tmp"; n] w6 w6) as Hl6.
  { eapply (startService_lockstep systemctl (AppName cfg) cwd0 f0 f1 n n); eauto. }
  assert (∀ k, is_Some (fs w !! k) → is_Some (fs w4 !! k)) as Hk4.
  { intros k Hk. apply (entries_keep _ _ _ _ _ He).
    apply os_MkdirAll_Ok in Hm as (p & f' & _ & Hmk & ->). cbn [fs emit set_fs].
    eapply override_is_Some; [by apply mkdir_override|].
    destruct Hstop as (-> & _). done. }
  assert (unchangedOutside (installZone cfg) fref (fs w6)
          ∧ (Systemd cfg = true →
             fs w6 !! unitKey cfg = Some (FS.File (GenerateFile (UnitFromConfig cfg))))
          ∧ (∀ k, is_Some (fs w4 !! k) → is_Some (fs w6 !! k)))
    as (Hu6 & Hunit6 & Hk6).
  { apply startService_Ok_files in Hst as [[Hsd ->]|(Hsd & w7 & Hw & Hsf)].
    { split; [done|]. split; [congruence|done]. }
    apply os_WriteFile_Ok in Hw as (p & Hp & Hfs & _).
    pose proof Hl4 as (E4 & _).
    rewrite E4, resolve_unit_path in Hp by done. injection Hp as <-.
    destruct Hsf as (-> & _). rewrite Hfs. split; [|split].
    - eapply outside_override; [exact Hu4|apply write_override|].
      by apply quiet_write, installZone_unit.
    - intros _. by rewrite lookup_insert_eq.
    - intros k Hk. eapply override_is_Some; [apply write_override|done]. }
  pose proof Hl6 as (E6 & _ & T6 & _ & F6 & _ & _ & Ht6 & _ & Hs6 & _).
  apply (removeBuildDirs_staging (AppName cfg) cwd0 f0 cfg n) in Hrun
    as (_ & _ & Hfs); try done.
  split; [|split].
  - intros k Hk. rewrite Hfs. destruct (staged (AppName cfg) k) eqn:Hsk.
    + by rewrite (installZone_staged cfg k Hsk) in Hk.
    + by apply Hu6.
  - intros Hsd. rewrite Hfs, unitKey_unstaged. by apply Hunit6.
  - intros k Hsk Hk. rewrite Hfs, Hsk. by apply Hk6, Hk4.
Qed.

End InstallFootprint.

Section ActionFootprint.
Context {Env : Type}.
Variable systemctl : list string → Env → bool * Env.
Variable bash : string → string → FS.t → Env → bool * FS.t * Env.
Variable glob : string → list string → FS.t → option (list string).
Variable random : Env → N * Env.
Implicit Types (w : World Env).

Lemma globInProject_inside cwd0 pats :
  globInProject glob cwd0 pats → globInside glob cwd0 pats.
Proof. intros Hg pat f l Hp. by apply (Hg pat Hp). Qed.

(** What a successful install without scripts does to the files. *)
Lemma installAction_footprint cfg fuel w0 w1 :
  TMPDIR w0 = "" →
  plainName (AppName cfg) →
  BuildScript cfg = "" → InstallScript cfg = "" →
  Forall (λ e, strictlyInside (File e)) (InstallFiles cfg) →
  projectApart cfg (cwd w0) →
  globInProject glob (cwd w0) (BuildFiles cfg) →
  noStaging (AppName cfg) (fs w0) →
  fs w0 !! ["opt"] = Some FS.Dir →
  installAction systemctl bash glob random fuel cfg w0 = Ok tt w1 →
  unchangedOutside (installZone cfg) (fs w0) (fs w1)
  ∧ (Systemd cfg = true →
     fs w1 !! unitKey cfg = Some (FS.File (GenerateFile (UnitFromConfig cfg))))
  ∧ (∀ k, FS.under (cwd w0) k = true → fs w1 !! k = fs w0 !! k)
  ∧ (∀ k, is_Some (fs w0 !! k) → is_Some (fs w1 !! k))
  ∧ noStaging (AppName cfg) (fs w1)
  ∧ fs w0 !! ["tmp"] = Some FS.Dir
  ∧ cwd w1 = cwd w0 ∧ TMPDIR w1 = "".
Proof.
  intros Ht Hn HBS HIS Hent Hproj Hg Hno Hopt Hrun.
  assert (atRest (AppName cfg) (cwd w0) (fs w0) (fs w0) w0 w0) as H0.
  { unfold atRest. repeat (split; [done|]). intros k _. by left. }
  pose proof (installAction_atRest systemctl bash glob random cfg _ _ _ _ _ _ _ _ _
                Hn HBS HIS Hent Hproj Hg H0 Hrun Hrun)
    as (E1 & _ & T1 & _ & C1 & _ & N1 & _).
  pose proof Hn as [Hv Hstar]. pose proof Hproj as (Hcwd & Htmp & HR & Hunit).
  unfold installAction in Hrun.
  apply bind_Ok in Hrun as ([] & wb & Hb & Hi).
  destruct (doBuild_lockstep bash glob random (AppName cfg) (cwd w0) (fs w0) (fs w0) cfg
              w0 w0 wb wb) as (nA & nB & HnA & HnB & HvA & HvB & Hl); try done.
  assert (nA = nB) as <-.
  { pose proof Hl as (_ & _ & _ & _ & _ & FB & _ & _ & _ & HsA & _).
    by apply (frame_entry (AppName cfg) (cwd w0) (fs w0) nB (fs wb) nA). }
  destruct (doBuild_footprint bash glob random cfg w0 wb Hn HBS Hcwd
              (globInProject_inside _ _ Hg) Hb) as (r & Htd & _ & _ & _ & Hz).
  assert (unchangedOutside (installZone cfg) (fs w0) (fs wb)) as Hub.
  { intros k Hk. rewrite (Hz (installZone cfg)); [| |done].
    - rewrite lookup_insert_ne; [done|]. intros <-.
      rewrite installZone_staged in Hk; [done|].
      apply (staged_under _ _ (stagingName_prefix _ _) []).
    - intros k' Hu Hk'. apply under_spec in Hu as [x ->].
      rewrite installZone_staged in Hk'; [done|].
      apply (staged_under _ _ (stagingName_prefix _ _)). }
  assert (∀ k, is_Some (fs w0 !! k) → staged (AppName cfg) k = false) as Hunst.
  { intros k Hk. destruct (staged (AppName cfg) k) eqn:E; [|done].
    rewrite (Hno k E) in Hk. by destruct Hk. }
  assert (∀ k, is_Some (fs w0 !! k) → is_Some (fs wb !! k)) as Hkb.
  { intros k Hk. pose proof (Hunst k Hk) as Hsk.
    rewrite (Hz (FS.under ["tmp"; stagingName (AppName cfg) r])).
    - rewrite lookup_insert_ne; [done|]. intros <-.
      pose proof (staged_under _ _ (stagingName_prefix (AppName cfg) r) []) as E.
      cbn [app] in E. congruence.
    - intros k' Hu Hk'. by rewrite Hu in Hk'.
    - apply not_true_is_false. intros [x ->]%under_spec.
      by rewrite (staged_under _ _ (stagingName_prefix _ _)) in Hsk. }
  destruct (doInstall_footprint systemctl bash cfg (cwd w0) (fs w0) (fs w0) (fs w0) nA
              fuel wb w1) as (? & ? & Hki); try done.
  repeat (split; [done|]). split; [|done].
  intros k Hk. apply Hki; [by apply Hunst|by apply Hkb].
Qed.


End ActionFootprint.

(** ** Uninstall, and the round trip *)

Section Uninstall.
Context {Env : Type}.
Variable systemctl : list string → Env → bool * Env.
Variable bash : string → string → FS.t → Env → bool * FS.t * Env.
Implicit Types (w : World Env).

Lemma remove_lookup (f : FS.t) (p k : list string) :
  p ≠ [] → f !! p ≠ Some FS.Dir →
  FS.remove f p !! k = if bool_decide (k = p) then None else f !! k.
Proof.
  intros Hp Hd. unfold FS.remove, FS.stat. destruct p as [|a p]; [done|].
  destruct (f !! (a :: p)) as [[data|]|] eqn:E; [|done|].
  - case_bool_decide as Hk.
    + subst k. apply lookup_delete_eq.
    + by apply lookup_delete_ne.
  - case_bool_decide as Hk; [by subst k|done].
Qed.

(** What an uninstall without script does, whatever the service manager
    answers: the unit file of a service goes, the install root goes, and
    every other file stays. *)
Lemma doUninstall_files cfg w :
  UninstallScript cfg = "" → FS.valid_name (AppName cfg) →
  (Systemd cfg = true → fs w !! unitKey cfg ≠ Some FS.Dir) →
  ∃ w', doUninstall systemctl bash cfg w = Ok tt w'
    ∧ cwd w' = cwd w ∧ TMPDIR w' = TMPDIR w
    ∧ ∀ k, fs w' !! k
           = if FS.under (rootKey cfg) k
               || (Systemd cfg && bool_decide (k = unitKey cfg))
             then None else fs w !! k.
Proof.
  intros HUS Hv Hd. destruct (valid_name_normal _ Hv) as [_ Hs].
  unfold doUninstall. rewrite HUS. rewrite bool_decide_false by (by intros ?).
  assert (∃ w1, (if Systemd cfg
                 then bind (run_systemctl systemctl ["stop"; UnitNameWildcard (UnitFromConfig cfg)])
                   (λ _, bind (run_systemctl systemctl
                                 ["disable"; UnitNameWildcard (UnitFromConfig cfg)])
                   (λ _, bind (os_Remove (UnitPath (UnitFromConfig cfg)))
                   (λ _, bind (run_systemctl systemctl ["daemon-reload"])
                   (λ _, ret tt))))
                 else ret tt) w = Ok tt w1
          ∧ cwd w1 = cwd w ∧ TMPDIR w1 = TMPDIR w
          ∧ ∀ k, fs w1 !! k
                 = if Systemd cfg && bool_decide (k = unitKey cfg)
                   then None else fs w !! k) as (w1 & H1 & Hc1 & Ht1 & Hf1).
  { destruct (Systemd cfg); [|by exists w].
    unfold bind, run_systemctl, os_Remove.
    destruct (systemctl ["stop"; _] (env w)) as [ok1 e1]. cbn.
    destruct (systemctl ["disable"; _] e1) as [ok2 e2]. cbn.
    rewrite (resolve_unit_path (cwd w) cfg Hs). cbn.
    destruct (systemctl ["daemon-reload"] e2) as [ok3 e3]. cbn.
    eexists. split; [done|]. cbn. split; [done|]. split; [done|].
    intros k. apply remove_lookup; [done|by apply Hd]. }
  rewrite (bind_Ok_eq _ _ _ _ _ H1).
  unfold bind at 1. unfold ret at 1.
  unfold os_RemoveAll. rewrite Hc1, (resolve_installRoot (cwd w) cfg Hv).
  eexists. split; [done|]. cbn. split; [done|]. split; [done|].
  intros k. rewrite remove_all_lookup, Hf1.
  by destruct (FS.under (rootKey cfg) k).
Qed.

(** X8: an uninstall without script always comes to its end, whatever
    the service manager answers, and removes exactly the install root
    with everything below it and, for a service, the unit file; every
    other file stays as it was. *)
Theorem uninstall_removes_only_its_places cfg w :
  UninstallScript cfg = "" → FS.valid_name (AppName cfg) →
  (Systemd cfg = true → fs w !! unitKey cfg ≠ Some FS.Dir) →
  ∃ w', doUninstall systemctl bash cfg w = Ok tt w'
    ∧ cwd w' = cwd w ∧ TMPDIR w' = TMPDIR w
    ∧ ∀ k, fs w' !! k
           = if FS.under (rootKey cfg) k
               || (Systemd cfg && bool_decide (k = unitKey cfg))
             then None else fs w !! k.
Proof. apply doUninstall_files. Qed.

End Uninstall.

Section RoundTrip.
Context {Env : Type}.
Variable systemctl : list string → Env → bool * Env.
Variable bash : string → string → FS.t → Env → bool * FS.t * Env.
Variable glob : string → list string → FS.t → option (list string).
Variable random : Env → N * Env.
Implicit Types (w : World Env).


End RoundTrip.

(** ** The arguments, and applications that are no service *)

Section Flags.

Lemma configFlag_other (a : string) (l : list string) (d : string) :
  a ≠ "--config" → configFlag (a :: l) d = configFlag l d.
Proof.
  intros Ha. destruct l as [|v l]; [done|].
  change (configFlag (a :: v :: l) d)
    with (if bool_decide (a = "--config") then configFlag l v
          else configFlag (v :: l) d).
  by rewrite bool_decide_false.
Qed.

(** X1: the scan of the arguments after the action.  Before the first
    [--config] nothing changes the path of the configuration; a
    [--config] that is the last argument is ignored; and a [--config] with
    an argument after it takes that argument as the path, whatever it is,
    and the scan goes on behind it, so that the last complete pair
    decides. *)
Theorem config_flag_scan (pre : list string) (v : string) (rest : list string) (d : string) :
  "--config" ∉ pre →
  configFlag pre d = d
  ∧ configFlag (pre ++ ["--config"]) d = d
  ∧ configFlag (pre ++ "--config" :: v :: rest) d = configFlag rest v.
Proof.
  induction pre as [|a pre IH]; intros Hn.
  - by repeat split.
  - apply not_elem_of_cons in Hn as [Ha Hn]. cbn [app].
    rewrite !configFlag_other by done. by apply IH.
Qed.

End Flags.

Section Unmanaged.
Context {Env : Type}.
Variable systemctl : list string → Env → bool * Env.
Variable bash : string → string → FS.t → Env → bool * FS.t * Env.
Implicit Types (w : World Env) (P : Event → Prop).

(** X13: for an application that is not a service, neither the install
    stage nor the uninstall stage calls the service manager or writes or
    removes a unit file: all they do is make directories, copy, run the
    configured scripts and remove directory trees, whether they end well
    or not. *)
Theorem unmanaged_never_calls_service_manager fuel (cfg : Config) :
  Systemd cfg = false →
  emits fileWork (doInstall systemctl bash fuel cfg)
  ∧ emits fileWork (doUninstall systemctl bash cfg).
Proof.
  intros Hs. split.
  - unfold doInstall, stopIfActive, startService. rewrite Hs.
    apply emits_bind; [apply emits_ret|intros _].
    apply emits_bind; [apply emits_os_MkdirAll; by left|intros made].
    destruct made; cbn [negb]; [|apply emits_fatal].
    apply emits_bind; [apply emits_findTempBuildDir|intros found].
    apply emits_bind.
    { apply emits_for_each. intros e.
      eapply emits_weaken; [apply emits_installEntry|]. by left. }
    intros _. apply emits_bind.
    { eapply emits_weaken; [apply emits_installScriptStep|]. by left. }
    intros _. apply emits_bind; [apply emits_ret|intros _].
    eapply emits_weaken; [apply emits_removeBuildDirs|]. by right.
  - unfold doUninstall, runScript. rewrite Hs.
    repeat emits_step; try (by left); try (by right).
Qed.

End Unmanaged.

(** ** The wait for the stop, and installs that fail *)

Section Waiting.
Context {Env : Type}.
Variable systemctl : list string → Env → bool * Env.
Variable bash : string → string → FS.t → Env → bool * FS.t * Env.
Implicit Types (w : World Env) (P : Event → Prop).

Lemma waitStopped_never fuel name w :
  (∀ e, (systemctl ["is-active"; "--quiet"; name] e).1 = true) →
  waitStopped systemctl fuel name w = Diverge.
Proof.
  intros Hup. revert w. induction fuel as [|n IH]; intros w; [done|].
  cbn [waitStopped]. unfold bind, run_systemctl.
  specialize (Hup (env w)).
  destruct (systemctl _ (env w)) as [ok e]. cbn in Hup. subst ok. apply IH.
Qed.

(** X10: the wait for the service to stop has no bound.  When the
    service manager accepts the stop and goes on reporting the unit as
    active, the install stage never gets past the wait, however many
    times it asks. *)
Theorem wait_for_stop_has_no_timeout fuel (cfg : Config) w :
  Systemd cfg = true →
  (∀ e, (systemctl ["is-active"; "--quiet"; UnitNameWildcard (UnitFromConfig cfg)] e).1 = true) →
  (∀ e, (systemctl ["stop"; UnitNameWildcard (UnitFromConfig cfg)] e).1 = true) →
  doInstall systemctl bash fuel cfg w = Diverge.
Proof.
  intros Hs Hup Hstop. unfold doInstall, stopIfActive. rewrite Hs.
  unfold bind at 1 2. unfold run_systemctl at 1.
  pose proof (Hup (env w)) as H1.
  destruct (systemctl _ (env w)) as [ok e]. cbn in H1. subst ok.
  unfold bind at 1. unfold run_systemctl at 1. cbn [env emit set_env].
  pose proof (Hstop e) as H2.
  destruct (systemctl _ e) as [ok e']. cbn in H2. subst ok. cbn [negb].
  by rewrite waitStopped_never.
Qed.

Lemma emits_Fatal {A} P (m : M Env A) w f w' :
  emits P m → m w = Fatal f w' → ∃ t, trace w' = trace w ++ t ∧ Forall P t.
Proof. intros Hm E. specialize (Hm w). by rewrite E in Hm. Qed.

Lemma fails_startService (cfg : Config) :
  fails (λ f, f = FInstallUnit ∨ ∃ u, f = FStartService u) (startService systemctl cfg).
Proof.
  unfold startService. destruct (Systemd cfg); [|apply fails_ret].
  apply fails_bind.
  { unfold installSystemdUnit.
    apply fails_bind; [apply fails_never, os_WriteFile_total|].
    intros [|]; cbn [negb]; [|apply fails_ret].
    apply fails_bind; [apply fails_never, run_systemctl_total|].
    intros [|]; cbn [negb]; [|apply fails_ret].
    apply fails_never, run_systemctl_total. }
  intros [|]; cbn [negb]; [|apply fails_fatal; by left].
  apply fails_bind; [apply fails_never, run_systemctl_total|].
  intros [|]; cbn [negb]; [apply fails_ret|apply fails_fatal; right; by eexists].
Qed.

Lemma fails_removeBuildDirs (cfg : Config) :
  fails (λ _, False) (removeBuildDirs (Env:=Env) cfg).
Proof.
  unfold removeBuildDirs.
  apply fails_bind; [apply fails_never; intros ?; by eexists _, _|intros tmp].
  apply fails_bind; [apply fails_never; intros ?; by eexists _, _|intros entries].
  destruct entries as [entries|]; [|apply fails_ret].
  apply fails_for_each. intros name _.
  destruct (Path.HasPrefix _ _); [apply fails_never, os_RemoveAll_total|apply fails_ret].
Qed.

(** X11: an install stage that ends with a fatal error other than those
    of its start phase has run only status probes, the stop, and file and
    script steps: the unit file was not written and the service was not
    enabled or started again, so a service that was stopped for the
    install stays stopped. *)
Theorem failed_install_leaves_service_stopped fuel (cfg : Config) w f w' :
  doInstall systemctl bash fuel cfg w = Fatal f w' →
  f ≠ FInstallUnit → (∀ u, f ≠ FStartService u) →
  ∃ t, trace w' = trace w ++ t
    ∧ Forall (λ ev, stopPhase (UnitNameWildcard (UnitFromConfig cfg)) ev ∨ replacePhase ev) t.
Proof.
  intros E Hf1 Hf2. set (P := λ ev, _ ∨ _).
  assert (∀ {A} (m : M Env A) (k : A → M Env unit) w1 t1,
    trace w1 = trace w ++ t1 → Forall P t1 → emits P m →
    bind m k w1 = Fatal f w' →
    (∀ a w2 t2, trace w2 = trace w ++ t2 → Forall P t2 → k a w2 = Fatal f w' →
       ∃ t, trace w' = trace w ++ t ∧ Forall P t) →
    ∃ t, trace w' = trace w ++ t ∧ Forall P t) as step.
  { intros A m k w1 t1 T1 F1 Hm [H|(a & w2 & H & Hk)]%bind_Fatal_inv Hnext.
    - destruct (emits_Fatal _ _ _ _ _ Hm H) as (t & T & F).
      exists (t1 ++ t). rewrite T, T1, (assoc_L (++)). split; [done|by apply Forall_app].
    - destruct (emits_Ok _ _ _ _ _ Hm H) as (t & T & F).
      apply (Hnext a w2 (t1 ++ t)); [|by apply Forall_app|done].
      by rewrite T, T1, (assoc_L (++)). }
  unfold doInstall in E.
  eapply (step _ _ _ w []); [by rewrite (right_id_L [] (++))|done| |exact E|].
  { eapply emits_weaken; [apply emits_stopIfActive|]. by left. }
  clear E. intros [] w1 t1 T1 F1 E.
  eapply step; [exact T1|exact F1| |exact E|].
  { apply emits_os_MkdirAll. by right. }
  clear E. intros made w2 t2 T2 F2 E.
  destruct made; cbn [negb] in E.
  2:{ injection E as _ <-. by exists t2. }
  eapply step; [exact T2|exact F2|apply emits_findTempBuildDir|exact E|].
  clear E. intros found w3 t3 T3 F3 E.
  eapply step; [exact T3|exact F3| |exact E|].
  { apply emits_for_each. intros e.
    eapply emits_weaken; [apply emits_installEntry|]. by right. }
  clear E. intros [] w4 t4 T4 F4 E.
  eapply step; [exact T4|exact F4| |exact E|].
  { eapply emits_weaken; [apply emits_installScriptStep|]. by right. }
  clear E. intros [] w5 t5 T5 F5 [E|(a & w6 & _ & E)]%bind_Fatal_inv.
  - destruct (fails_startService cfg _ _ _ E) as [->|[u ->]]; [done|by destruct (Hf2 u)].
  - by destruct (fails_removeBuildDirs cfg _ _ _ E).
Qed.

End Waiting.

Section RootIsFile.
Context {Env : Type}.
Variable systemctl : list string → Env → bool * Env.
Variable bash : string → string → FS.t → Env → bool * FS.t * Env.
Implicit Types (w : World Env).

Lemma mkdir_all_file_on_way (f : FS.t) (a b : string) (d : string) :
  f !! [a] = Some (FS.File d) ∨ f !! [a; b] = Some (FS.File d) →
  FS.mkdir_all f [a; b] = None.
Proof.
  intros H. unfold FS.mkdir_all. cbn.
  destruct (f !! [a]) as [[d'|]|] eqn:Ea.
  - done.
  - destruct H as [H|H]; [done|]. by rewrite H.
  - destruct H as [H|H]; [done|]. rewrite lookup_insert_ne by done. by rewrite H.
Qed.

(** X12: when [/opt] or the install root itself is a regular file, the
    install stage of an application that is not a service ends with the
    fatal error of the install directory, after the one attempt to make
    it, and leaves every file as it was. *)
Theorem install_root_must_be_directory fuel (cfg : Config) w (d : string) :
  Systemd cfg = false → FS.valid_name (AppName cfg) →
  fs w !! ["opt"] = Some (FS.File d) ∨ fs w !! rootKey cfg = Some (FS.File d) →
  ∃ w', doInstall systemctl bash fuel cfg w = Fatal FCreateInstallDir w'
        ∧ fs w' = fs w
        ∧ trace w' = trace w ++ [EvMkdirAll (installRoot cfg)].
Proof.
  intros Hs Hv Hf. unfold doInstall, stopIfActive. rewrite Hs.
  unfold bind at 1. unfold ret at 1. unfold bind at 1. unfold os_MkdirAll.
  rewrite resolve_installRoot by done. cbn [mbind option_bind].
  unfold rootKey. rewrite (mkdir_all_file_on_way (fs w) "opt" (AppName cfg) d) by done.
  cbn [negb]. eexists. by repeat split.
Qed.

End RootIsFile.

(** ** From the build to the install *)

Section BuildThenFind.
Context {Env : Type}.
Variable systemctl : list string → Env → bool * Env.
Variable bash : string → string → FS.t → Env → bool * FS.t * Env.
Variable glob : string → list string → FS.t → option (list string).
Variable random : Env → N * Env.
Implicit Types (w : World Env).

Lemma under_cons (a : string) (l : list string) : FS.under [a] (a :: l) = true.
Proof. apply (under_app [a] l). Qed.

(** A build without script makes a staging directory that was not there,
    and changes nothing outside it. *)
Lemma doBuild_fresh (cfg : Config) w w' :
  plainName (AppName cfg) → BuildScript cfg = "" →
  Forall FS.valid_name (cwd w) →
  globInside glob (cwd w) (BuildFiles cfg) →
  doBuild bash glob random cfg w = Ok tt w' →
  ∃ r, fs w !! ["tmp"; stagingName (AppName cfg) r] = None
    ∧ fs w' !! ["tmp"; stagingName (AppName cfg) r] = Some FS.Dir
    ∧ (∀ k, FS.under ["tmp"; stagingName (AppName cfg) r] k = false →
            fs w' !! k = fs w !! k)
    ∧ cwd w' = cwd w ∧ TMPDIR w' = TMPDIR w.
Proof.
  intros Hn HBS Hcwd Hg Hrun.
  destruct (doBuild_footprint bash glob random cfg w w' Hn HBS Hcwd Hg Hrun)
    as (r & _ & Hfr & Hc & Ht & Hz).
  exists r. set (S := ["tmp"; stagingName (AppName cfg) r]) in *.
  split; [done|]. split; [|split; [|done]].
  - rewrite (Hz (λ k, FS.under S k && bool_decide (k ≠ S))).
    + by rewrite lookup_insert_eq.
    + intros k Hk. rewrite Hk. cbn. intros Hb. apply bool_decide_eq_false in Hb.
      by destruct (decide (k = S)).
    + rewrite bool_decide_false by (by intros ?). by rewrite andb_false_r.
  - intros k Hk. rewrite (Hz (FS.under S)); [| |done].
    + rewrite lookup_insert_ne; [done|]. intros <-. by rewrite under_refl in Hk.
    + intros k' Hk' E. by rewrite Hk' in E.
Qed.

(** X3: a successful build without script, with patterns that match
    inside the project, makes one new directory [/tmp/qp_build_<app>_<n>]
    that did not exist before, and changes nothing outside that
    directory; it never writes into a staging directory that is already
    there. *)
Theorem build_makes_fresh_staging_directory (cfg : Config) w w' :
  plainName (AppName cfg) → BuildScript cfg = "" →
  Forall FS.valid_name (cwd w) →
  globInside glob (cwd w) (BuildFiles cfg) →
  doBuild bash glob random cfg w = Ok tt w' →
  ∃ r, fs w !! ["tmp"; stagingName (AppName cfg) r] = None
    ∧ fs w' !! ["tmp"; stagingName (AppName cfg) r] = Some FS.Dir
    ∧ (∀ k, FS.under ["tmp"; stagingName (AppName cfg) r] k = false →
            fs w' !! k = fs w !! k)
    ∧ cwd w' = cwd w ∧ TMPDIR w' = TMPDIR w.
Proof. apply doBuild_fresh. Qed.

Lemma stagingDirs_nil (appName : string) w tk :
  FS.resolve (cwd w) (tempDir w) = Some tk →
  (∀ name, Path.HasPrefix name (stagingPrefix appName) = true →
           fs w !! (tk ++ [name]) = None) →
  stagingDirs appName w = [].
Proof.
  intros Hr Hnone. unfold stagingDirs. rewrite Hr. cbn [mbind option_bind].
  destruct (FS.read_dir (fs w) tk) as [entries|] eqn:Hrd; [|done].
  destruct (filter _ entries) as [|name l] eqn:Hfl; [done|].
  assert (name ∈ filter (λ name, Path.HasPrefix name (stagingPrefix appName) = true) entries)
    as [Hp Hin]%list_elem_of_filter by (rewrite Hfl; apply elem_of_cons; by left).
  apply (read_dir_elem _ _ _ _ Hrd) in Hin. rewrite Hnone in Hin by done.
  by destruct Hin.
Qed.

Lemma stagingDirs_nil_inv (appName : string) w tk :
  FS.resolve (cwd w) (tempDir w) = Some tk → FS.is_dir (fs w) tk = true →
  stagingDirs appName w = [] →
  ∀ name, Path.HasPrefix name (stagingPrefix appName) = true →
          fs w !! (tk ++ [name]) = None.
Proof.
  intros Hr Hd. unfold stagingDirs. rewrite Hr. cbn [mbind option_bind].
  destruct (FS.read_dir (fs w) tk) as [entries|] eqn:Hrd.
  2:{ unfold FS.read_dir in Hrd. by rewrite Hd in Hrd. }
  intros Hnil name Hp. destruct (fs w !! (tk ++ [name])) as [v|] eqn:E; [|done].
  assert (name ∈ filter (λ name, Path.HasPrefix name (stagingPrefix appName) = true) entries)
    as Hin.
  { apply list_elem_of_filter. split; [done|]. apply (read_dir_elem _ _ _ _ Hrd). by eexists. }
  rewrite Hnil in Hin. by apply elem_of_nil in Hin.
Qed.


Lemma for_each_Ok_elem {A} (l : list A) (body : A → M Env unit) w w' x :
  for_each l body w = Ok tt w' → x ∈ l → ∃ wa wb, body x wa = Ok tt wb.
Proof.
  revert w. induction l as [|y l IH]; intros w Hrun Hin; [by apply elem_of_nil in Hin|].
  cbn [for_each] in Hrun. apply bind_Ok in Hrun as ([] & w1 & Hy & Hrest).
  apply elem_of_cons in Hin as [->|Hin]; [by eexists _, _|by eapply IH].
Qed.


End BuildThenFind.

(** ** What the build stages *)

Section CopyTables.

Lemma copyTable_under (f : FS.t) (s d r : list string) (v : FS.node) :
  s ≠ [] → s ≠ d → copyTable f s d (d ++ r) = Some v → f !! (s ++ r) = Some v.
Proof.
  intros Hs Hsd. unfold copyTable.
  destruct (FS.stat f s) as [[data|]|] eqn:E; [| |done].
  - case_bool_decide as Hk.
    + rewrite bool_decide_false by done. intros [= <-].
      assert (r = []) as ->.
      { apply (inj (app d)). by rewrite (right_id_L [] (++)). }
      rewrite (right_id_L [] (++)). destruct s; [done|]. exact E.
    + intros (_ & _ & [x Hx]%prefix_of_parent)%mkdirTable_Some. exfalso.
      rewrite <-(assoc_L (++)) in Hx. rewrite <-(right_id_L [] (++) d) in Hx at 1.
      apply (inj (app d)) in Hx. symmetry in Hx. apply app_eq_nil in Hx as [-> _].
      apply Hk. by rewrite (right_id_L [] (++)).
  - rewrite strip_prefix_app. destruct r as [|c r]; [|done].
    intros [= <-]. rewrite (right_id_L [] (++)). destruct s; [done|]. exact E.
Qed.

Lemma copyTable_place (f : FS.t) (s d r : list string) (v : FS.node) :
  s ≠ [] → s ≠ d → f !! (s ++ r) = Some v → (r ≠ [] → f !! s = Some FS.Dir) →
  copyTable f s d (d ++ r) = Some v.
Proof.
  intros Hs Hsd Hl Hdir. unfold copyTable. destruct r as [|c r].
  - rewrite (right_id_L [] (++)) in Hl |- *.
    assert (FS.stat f s = Some v) as -> by (by destruct s).
    destruct v as [data|].
    + rewrite bool_decide_true by done. by rewrite bool_decide_false.
    + pose proof (strip_prefix_app d []) as E. rewrite (right_id_L [] (++)) in E.
      by rewrite E.
  - assert (FS.stat f s = Some FS.Dir) as ->.
    { destruct s; [done|]. by apply Hdir. }
    by rewrite strip_prefix_app.
Qed.

End CopyTables.

Section Mirror.
Context {Env : Type}.
Variable glob : string → list string → FS.t → option (list string).
Variable fs0 : FS.t.
Variable cwd0 : list string.
Variable n : string.
Hypothesis Hwf : FS.wf fs0.
Hypothesis Hap : apart cwd0 ["tmp"].
Hypothesis Hcwd : Forall FS.valid_name cwd0.
Hypothesis Htmp : fs0 !! ["tmp"] = Some FS.Dir.
Implicit Types (w : World Env) (f : FS.t).

Lemma wf_above (k r : list string) :
  k ≠ [] → r ≠ [] → is_Some (fs0 !! (k ++ r)) → fs0 !! k = Some FS.Dir.
Proof.
  intros Hk. induction r as [|c r IH] using rev_ind; [done|]. intros _ Hs.
  destruct (Hwf _ Hs) as (_ & _ & Hp). unfold FS.parent in Hp.
  rewrite (assoc_L (++)), removelast_last in Hp.
  destruct r as [|c' r].
  - rewrite (right_id_L [] (++)) in Hp. by destruct k.
  - apply IH; [done|]. destruct k; [done|]. cbn in Hp |- *. by rewrite Hp.
Qed.

Lemma project_unstaged (x : list string) : FS.under ["tmp"; n] (cwd0 ++ x) = false.
Proof.
  apply not_true_is_false. intros [r Hr]%under_spec. destruct Hap as [H1 H2].
  destruct cwd0 as [|a c].
  - pose proof (under_app [] ["tmp"]) as H. cbn [app] in H. congruence.
  - cbn in Hr. injection Hr as -> _. by rewrite under_cons in H2.
Qed.

Lemma mirror_step (cs : list string) f f1 f2 :
  cs ≠ [] →
  unchangedOutside (FS.under ["tmp"; n]) fs0 f → mirror cwd0 ["tmp"; n] fs0 f →
  FS.mkdir_all f (["tmp"; n] ++ FS.parent cs) = Some f1 →
  FS.copy f1 (cwd0 ++ cs) (["tmp"; n] ++ cs) = Some f2 →
  unchangedOutside (FS.under ["tmp"; n]) fs0 f2
  ∧ mirror cwd0 ["tmp"; n] fs0 f2
  ∧ (∀ k, is_Some (f !! k) → is_Some (f2 !! k))
  ∧ copied fs0 f2 (cwd0 ++ cs) (["tmp"; n] ++ cs).
Proof.
  intros Hcs Hu Hmi Hm Hc.
  assert (cwd0 ++ cs ≠ []) as Hs by (by intros [_ ?]%app_eq_nil).
  assert (cwd0 ++ cs ≠ ["tmp"; n] ++ cs) as Hsd.
  { intros E. pose proof (project_unstaged cs) as H. rewrite E in H.
    by rewrite under_app in H. }
  pose proof (mkdir_override _ _ _ Hm) as O1.
  pose proof (copy_override _ _ _ _ Hs Hc) as O2.
  assert (∀ k, FS.under ["tmp"; n] k = true → FS.under ["tmp"; n] k = false →
               k = ["tmp"; n] ∧ fs0 !! ["tmp"; n] = Some FS.Dir) as Hz by congruence.
  assert (unchangedOutside (FS.under ["tmp"; n]) fs0 f1) as Hu1.
  { eapply outside_override; [exact Hu|exact O1|]. by apply quiet_staging_mkdir. }
  assert (unchangedOutside (FS.under ["tmp"; n]) fs0 f2) as Hu2.
  { eapply outside_override; [exact Hu1|exact O2|]. by apply quiet_staging_copy. }
  assert (∀ r, f1 !! ((cwd0 ++ cs) ++ r) = fs0 !! (cwd0 ++ cs ++ r)) as Hsrc.
  { intros r. rewrite <-(assoc_L (++)). apply Hu1, project_unstaged. }
  assert (is_Some (fs0 !! (cwd0 ++ cs))) as Hex.
  { pose proof (Hsrc []) as H. rewrite !(right_id_L [] (++)) in H. rewrite <-H.
    unfold FS.copy in Hc. destruct (FS.stat f1 (cwd0 ++ cs)) as [v|] eqn:E; [|done].
    destruct (cwd0 ++ cs); [done|]. by eexists. }
  assert (∀ pre x, pre ≠ [] → x ≠ [] → cs = pre ++ x →
                   fs0 !! (cwd0 ++ pre) = Some FS.Dir) as Hdirs.
  { intros pre x Hpre Hx ->. apply (wf_above (cwd0 ++ pre) x); [|done|].
    - by intros [_ ?]%app_eq_nil.
    - by rewrite <-(assoc_L (++)). }
  split; [done|]. split; [|split].
  - intros rel v Hrel Hl. rewrite (O2 _) in Hl.
    destruct (copyTable f1 (cwd0 ++ cs) (["tmp"; n] ++ cs) (["tmp"; n] ++ rel))
      as [v'|] eqn:ET.
    + injection Hl as ->.
      destruct (FS.under (["tmp"; n] ++ cs) (["tmp"; n] ++ rel)) eqn:Eu.
      * rewrite under_app_app in Eu. apply under_spec in Eu as [r ->].
        rewrite (assoc_L (++)) in ET. apply copyTable_under in ET; [|done..].
        by rewrite Hsrc in ET.
      * rewrite (copyTable_Dir_outside _ _ _ _ _ Eu ET).
        apply copyTable_Some in ET as [ET|[_ Hp]]; [congruence|].
        apply prefix_of_under in Hp. rewrite under_app_app in Hp.
        apply under_spec in Hp as [x Hx]. apply (Hdirs rel x); [done| |done].
        intros ->. rewrite (right_id_L [] (++)) in Hx. subst rel.
        by rewrite under_refl in Eu.
    + rewrite (O1 _) in Hl.
      destruct (mkdirTable (["tmp"; n] ++ FS.parent cs) (["tmp"; n] ++ rel))
        as [v'|] eqn:ET1; [|by apply Hmi].
      injection Hl as ->. apply mkdirTable_Some in ET1 as (-> & _ & Hp).
      apply prefix_of_under in Hp. rewrite under_app_app in Hp.
      apply under_spec in Hp as [x Hx].
      destruct (exists_last Hcs) as (cs' & c & ->).
      unfold FS.parent in Hx. rewrite removelast_last in Hx. subst cs'.
      apply (Hdirs rel (x ++ [c])); [done| |by rewrite (assoc_L (++))].
      by intros [_ ?]%app_eq_nil.
  - intros k Hk. eapply override_is_Some; [exact O2|].
    eapply override_is_Some; [exact O1|done].
  - intros rel v Hl. rewrite <-(assoc_L (++)) in Hl. rewrite (O2 _).
    rewrite (copyTable_place f1 _ _ rel v); [done..| |].
    + by rewrite Hsrc.
    + intros Hrel. pose proof (Hsrc []) as H. rewrite !(right_id_L [] (++)) in H.
      rewrite H. apply (wf_above (cwd0 ++ cs) rel); [done..|].
      rewrite <-(assoc_L (++)). by eexists.
Qed.

Lemma copied_persists f f' (cs : list string) :
  cs ≠ [] →
  (∀ k, is_Some (f !! k) → is_Some (f' !! k)) → mirror cwd0 ["tmp"; n] fs0 f' →
  copied fs0 f (cwd0 ++ cs) (["tmp"; n] ++ cs) →
  copied fs0 f' (cwd0 ++ cs) (["tmp"; n] ++ cs).
Proof.
  intros Hcs Hmono Hmi Hp rel v Hl.
  destruct (Hmono ((["tmp"; n] ++ cs) ++ rel)) as [v' Hv']; [by erewrite Hp|].
  rewrite Hv'. rewrite <-(assoc_L (++)) in Hv'. apply Hmi in Hv'.
  - rewrite <-(assoc_L (++)) in Hl. congruence.
  - by intros [? _]%app_eq_nil.
Qed.

Local Abbreviation comps p := (Path.clean_comps false (Path.split_slash p)).

Lemma matches_mirror l bd w w' :
  Path.is_rooted bd = true → FS.resolve cwd0 bd = Some ["tmp"; n] →
  Forall (λ p, Path.is_rooted p = false ∧ strictlyInside p) l →
  cwd w = cwd0 →
  for_each l (λ src, bind (copyPreserveRelBase src "." bd) (λ err,
      match err with Some e => fatal (FCopy e) | None => ret tt end)) w = Ok tt w' →
  unchangedOutside (FS.under ["tmp"; n]) fs0 (fs w) → mirror cwd0 ["tmp"; n] fs0 (fs w) →
  unchangedOutside (FS.under ["tmp"; n]) fs0 (fs w')
  ∧ mirror cwd0 ["tmp"; n] fs0 (fs w')
  ∧ (∀ k, is_Some (fs w !! k) → is_Some (fs w' !! k))
  ∧ cwd w' = cwd0
  ∧ ∀ p, p ∈ l → copied fs0 (fs w') (cwd0 ++ comps p) (["tmp"; n] ++ comps p).
Proof.
  intros Hrb Hb Hl. revert w.
  induction Hl as [|p l [Hp Hin] Hl IH]; intros w Hc Hrun Hu Hmi.
  - cbn in Hrun. injection Hrun as <-. repeat (split; [done|]).
    intros p Hp. by apply elem_of_nil in Hp.
  - cbn [for_each] in Hrun.
    apply bind_Ok in Hrun as ([] & w1 & H1 & Hrun).
    apply bind_Ok in H1 as (e & w2 & H1 & H2).
    destruct e; [done|]. injection H2 as <-.
    destruct (strictlyInside_comps p Hin) as (Hne & _ & _).
    assert (bd ≠ "") as Hbne by (by destruct bd).
    pose proof (strictlyInside_Clean p Hp Hin) as Hcl.
    destruct (copyPreserveRelBase_Ok p "." bd (Path.Join [bd; p]) w w2)
      as (s & d & f1 & f2 & Hm & Hrs & Hrd & Hcp & Hw2); [by apply relDest_cwd|done|].
    rewrite Hc in Hm, Hrs, Hrd.
    rewrite (resolve_Dir_inside cwd0 bd p ["tmp"; n]) in Hm by done.
    cbn [mbind option_bind] in Hm.
    rewrite (resolve_Join_inside cwd0 bd p ["tmp"; n]) in Hrd by done.
    rewrite (resolve_relative_inside cwd0 p) in Hrs by done.
    injection Hrd as <-. injection Hrs as <-.
    rewrite parent_app in Hm by done.
    destruct (mirror_step (comps p) (fs w) f1 f2 Hne Hu Hmi Hm Hcp)
      as (Hu2 & Hmi2 & Hmono2 & Hpl).
    assert (fs w2 = f2 ∧ cwd w2 = cwd0) as [Hf2 Hc2] by (by subst w2).
    rewrite <-Hf2 in Hu2, Hmi2, Hmono2, Hpl.
    destruct (IH _ Hc2 Hrun Hu2 Hmi2) as (Hu' & Hmi' & Hmono' & Hc' & Hall).
    split; [done|]. split; [done|]. split; [|split; [done|]].
    + intros k Hk. by apply Hmono', Hmono2.
    + intros q [->|Hq]%elem_of_cons; [|by apply Hall].
      by apply (copied_persists (fs w2) (fs w')).
Qed.

Lemma patterns_mirror pats bd w w' :
  Path.is_rooted bd = true → FS.resolve cwd0 bd = Some ["tmp"; n] →
  globInProject glob cwd0 pats →
  cwd w = cwd0 →
  for_each pats (λ pattern, bind (filepath_Glob glob pattern) (λ matches,
      match matches with
      | None => fatal (FBadGlob pattern)
      | Some matches =>
          for_each matches (λ src, bind (copyPreserveRelBase src "." bd) (λ err,
            match err with Some e => fatal (FCopy e) | None => ret tt end))
      end)) w = Ok tt w' →
  unchangedOutside (FS.under ["tmp"; n]) fs0 (fs w) → mirror cwd0 ["tmp"; n] fs0 (fs w) →
  unchangedOutside (FS.under ["tmp"; n]) fs0 (fs w')
  ∧ mirror cwd0 ["tmp"; n] fs0 (fs w')
  ∧ (∀ k, is_Some (fs w !! k) → is_Some (fs w' !! k))
  ∧ cwd w' = cwd0
  ∧ ∀ pat l p, pat ∈ pats → glob pat cwd0 fs0 = Some l → p ∈ l →
      Path.is_rooted p = false ∧ strictlyInside p
      ∧ copied fs0 (fs w') (cwd0 ++ comps p) (["tmp"; n] ++ comps p).
Proof.
  intros Hrb Hb. revert w. induction pats as [|pat pats IH]; intros w Hg Hc Hrun Hu Hmi.
  - cbn in Hrun. injection Hrun as <-. repeat (split; [done|]).
    intros pat l p Hp. by apply elem_of_nil in Hp.
  - cbn [for_each] in Hrun.
    apply bind_Ok in Hrun as ([] & w1 & H1 & Hrun).
    apply bind_Ok in H1 as (m & w2 & H1 & H2).
    unfold filepath_Glob in H1. injection H1 as <- <-.
    destruct (glob pat (cwd w) (fs w)) as [ms|] eqn:Em; [|done].
    rewrite Hc in Em.
    destruct (Hg pat) as [Hins Hsame]; [apply elem_of_cons; by left|].
    assert (glob pat cwd0 fs0 = Some ms) as Em0.
    { rewrite <-Em. apply Hsame. intros k [x ->]%under_spec. symmetry.
      apply Hu, project_unstaged. }
    destruct (matches_mirror ms bd w w1) as (Hu1 & Hmi1 & Hmono1 & Hc1 & Hall1); try done.
    { by eapply Hins. }
    destruct (IH w1) as (Hu' & Hmi' & Hmono' & Hc' & Hall'); try done.
    { intros q Hq. apply Hg. apply elem_of_cons. by right. }
    split; [done|]. split; [done|]. split; [|split; [done|]].
    + intros k Hk. by apply Hmono', Hmono1.
    + intros q l p [->|Hq]%elem_of_cons Hgl Hp; [|by eapply Hall'].
      rewrite Em0 in Hgl. injection Hgl as <-.
      pose proof (Hins _ _ Em0) as Hf. rewrite Forall_forall in Hf.
      destruct (Hf p Hp) as [Hr Hin]. split; [done|]. split; [done|].
      destruct (strictlyInside_comps p Hin) as (Hne & _ & _).
      apply (copied_persists (fs w1) (fs w')); [done..|]. by apply Hall1.
Qed.

End Mirror.

Section BuildStages.
Context {Env : Type}.
Variable bash : string → string → FS.t → Env → bool * FS.t * Env.
Variable glob : string → list string → FS.t → option (list string).
Variable random : Env → N * Env.
Implicit Types (w : World Env).


End BuildStages.

(** ** The order of the build *)

Section BuildOrder.
Context {Env : Type}.
Variable bash : string → string → FS.t → Env → bool * FS.t * Env.
Variable glob : string → list string → FS.t → option (list string).
Variable random : Env → N * Env.
Implicit Types (w : World Env).

Lemma mkdir_temp_try_trace tries prefix suffix w name w' :
  mkdir_temp_try random tries prefix suffix w = Ok (Some name) w' →
  trace w' = trace w ++ [EvMkdirTemp name].
Proof.
  revert w. induction tries as [|n IH]; intros w; [done|].
  cbn [mkdir_temp_try]. destruct (random (env w)) as [r e].
  destruct (FS.resolve _ _) as [p|]; [|done].
  destruct (FS.mkdir _ p) as [fs'| |]; [|apply (IH (set_env e w))|done].
  by intros [= <- <-].
Qed.

Lemma os_MkdirTemp_trace dir pattern w name w' :
  os_MkdirTemp random dir pattern w = Ok (Some name) w' →
  trace w' = trace w ++ [EvMkdirTemp name].
Proof.
  unfold os_MkdirTemp. destruct (prefixAndSuffix pattern) as [[prefix suffix]|]; [|done].
  apply mkdir_temp_try_trace.
Qed.

(** X2: the order of a successful build.  The staging directory is made
    first; then come only copies and the directories made for them; and
    when a build script is configured, its run is the last step, as
    [/bin/bash] on the script inside the staging directory, with the
    staging directory as working directory. *)
Theorem build_order (cfg : Config) w w' :
  doBuild bash glob random cfg w = Ok tt w' →
  ∃ buildDir t,
    trace w' = trace w ++ EvMkdirTemp buildDir :: t ++ scriptRun cfg buildDir
    ∧ Forall copyWork t.
Proof.
  intros Hrun. unfold doBuild in Hrun.
  apply bind_Ok in Hrun as (m & w1 & Hm & Hrun).
  destruct m as [bd|]; [|done].
  apply os_MkdirTemp_trace in Hm.
  apply bind_Ok in Hrun as ([] & w2 & Hl & Hrun).
  assert (∃ t, trace w2 = trace w1 ++ t ∧ Forall copyWork t) as (t2 & T2 & F2).
  { eapply emits_Ok; [|exact Hl]. repeat emits_step; try done.
    by apply emits_copyPreserveRelBase. }
  exists bd. unfold scriptRun. case_bool_decide as Hs.
  - apply bind_Ok in Hrun as (present & w3 & H3 & Hrun).
    injection H3 as _ <-.
    apply bind_Ok in Hrun as ([] & w4 & H4 & Hrun).
    assert (∃ t, trace w4 = trace w2 ++ t ∧ Forall copyWork t) as (t4 & T4 & F4).
    { eapply emits_Ok; [|exact H4]. repeat emits_step; done. }
    apply bind_Ok in Hrun as (ran & w5 & H5 & Hrun).
    destruct ran; cbn [negb] in Hrun; [|done]. injection Hrun as <-.
    unfold run_bash in H5. destruct (bash _ _ _ _) as [[ok f'] e'].
    injection H5 as -> <-. exists (t2 ++ t4). split; [|by apply Forall_app].
    cbn. rewrite T4, T2, Hm. by rewrite <-!(assoc_L (++)).
  - injection Hrun as <-. exists t2. split; [|done].
    rewrite T2, Hm. by rewrite (right_id_L [] (++)), <-(assoc_L (++)).
Qed.

End BuildOrder.

(** ** Entries that climb out of the project *)

Section Escape.
Context {Env : Type}.
Implicit Types (w : World Env).

Lemma climbing_path (x : string) :
  FS.valid_name x →
  Path.is_rooted ("../" +:+ x) = false
  ∧ Path.split_slash ("../" +:+ x) = [".."; x]
  ∧ Path.Clean ("../" +:+ x) ≠ ".".
Proof.
  intros Hv. destruct (valid_name_normal x Hv) as [Hn Hs].
  assert (Path.split_slash ("../" +:+ x) = [".."; x]) as Hsp.
  { change ("../" +:+ x) with (".." +:+ "/" +:+ x).
    by rewrite split_slash_app, (split_slash_single x). }
  split; [done|]. split; [done|].
  unfold Path.Clean, Path.clean_path. rewrite Hsp.
  change (Path.is_rooted ("../" +:+ x)) with false.
  unfold Path.clean_comps. cbn [fold_left].
  change (Path.clean_push false [] "..") with [".."].
  rewrite clean_push_normal by done. done.
Qed.

Lemma resolve_climb (cwd0 : list string) (R top : string) (rest : list string) (x : string) :
  R ≠ "" → Path.is_rooted R = true → FS.resolve cwd0 R = Some (rest ++ [top]) →
  normal top → FS.valid_name x →
  FS.resolve cwd0 (Path.Join [R; "../" +:+ x]) = Some (rest ++ [x]).
Proof.
  intros HR Hrt Hr Htop Hv. destruct (valid_name_normal x Hv) as [Hn Hs].
  destruct (climbing_path x Hv) as (_ & Hsp & _).
  unfold FS.resolve in Hr. rewrite bool_decide_false in Hr by done.
  unfold Path.clean_path in Hr. rewrite Hrt in Hr. cbn [Path.rooted Path.comps] in Hr.
  injection Hr as Hr. unfold Path.clean_comps in Hr.
  apply (f_equal (@rev _)) in Hr. rewrite rev_involutive, rev_unit in Hr.
  rewrite Join2 by done. unfold FS.resolve.
  rewrite bool_decide_false by apply Clean_nonempty.
  unfold Path.Clean. rewrite clean_path_render, clean_path_app by done.
  rewrite Hrt, Hr, Hsp. cbn [Path.rooted Path.comps fold_left].
  unfold Path.clean_push at 2. rewrite bool_decide_false by (intros [?|?]; done).
  rewrite bool_decide_true by done.
  rewrite bool_decide_false by (by destruct Htop as (_ & _ & ?)).
  rewrite clean_push_normal by done. cbn [rev]. by rewrite rev_involutive.
Qed.

Lemma resolve_climb_root (cwd0 : list string) (cfg : Config) (x : string) :
  FS.valid_name (AppName cfg) → FS.valid_name x →
  FS.resolve cwd0 (Path.Join [installRoot cfg; "../" +:+ x]) = Some ["opt"; x].
Proof.
  intros Ha Hv. destruct (valid_name_normal _ Ha) as [Han _].
  apply (resolve_climb cwd0 (installRoot cfg) (AppName cfg) ["opt"] x);
    [apply installRoot_nonempty|done|by apply resolve_installRoot|done..].
Qed.

Lemma copy_lands (f f' : FS.t) (s d : list string) :
  FS.copy f s d = Some f' → d ≠ [] → is_Some (f' !! d).
Proof.
  intros Hc Hd. destruct (FS.stat f s) as [[data|]|] eqn:E.
  - destruct (copy_file_lookup _ _ _ _ _ E Hc) as (f1 & _ & _ & ->).
    rewrite lookup_insert_eq. by eexists.
  - destruct (copy_dir_lookup _ _ _ _ d E Hc) as (f1 & Hm & ->).
    pose proof (strip_prefix_app d []) as Ed. rewrite (right_id_L [] (++)) in Ed.
    rewrite Ed. destruct (f !! (s ++ [])); [by eexists|].
    rewrite (mkdir_all_lookup _ _ _ d Hm). rewrite bool_decide_true by done. by eexists.
  - unfold FS.copy in Hc. by rewrite E in Hc.
Qed.

(** X14: entries are not confined to the install root.  An entry of the
    working directory named [../x] is copied to [/opt/x], next to the
    install root of the application and not into it; a regular file
    arrives there with its bytes. *)
Theorem entry_can_leave_install_root (cfg : Config) (buildDir x : string) w w' :
  FS.valid_name (AppName cfg) → FS.valid_name x → x ≠ AppName cfg →
  installEntry buildDir (installRoot cfg) {| File := "../" +:+ x; From := "cwd" |} w
    = Ok tt w' →
  is_Some (fs w' !! ["opt"; x])
  ∧ FS.under (rootKey cfg) ["opt"; x] = false
  ∧ (∀ src data, FS.resolve (cwd w) ("../" +:+ x) = Some src →
       fs w !! src = Some (FS.File data) → src ≠ ["opt"; x] →
       fs w' !! ["opt"; x] = Some (FS.File data)).
Proof.
  intros Ha Hv Hne Hrun. destruct (climbing_path x Hv) as (Hr & _ & Hcl).
  apply installEntry_Ok in Hrun as (srcPath & baseDir & Hcase & _ & Hcp).
  destruct Hcase as [(_ & -> & ->)|(Hf & _)]; [|done]. cbn [File] in Hcp.
  destruct (copyPreserveRelBase_Ok _ _ _ _ _ _
              (relDest_cwd _ _ (installRoot_nonempty cfg) Hr Hcl) Hcp)
    as (s & d & f1 & f2 & Hm & Hrs & Hrd & Hcopy & ->).
  rewrite resolve_climb_root in Hrd by done. injection Hrd as <-.
  cbn [fs emit set_fs]. split; [by apply (copy_lands f1 f2 s)|]. split.
  - apply not_true_is_false. intros [r Hx]%under_spec. unfold rootKey in Hx.
    injection Hx as Hx _. by destruct Hne.
  - intros src data Hsrc Hl Hsd. rewrite Hrs in Hsrc. injection Hsrc as ->.
    destruct (FS.resolve (cwd w) (Path.Dir _)) as [dk|]; [|done]. cbn in Hm.
    assert (FS.stat f1 src = Some (FS.File data)) as Hst.
    { destruct src as [|c src]; [done|]. cbn.
      by apply (mkdir_all_preserves _ _ _ _ _ Hm). }
    destruct (copy_file_lookup _ _ _ _ _ Hst Hcopy) as (f1' & _ & _ & ->).
    rewrite lookup_insert_eq. by rewrite bool_decide_false.
Qed.

End Escape.

(** ** Builds that fail, and absolute paths *)

Section FailedBuild.
Context {Env : Type}.
Variable systemctl : list string → Env → bool * Env.
Variable bash : string → string → FS.t → Env → bool * FS.t * Env.
Variable glob : string → list string → FS.t → option (list string).
Variable random : Env → N * Env.
Implicit Types (w : World Env) (P : Event → Prop).

Lemma emits_mkdir_temp_try P tries prefix suffix :
  (∀ path, P (EvMkdirTemp path)) →
  emits P (mkdir_temp_try random tries prefix suffix).
Proof.
  intros HP. induction tries as [|n IH]; intros w.
  - cbn. exists []. by rewrite (right_id_L [] (++)).
  - cbn [mkdir_temp_try]. destruct (random (env w)) as [r e].
    destruct (FS.resolve _ _) as [p|].
    2:{ exists []. cbn. by rewrite (right_id_L [] (++)). }
    destruct (FS.mkdir _ p) as [fs'| |].
    + eexists [_]. cbn. split; [done|]. by apply Forall_singleton.
    + apply (IH (set_env e w)).
    + exists []. cbn. by rewrite (right_id_L [] (++)).
Qed.

Lemma emits_os_MkdirTemp P dir pattern :
  (∀ path, P (EvMkdirTemp path)) →
  emits P (os_MkdirTemp random dir pattern).
Proof.
  intros HP. unfold os_MkdirTemp. destruct (prefixAndSuffix pattern) as [[prefix suffix]|].
  - by apply emits_mkdir_temp_try.
  - apply emits_ret.
Qed.

Lemma emits_doBuild (cfg : Config) :
  emits buildPhase (doBuild bash glob random cfg).
Proof.
  unfold doBuild. apply emits_bind.
  { apply emits_os_MkdirTemp. intros path. right. by exists path. }
  intros made. apply emits_weaken with (P := replacePhase); [|by left].
  repeat emits_step; try done.
  by apply emits_copyPreserveRelBase.
Qed.

(** X15: when the build stage of an install action fails, the install
    stage does not run.  The action ends with the error of the build, and
    all that was done is staging work: the service manager was not called,
    so a running service was not stopped, and nothing was removed. *)
Theorem failed_build_stops_nothing fuel (cfg : Config) w f w1 :
  doBuild bash glob random cfg w = Fatal f w1 →
  installAction systemctl bash glob random fuel cfg w = Fatal f w1
  ∧ ∃ t, trace w1 = trace w ++ t ∧ Forall buildPhase t.
Proof.
  intros Hb. split.
  - unfold installAction. by apply bind_Fatal.
  - pose proof (emits_doBuild cfg w) as H. by rewrite Hb in H.
Qed.

Lemma keepsDirs_ret {A} (a : A) : keepsDirs (ret (Env:=Env) a).
Proof. by intros w k. Qed.

Lemma keepsDirs_fatal {A} f : keepsDirs (fatal (Env:=Env) (A:=A) f).
Proof. by intros w k. Qed.

Lemma keepsDirs_bind {A B} (m : M Env A) (k : A → M Env B) :
  keepsDirs m → (∀ a, keepsDirs (k a)) → keepsDirs (bind m k).
Proof.
  intros Hm Hk w. specialize (Hm w). unfold bind.
  destruct (m w) as [a w1|f w1|]; [|done..].
  specialize (Hk a w1). destruct (k a w1) as [b w2|f w2|]; [| |done]; auto.
Qed.

Lemma keepsDirs_for_each {A} (l : list A) (body : A → M Env unit) :
  (∀ x, keepsDirs (body x)) → keepsDirs (for_each l body).
Proof.
  intros Hb. induction l as [|x l IH]; cbn; [apply keepsDirs_ret|].
  apply keepsDirs_bind; [apply Hb|done].
Qed.

Lemma keepsDirs_os_MkdirAll path : keepsDirs (os_MkdirAll (Env:=Env) path).
Proof.
  intros w. unfold os_MkdirAll.
  destruct (FS.resolve (cwd w) path) as [p|]; cbn; [|done].
  destruct (FS.mkdir_all (fs w) p) as [f'|] eqn:E; [|done].
  intros k Hk. cbn. by apply (mkdir_all_preserves _ _ _ _ _ E).
Qed.

Lemma copy_keeps_dirs (f f' : FS.t) (s d k : list string) :
  FS.copy f s d = Some f' → f !! k = Some FS.Dir → f' !! k = Some FS.Dir.
Proof.
  unfold FS.copy. destruct (FS.stat f s) as [[data|]|]; [| |done].
  - destruct (FS.mkdir_all f (FS.parent d)) as [f1|] eqn:Em; [|done].
    intros Hc Hk. pose proof (mkdir_all_preserves _ _ _ _ _ Em Hk) as Hk1.
    destruct (decide (k = d)) as [->|Hne].
    + destruct d as [|c d].
      * done.
      * cbn [FS.stat] in Hc. by rewrite Hk1 in Hc.
    + destruct (FS.stat f1 d) as [[?|]|]; [|done|]; injection Hc as <-;
        by rewrite lookup_insert_ne.
  - destruct (FS.under s d || FS.under d s); [done|].
    destruct (FS.mkdir_all f d) as [f1|] eqn:Em; [|done].
    case_bool_decide as Hcl; [done|]. intros [= <-] Hk.
    pose proof (mkdir_all_preserves _ _ _ _ _ Em Hk) as Hk1.
    rewrite lookup_union.
    destruct (list_to_map (FS.reroot d (FS.subtree f s)) !! k) as [v|] eqn:El.
    + apply elem_of_list_to_map_2 in El. destruct v as [data|].
      * destruct Hcl. apply Exists_exists. eexists. split; [exact El|].
        unfold FS.clash. cbn. by rewrite Hk1.
      * by rewrite Hk1.
    + by rewrite Hk1.
Qed.

Lemma keepsDirs_cp_Copy src dst : keepsDirs (cp_Copy (Env:=Env) src dst).
Proof.
  intros w. unfold cp_Copy.
  destruct (FS.resolve (cwd w) src) as [s|]; [|done].
  destruct (FS.resolve (cwd w) dst) as [d|]; [|done].
  destruct (FS.copy (fs w) s d) as [f'|] eqn:E; [|done].
  intros k Hk. cbn. by apply (copy_keeps_dirs _ _ _ _ _ E).
Qed.

Lemma keepsDirs_copyPreserveRelBase src base root :
  keepsDirs (copyPreserveRelBase (Env:=Env) src base root).
Proof.
  unfold copyPreserveRelBase. destruct (relDest src base root) as [dst|];
    [|apply keepsDirs_ret].
  apply keepsDirs_bind; [apply keepsDirs_os_MkdirAll|].
  intros [|]; cbn [negb]; [|apply keepsDirs_ret].
  apply keepsDirs_bind; [apply keepsDirs_cp_Copy|].
  intros [|]; apply keepsDirs_ret.
Qed.

Lemma mkdir_temp_try_made tries prefix suffix w made w' :
  mkdir_temp_try random tries prefix suffix w = Ok made w' →
  match made with
  | Some name =>
      ∃ p, FS.resolve (cwd w) name = Some p ∧ fs w !! p = None
           ∧ fs w' = <[p := FS.Dir]> (fs w) ∧ cwd w' = cwd w
           ∧ trace w' = trace w ++ [EvMkdirTemp name]
  | None => True
  end.
Proof.
  revert w. induction tries as [|n IH]; intros w.
  - cbn. by intros [= <- _].
  - cbn [mkdir_temp_try]. destruct (random (env w)) as [r e].
    destruct (FS.resolve _ _) as [p|] eqn:Hr; [|by intros [= <- _]].
    destruct (FS.mkdir _ p) as [fs'| |] eqn:Hm.
    + intros [= <- <-]. exists p. cbn in Hr, Hm |- *. split; [done|].
      unfold FS.mkdir in Hm. destruct (FS.stat (fs w) p) eqn:Est; [done|].
      destruct (FS.is_dir _ _); [|done]. injection Hm as <-.
      destruct p; [done|]. done.
    + intros H. apply (IH (set_env e w)) in H. done.
    + by intros [= <- _].
Qed.

Lemma mkdir_temp_try_not_fatal tries prefix suffix w f w' :
  mkdir_temp_try random tries prefix suffix w ≠ Fatal f w'.
Proof.
  revert w. induction tries as [|n IH]; intros w; [done|].
  cbn [mkdir_temp_try]. destruct (random (env w)) as [r e].
  destruct (FS.resolve _ _) as [p|]; [|done].
  destruct (FS.mkdir _ p) as [fs'| |]; [done|apply IH|done].
Qed.

(** X16: a build without script that fails after it has made its staging
    directory leaves that directory behind: the directory, which was not
    there before, is the first thing the build made and is still there
    when the build has ended with its error. *)
Theorem failed_build_leaves_staging_directory (cfg : Config) w f w' :
  BuildScript cfg = "" →
  doBuild bash glob random cfg w = Fatal f w' → f ≠ FMkdirTemp →
  ∃ buildDir p t,
    FS.resolve (cwd w) buildDir = Some p
    ∧ fs w !! p = None ∧ fs w' !! p = Some FS.Dir
    ∧ trace w' = trace w ++ EvMkdirTemp buildDir :: t.
Proof.
  intros HBS Hrun Hf. unfold doBuild in Hrun. rewrite HBS in Hrun.
  apply bind_Fatal_inv in Hrun as [Hrun|(made & w1 & Hm & Hrun)].
  { exfalso. revert Hrun. unfold os_MkdirTemp.
    destruct (prefixAndSuffix _) as [[prefix suffix]|]; [|done].
    apply mkdir_temp_try_not_fatal. }
  assert (match made with
          | Some name =>
              ∃ p, FS.resolve (cwd w) name = Some p ∧ fs w !! p = None
                   ∧ fs w1 = <[p := FS.Dir]> (fs w) ∧ cwd w1 = cwd w
                   ∧ trace w1 = trace w ++ [EvMkdirTemp name]
          | None => True
          end) as Hmade.
  { revert Hm. unfold os_MkdirTemp.
    destruct (prefixAndSuffix _) as [[prefix suffix]|]; [|by intros [= <- _]].
    apply mkdir_temp_try_made. }
  destruct made as [bd|].
  2:{ injection Hrun as <- _. done. }
  destruct Hmade as (p & Hp & Hnone & Hfs & _ & Ht).
  set (rest := bind _ _) in Hrun.
  assert (keepsDirs rest) as Hk.
  { subst rest. apply keepsDirs_bind.
    - apply keepsDirs_for_each. intros pat. apply keepsDirs_bind; [by intros ??|].
      intros [ms|]; [|apply keepsDirs_fatal].
      apply keepsDirs_for_each. intros src.
      apply keepsDirs_bind; [apply keepsDirs_copyPreserveRelBase|].
      intros [e|]; [apply keepsDirs_fatal|apply keepsDirs_ret].
    - intros _. rewrite bool_decide_false by (by intros ?). apply keepsDirs_ret. }
  assert (emits (λ _, True) rest) as He.
  { subst rest. repeat emits_step; try done. by apply emits_copyPreserveRelBase. }
  specialize (Hk w1). specialize (He w1). rewrite Hrun in Hk, He.
  destruct He as (t & Ht' & _).
  exists bd, p, t. split; [done|]. split; [done|]. split.
  - apply Hk. rewrite Hfs. by rewrite lookup_insert_eq.
  - rewrite Ht', Ht. by rewrite <-(assoc_L (++)).
Qed.

(** X17: absolute paths are refused.  An entry taken from the working
    directory whose path is absolute is never installed: the stage ends
    with a fatal error, because the source is missing or because its path
    relative to the working directory cannot be computed, and nothing has
    been done for the entry. *)
Theorem absolute_cwd_entry_is_refused (buildDir installDir : string) (entry : FileEntry) w :
  From entry = "cwd" → Path.is_rooted (File entry) = true →
  ∃ f, installEntry buildDir installDir entry w = Fatal f w
       ∧ (f = FSourceMissing (File entry) ∨ f = FCopy (ErrRel (File entry))).
Proof.
  intros Hf Hr. unfold installEntry. rewrite Hf. rewrite bool_decide_true by done.
  unfold bind at 1. unfold ret at 1. unfold bind at 1. unfold exists_ at 1.
  destruct (match FS.resolve (cwd w) (File entry) with
            | Some p => bool_decide (is_Some (FS.stat (fs w) p))
            | None => false
            end); cbn [negb].
  - exists (FCopy (ErrRel (File entry))). split; [|by right].
    unfold bind, copyPreserveRelBase, relDest. by rewrite Rel_dot_rooted.
  - exists (FSourceMissing (File entry)). split; [done|by left].
Qed.

End FailedBuild.

(** * Scenarios *)

Section Scenarios.

Import Scenario.

(** The demo service, installed over a running instance: the instance is
    stopped first, and started last. *)
Lemma install_stop_replace_start_demo :
  Systemd demoService = true
  ∧ installOrder demoService [] (runInstallStage demoService running).
Proof.
  split; [reflexivity|].
  apply (install_stop_replace_start systemctl bash 8 demoService running).
  reflexivity.
Defined.




Lemma invalid_config_runs_nothing_demo :
  "install" ∈ ["build"; "install"; "uninstall"]
  ∧ loadConfig (λ _, Some brokenService) (configFlag [] ".qp/config.json") idle
    = Ok (Some brokenService) idle
  ∧ (InstallFiles brokenService = []
     ∨ (Systemd brokenService = true ∧ Exec brokenService = ""))
  ∧ ∃ f, runMain brokenService ["qp"; "install"] idle = Fatal f idle
         ∧ f ∈ [FAppNameRequired; FInstallFilesRequired; FExecRequired]
         ∧ exitStatus (runMain brokenService ["qp"; "install"] idle) = Some 1.
Proof.
  assert ("install" ∈ ["build"; "install"; "uninstall"]) as Ha
    by (apply elem_of_cons; right; apply elem_of_cons; by left).
  assert (loadConfig (Env:=Host) (λ _, Some brokenService)
            (configFlag [] ".qp/config.json") idle
          = Ok (Some brokenService) idle) as Hl by (vm_compute; reflexivity).
  assert (InstallFiles brokenService = []
          ∨ (Systemd brokenService = true ∧ Exec brokenService = "")) as Hb
    by (right; split; reflexivity).
  split; [exact Ha|]. split; [exact Hl|]. split; [exact Hb|].
  exact (invalid_config_runs_nothing systemctl bash glob random (λ _, Some brokenService)
           8 "qp" "install" [] brokenService idle Ha Hl Hb).
Defined.

Lemma install_places_files_demo :
  let entry := {| File := "bin/demo"; From := "cwd" |} in
  let w' := emit (EvCopy "bin/demo" "/opt/demo/bin/demo")
              (set_fs (<[ ["opt"; "demo"; "bin"; "demo"] := FS.File "ELF" ]>
                         (<[ ["opt"; "demo"; "bin"] := FS.Dir ]>
                            (<[ ["opt"; "demo"] := FS.Dir ]> disk)))
                 (emit (EvMkdirAll "/opt/demo/bin") idle)) in
  installEntry "" (installRoot demoPlain) entry idle = Ok tt w'
  ∧ ((From entry = "cwd" ∧ Path.Clean (File entry) ≠ ".")
     ∨ (From entry = "build" ∧ strictlyInside (File entry)))
  ∧ trace w' = [EvMkdirAll "/opt/demo/bin"; EvCopy "bin/demo" "/opt/demo/bin/demo"].
Proof.
  intros entry w'.
  assert (installEntry "" (installRoot demoPlain) entry idle = Ok tt w') as Hrun
    by (vm_compute; reflexivity).
  assert ((From entry = "cwd" ∧ Path.Clean (File entry) ≠ ".")
          ∨ (From entry = "build" ∧ strictlyInside (File entry))) as Hp
    by (left; split; [reflexivity|discriminate]).
  split; [exact Hrun|]. split; [exact Hp|].
  exact (proj1 (install_places_files demoPlain "" entry idle w' Hrun Hp)).
Defined.


Lemma sharedTmpDisk_namesOk : namesOk sharedTmpDisk.
Proof. unfold namesOk. apply (bool_decide_unpack _). vm_compute. exact I. Defined.



(** A check of [noStaging] that can be computed. *)
Lemma noStaging_check (appName : string) (f : FS.t) :
  map_Forall (λ k _, staged appName k = false) f → noStaging appName f.
Proof.
  intros H k Hk. destruct (f !! k) as [v|] eqn:E; [|done].
  apply H in E. cbn in E. congruence.
Qed.

(** The pattern of the demo names one file of the project. *)
Lemma stagedDemo_glob : globInProject glob ["home"; "dev"] (BuildFiles stagedDemo).
Proof.
  intros pat Hp. apply elem_of_cons in Hp as [->|Hp]; [|by apply elem_of_nil in Hp]. split.
  - intros f l. unfold glob.
    change (FS.resolve ["home"; "dev"] "data.txt") with (Some ["home"; "dev"; "data.txt"]).
    cbv beta iota. destruct (bool_decide _); intros [= <-]; [|done].
    apply Forall_singleton. split; [done|]. apply (bool_decide_unpack _). by vm_compute.
  - intros f f' H. unfold glob.
    change (FS.resolve ["home"; "dev"] "data.txt") with (Some ["home"; "dev"; "data.txt"]).
    cbv beta iota. cbn [FS.stat]. by rewrite (H ["home"; "dev"; "data.txt"]).
Qed.


(** ** The stages on the demo host *)

(** Checks of the hypotheses on the files of a host, by computation. *)
Lemma wf_check (f : FS.t) :
  map_Forall (λ k _, k ≠ [] ∧ Forall FS.valid_name k
                     ∧ FS.stat f (FS.parent k) = Some FS.Dir) f →
  FS.wf f.
Proof. intros H k [v Hk]. exact (H k v Hk). Qed.

Lemma absent_check (R : list string) (f : FS.t) :
  map_Forall (λ k _, FS.under R k = false) f →
  ∀ k, FS.under R k = true → f !! k = None.
Proof.
  intros H k Hk. destruct (f !! k) as [v|] eqn:E; [|done].
  apply H in E. cbn in E. congruence.
Qed.

Lemma stagedDemo_plain : plainName (AppName stagedDemo).
Proof. split; apply (bool_decide_unpack _); vm_compute; exact I. Qed.

Lemma project_names : Forall FS.valid_name ["home"; "dev"].
Proof. apply (bool_decide_unpack _). vm_compute. exact I. Qed.

Lemma disk_wf : FS.wf disk.
Proof. apply wf_check, (bool_decide_unpack _). vm_compute. exact I. Qed.

(** [--config] after another flag, with its value. *)
Lemma config_flag_scan_demo :
  ("--config" ∉ ["--verbose"])
  ∧ configFlag ["--verbose"; "--config"; "alt.json"; "--config"] ".qp/config.json"
    = "alt.json".
Proof.
  assert ("--config" ∉ ["--verbose"]) as H
    by (apply (bool_decide_unpack _); vm_compute; exact I).
  split; [exact H|].
  exact (proj2 (proj2 (config_flag_scan ["--verbose"] "alt.json" ["--config"]
                         ".qp/config.json" H))).
Defined.

(** The build of the demo with a build script. *)
Lemma build_order_demo :
  ∃ w', doBuild bash glob random scriptedDemo (world scriptedDisk (host false [] [11%N]))
        = Ok tt w'
    ∧ trace w'
      = [EvMkdirTemp "/tmp/qp_build_demo_11";
         EvMkdirAll "/tmp/qp_build_demo_11";
         EvCopy "data.txt" "/tmp/qp_build_demo_11/data.txt";
         EvCopy ".qp/build.sh" "/tmp/qp_build_demo_11/build.sh";
         EvExec ["/bin/bash"; "/tmp/qp_build_demo_11/build.sh"] "/tmp/qp_build_demo_11" true]
    ∧ ∃ buildDir t,
        trace w' = [] ++ EvMkdirTemp buildDir :: t ++ scriptRun scriptedDemo buildDir
        ∧ Forall copyWork t.
Proof.
  set (w0 := world scriptedDisk (host false [] [11%N])).
  set (w' := after (doBuild bash glob random scriptedDemo w0)).
  assert (doBuild bash glob random scriptedDemo w0 = Ok tt w') as H
    by (vm_compute; reflexivity).
  exists w'. split; [exact H|]. split; [vm_compute; reflexivity|].
  exact (build_order bash glob random scriptedDemo w0 w' H).
Defined.

(** The build of the demo with its data file. *)
Lemma build_makes_fresh_staging_directory_demo :
  ∃ w', doBuild bash glob random stagedDemo fresh = Ok tt w'
    ∧ ∃ r, fs fresh !! ["tmp"; stagingName "demo" r] = None
        ∧ fs w' !! ["tmp"; stagingName "demo" r] = Some FS.Dir
        ∧ (∀ k, FS.under ["tmp"; stagingName "demo" r] k = false →
                fs w' !! k = fs fresh !! k)
        ∧ cwd w' = cwd fresh ∧ TMPDIR w' = TMPDIR fresh.
Proof.
  set (w' := after (doBuild bash glob random stagedDemo fresh)).
  assert (doBuild bash glob random stagedDemo fresh = Ok tt w') as H
    by (vm_compute; reflexivity).
  exists w'. split; [exact H|].
  exact (build_makes_fresh_staging_directory bash glob random stagedDemo fresh w'
           stagedDemo_plain eq_refl project_names
           (globInProject_inside glob _ _ stagedDemo_glob) H).
Defined.


Lemma fresh_noStaging : noStaging (AppName stagedDemo) (fs fresh).
Proof. apply noStaging_check, (bool_decide_unpack _). vm_compute. exact I. Qed.



Lemma stagedDemo_entries :
  Forall (λ e, strictlyInside (File e)) (InstallFiles stagedDemo).
Proof. apply (bool_decide_unpack _). vm_compute. exact I. Qed.

Lemma stagedDemo_apart : projectApart stagedDemo (cwd fresh).
Proof.
  split; [exact project_names|].
  vm_compute. split; [split|split; [split|]]; reflexivity.
Qed.


(** The demo service, uninstalled from the host that has it. *)
Lemma uninstall_removes_only_its_places_demo :
  let w := world installedDisk (host true [] []) in
  (Systemd demoService = true → fs w !! unitKey demoService ≠ Some FS.Dir)
  ∧ ∃ w', doUninstall systemctl bash demoService w = Ok tt w'
      ∧ cwd w' = cwd w ∧ TMPDIR w' = TMPDIR w
      ∧ ∀ k, fs w' !! k
             = if FS.under (rootKey demoService) k
                 || (Systemd demoService && bool_decide (k = unitKey demoService))
               then None else fs w !! k.
Proof.
  intros w.
  assert (FS.valid_name (AppName demoService)) as Hv
    by (apply (bool_decide_unpack _); vm_compute; exact I).
  assert (Systemd demoService = true → fs w !! unitKey demoService ≠ Some FS.Dir) as Hd
    by (intros _; vm_compute; discriminate).
  split; [exact Hd|].
  exact (uninstall_removes_only_its_places systemctl bash demoService w eq_refl Hv Hd).
Defined.


(** The demo service under a service manager that never reports the unit
    as stopped. *)
Lemma wait_for_stop_has_no_timeout_demo :
  Systemd demoService = true
  ∧ doInstall stubborn bash 1000 demoService running = Diverge.
Proof.
  split; [reflexivity|].
  exact (wait_for_stop_has_no_timeout stubborn bash 1000 demoService running
           eq_refl (λ _, eq_refl) (λ _, eq_refl)).
Defined.

(** The demo service with an entry that is not there, installed over a
    running instance: the instance is stopped, and not started again. *)
Lemma failed_install_leaves_service_stopped_demo :
  ∃ w', doInstall systemctl bash 8 missingEntry running
        = Fatal (FSourceMissing "nothing") w'
    ∧ up (env w') = false
    ∧ ∃ t, trace w' = trace running ++ t
        ∧ Forall (λ ev, stopPhase (UnitNameWildcard (UnitFromConfig missingEntry)) ev
                        ∨ replacePhase ev) t.
Proof.
  eexists. split; [vm_compute; reflexivity|]. split; [reflexivity|].
  refine (failed_install_leaves_service_stopped systemctl bash 8 missingEntry running
            (FSourceMissing "nothing") _ _ _ _).
  - vm_compute. reflexivity.
  - discriminate.
  - intros u. discriminate.
Defined.

(** The demo on a host where [/opt/demo] is a regular file. *)
Lemma install_root_must_be_directory_demo :
  let w := world blockedDisk (host false [] []) in
  fs w !! rootKey demoPlain = Some (FS.File "")
  ∧ ∃ w', doInstall systemctl bash 8 demoPlain w = Fatal FCreateInstallDir w'
      ∧ fs w' = fs w
      ∧ trace w' = trace w ++ [EvMkdirAll (installRoot demoPlain)].
Proof.
  intros w.
  assert (FS.valid_name (AppName demoPlain)) as Hv
    by (apply (bool_decide_unpack _); vm_compute; exact I).
  assert (fs w !! rootKey demoPlain = Some (FS.File "")) as Hf by (vm_compute; reflexivity).
  split; [exact Hf|].
  exact (install_root_must_be_directory systemctl bash 8 demoPlain w "" eq_refl Hv
           (or_intror Hf)).
Defined.

(** The demo without service, installed and uninstalled. *)
Lemma unmanaged_never_calls_service_manager_demo :
  Systemd demoPlain = false
  ∧ emits fileWork (doInstall systemctl bash 8 demoPlain)
  ∧ emits fileWork (doUninstall systemctl bash demoPlain).
Proof.
  split; [reflexivity|].
  exact (unmanaged_never_calls_service_manager systemctl bash 8 demoPlain eq_refl).
Defined.

(** An entry [../notes] of the demo: the file next to the project goes to
    [/opt/notes]. *)
Lemma entry_can_leave_install_root_demo :
  let w := world notesDisk (host false [] []) in
  let entry := {| File := "../notes"; From := "cwd" |} in
  ∃ w', installEntry "" (installRoot demoPlain) entry w = Ok tt w'
    ∧ fs w' !! ["opt"; "notes"] = Some (FS.File "n")
    ∧ fs w' !! ["opt"; "demo"] = None
    ∧ FS.under (rootKey demoPlain) ["opt"; "notes"] = false.
Proof.
  intros w entry.
  assert (FS.valid_name (AppName demoPlain)) as Hv
    by (apply (bool_decide_unpack _); vm_compute; exact I).
  assert (FS.valid_name "notes") as Hx
    by (apply (bool_decide_unpack _); vm_compute; exact I).
  assert ("notes" ≠ AppName demoPlain) as Hne by discriminate.
  set (w' := emit (EvCopy "../notes" "/opt/notes")
               (set_fs (<[ ["opt"; "notes"] := FS.File "n" ]> notesDisk)
                  (emit (EvMkdirAll "/opt") w))).
  assert (installEntry "" (installRoot demoPlain) entry w = Ok tt w') as H
    by (vm_compute; reflexivity).
  exists w'. split; [exact H|]. split; [vm_compute; reflexivity|].
  split; [vm_compute; reflexivity|].
  exact (proj1 (proj2 (entry_can_leave_install_root demoPlain "" "notes" w w'
                         Hv Hx Hne H))).
Defined.

(** The demo service with an absolute build pattern, installed over a
    running instance: the build fails at the copy, the instance runs on,
    and the staging directory stays in [/tmp]. *)
Lemma failed_build_stops_nothing_demo :
  let w := world disk (host true [] [11%N]) in
  ∃ w1, doBuild bash glob random absoluteDemo w
        = Fatal (FCopy (ErrRel "/home/dev/data.txt")) w1
    ∧ up (env w1) = true
    ∧ installAction systemctl bash glob random 8 absoluteDemo w
      = Fatal (FCopy (ErrRel "/home/dev/data.txt")) w1
    ∧ ∃ t, trace w1 = trace w ++ t ∧ Forall buildPhase t.
Proof.
  intros w.
  set (w1 := after (doBuild bash glob random absoluteDemo w)).
  assert (doBuild bash glob random absoluteDemo w
          = Fatal (FCopy (ErrRel "/home/dev/data.txt")) w1) as H
    by (vm_compute; reflexivity).
  exists w1. split; [exact H|]. split; [vm_compute; reflexivity|].
  exact (failed_build_stops_nothing systemctl bash glob random 8 absoluteDemo w _ w1 H).
Defined.

Lemma failed_build_leaves_staging_directory_demo :
  let w := world disk (host true [] [11%N]) in
  ∃ w1, doBuild bash glob random absoluteDemo w
        = Fatal (FCopy (ErrRel "/home/dev/data.txt")) w1
    ∧ fs w1 !! ["tmp"; "qp_build_demo_11"] = Some FS.Dir
    ∧ ∃ buildDir p t,
        FS.resolve (cwd w) buildDir = Some p
        ∧ fs w !! p = None ∧ fs w1 !! p = Some FS.Dir
        ∧ trace w1 = trace w ++ EvMkdirTemp buildDir :: t.
Proof.
  intros w.
  set (w1 := after (doBuild bash glob random absoluteDemo w)).
  assert (doBuild bash glob random absoluteDemo w
          = Fatal (FCopy (ErrRel "/home/dev/data.txt")) w1) as H
    by (vm_compute; reflexivity).
  assert (FCopy (ErrRel "/home/dev/data.txt") ≠ FMkdirTemp) as Hf by discriminate.
  exists w1. split; [exact H|]. split; [vm_compute; reflexivity|].
  exact (failed_build_leaves_staging_directory bash glob random absoluteDemo w _ w1
           eq_refl H Hf).
Defined.

(** An entry of the demo given by its absolute path. *)
Lemma absolute_cwd_entry_is_refused_demo :
  let entry := {| File := "/home/dev/data.txt"; From := "cwd" |} in
  installEntry "" (installRoot demoPlain) entry idle
  = Fatal (FCopy (ErrRel "/home/dev/data.txt")) idle
  ∧ ∃ f, installEntry "" (installRoot demoPlain) entry idle = Fatal f idle
         ∧ (f = FSourceMissing (File entry) ∨ f = FCopy (ErrRel (File entry))).
Proof.
  intros entry. split; [vm_compute; reflexivity|].
  exact (absolute_cwd_entry_is_refused "" (installRoot demoPlain) entry idle
           eq_refl eq_refl).
Defined.

End Scenarios.
